(** * Stock backend (backend/index.js): the stock mutation routes and their log

    A shallow embedding of the Express service of [backend-code.js]: the
    persistence helpers [getStockData], [saveStockData] and [logTransaction],
    and the route handlers for [/stock/:section], [/stock/in], [/stock/out],
    [/upload] and [/logs], followed by the properties of the stock
    collections and of the transaction log.

    Conventions of the embedding.
    - Request fields are JSON values ([JsVal]), arrays and objects among
      them, or [undefined]; the handlers test them with [!x], [<=], [<],
      [===], [+=] and [-=], which are written out below with the coercions
      of the language.  Converting an object to a primitive value can throw,
      so these operators return in the exception monad [Try]; an exception
      that leaves a handler is answered by Express with status 500.
    - A JavaScript number is a double: [NaN], an infinity, an integer
      [Num z] or a fraction [Frac m k], which is the odd [m] over [2^k].
      Every double has one name among these values ([is_double]).  Sums,
      differences and the value of [parseInt] are rounded to the nearest
      double, ties to the even one, and overflow to an infinity
      ([round_dyadic]).  The two zeros are one value [Num 0]: the program
      cannot tell them apart ([-0 === 0], both are falsy, both print as 0,
      both are stored as 0).
    - A string is the list of the bytes of its UTF-8 text; the white space
      [parseInt] skips and the order [<] of two strings are those of the
      language, on the characters these bytes encode.
    - The rows of an uploaded csv file are the row objects the parser
      emits; what [parseInt] reads in them are numbers ([ParsedRow]).
    - The [data/] directory is a finite map from section name to the document
      [data/stock_<section>.json], next to the one document
      [data/transactions.json]; a document either parses to a list or makes
      [JSON.parse] throw.  [fs.writeFileSync] is taken to succeed: the [catch]
      branches of the two writers, which only print to the console, are then
      reached by a failing read or a failing conversion alone.
    - Three services of the engine are parameters of the program: the text
      of a number, the number of a text, and the clock.  The clock is an
      oracle: [clock k] is the [Date] obtained by the k-th reading, and the
      world counts the readings taken so far. *)

From Stdlib Require Import ZArith String Ascii List Bool Lia.
From stdpp Require Import base option list gmap strings pretty.

Open Scope string_scope.
Open Scope list_scope.
Open Scope Z_scope.

(** ** JavaScript values *)

Inductive JsNum : Type :=
  | NaN
  | Infinity (negative : bool)
  | Num (z : Z)
  | Frac (m : Z) (k : positive).

(** A value a request or a document can hold: a JSON value, or [undefined]
    for a field that is not there.  An object is the list of its own
    properties, in their order. *)
#[warnings="-register-all"] Inductive JsVal : Type :=
  | JUndefined
  | JNull
  | JBool (b : bool)
  | JNumber (n : JsNum)
  | JString (s : string)
  | JArray (elements : list JsVal)
  | JObject (properties : list (string * JsVal)).

#[global] Instance JsNum_eq_dec : EqDecision JsNum.
Proof. solve_decision. Defined.

Definition primitive (v : JsVal) : bool :=
  match v with
  | JArray _ | JObject _ => false
  | _ => true
  end.

(** [!v] is [negb (ToBoolean v)]: the falsy values are [undefined], [null],
    [false], [0], [NaN] and the empty string. *)
Definition ToBoolean (v : JsVal) : bool :=
  match v with
  | JUndefined | JNull => false
  | JBool b => b
  | JNumber NaN => false
  | JNumber (Num z) => negb (z =? 0)
  | JNumber (Infinity _) => true
  | JNumber (Frac _ _) => true
  | JString s => negb (String.eqb s "")
  | JArray _ | JObject _ => true
  end.

(** [a === b] on numbers: the same double, and [NaN] differs from itself. *)
Definition num_eqb (a b : JsNum) : bool :=
  match a, b with
  | Num x, Num y => x =? y
  | Frac m k, Frac n j => (m =? n) && (k =? j)%positive
  | Infinity s, Infinity t => Bool.eqb s t
  | _, _ => false
  end.

(** [a === b]: same type and same value.  An array or an object is equal
    to itself alone, and the values the handlers compare never are one
    object: one comes from the body of the request, the other from a
    document parsed for this request, or is a string of [sections]. *)
Definition strict_eq (a b : JsVal) : bool :=
  match a, b with
  | JUndefined, JUndefined => true
  | JNull, JNull => true
  | JBool x, JBool y => Bool.eqb x y
  | JNumber x, JNumber y => num_eqb x y
  | JString x, JString y => String.eqb x y
  | _, _ => false
  end.

(** [Array.prototype.includes], on an array of strings, compares with
    SameValueZero, which is [===] except that [NaN] is found. *)
Definition same_value_zero (a b : JsVal) : bool :=
  match a, b with
  | JNumber NaN, JNumber NaN => true
  | _, _ => strict_eq a b
  end.

Definition includes (l : list string) (v : JsVal) : bool :=
  existsb (fun x => same_value_zero (JString x) v) l.

Definition is_string (v : JsVal) : bool :=
  match v with JString _ => true | _ => false end.

(** *** Order of strings

    [<] on two strings compares their UTF-16 code units.  A string here is
    UTF-8 text: its characters are decoded, and a character from U+10000 on
    counts by its two surrogates. *)
Definition continuation (c : ascii) : option N :=
  let b := N_of_ascii c in
  if (128 <=? b)%N && (b <? 192)%N then Some (b - 128)%N else None.

(** The code point at the front of [s] and the text behind it; a byte that
    opens no well-formed character stands for itself. *)
Definition decode1 (s : string) : option (N * string) :=
  match s with
  | EmptyString => None
  | String c1 r1 =>
      let b1 := N_of_ascii c1 in
      let alone := Some (b1, r1) in
      if (b1 <? 192)%N then alone
      else
        match r1 with
        | String c2 r2 =>
            match continuation c2 with
            | None => alone
            | Some x2 =>
                if (b1 <? 224)%N then Some ((b1 - 192) * 64 + x2, r2)%N
                else
                  match r2 with
                  | String c3 r3 =>
                      match continuation c3 with
                      | None => alone
                      | Some x3 =>
                          if (b1 <? 240)%N
                          then Some (((b1 - 224) * 64 + x2) * 64 + x3, r3)%N
                          else
                            match r3 with
                            | String c4 r4 =>
                                match continuation c4 with
                                | None => alone
                                | Some x4 =>
                                    Some ((((b1 - 240) * 64 + x2) * 64 + x3) * 64 + x4,
                                          r4)%N
                                end
                            | EmptyString => alone
                            end
                      end
                  | EmptyString => alone
                  end
            end
        | EmptyString => alone
        end
  end.

Definition code_units (p : N) : list N :=
  if (p <? 65536)%N then [p]
  else [55296 + (p - 65536) / 1024; 56320 + (p - 65536) mod 1024]%N.

(** The code units of a text; [fuel] is its length in bytes. *)
Fixpoint utf16_go (fuel : nat) (s : string) : list N :=
  match fuel with
  | O => []
  | S fuel' =>
      match decode1 s with
      | None => []
      | Some (p, r) => code_units p ++ utf16_go fuel' r
      end
  end.

Definition utf16 (s : string) : list N := utf16_go (String.length s) s.

Fixpoint units_ltb (a b : list N) : bool :=
  match a, b with
  | _, [] => false
  | [], _ :: _ => true
  | x :: a', y :: b' => (x <? y)%N || ((x =? y)%N && units_ltb a' b')
  end.

Definition utf16_ltb (a b : string) : bool := units_ltb (utf16 a) (utf16 b).

(** *** Arithmetic of doubles

    A finite double is a dyadic number [m / 2^k] with [k >= 0]; [normalize]
    gives it its one name, [Num] when it is an integer and [Frac] with an
    odd numerator otherwise. *)
Fixpoint normalize (m : Z) (k : nat) : JsNum :=
  match k with
  | O => Num m
  | S k' => if Z.even m then normalize (m / 2) k' else Frac m (Pos.of_succ_nat k')
  end.

(** The double nearest to [s / 2^K], [K >= 0]: 53 significant bits, the
    last of them worth at least [2^-1074], ties to the even neighbour, and
    an infinity from [2^1024] on. *)
Definition round_dyadic (s K : Z) : JsNum :=
  if s =? 0 then Num 0
  else
    let a := Z.abs s in
    let u := Z.max (Z.log2 a - K - 52) (-1074) in
    let sh := K + u in
    if sh <=? 0 then normalize s (Z.to_nat K)
    else
      let M0 := a / 2 ^ sh in
      let r := a mod 2 ^ sh in
      let half := 2 ^ (sh - 1) in
      let M := if (half <? r) || ((r =? half) && Z.odd M0) then M0 + 1 else M0 in
      if 0 <=? u
      then if 2 ^ 1024 <=? M * 2 ^ u
           then Infinity (s <? 0)
           else Num (Z.sgn s * M * 2 ^ u)
      else normalize (Z.sgn s * M) (Z.to_nat (- u)).

(** The values that name a double: those rounding leaves as they are.  The
    operations below return such values; the properties are stated for all
    values of the type. *)
Definition is_double (n : JsNum) : bool :=
  match n with
  | Num z =>
      match round_dyadic z 0 with
      | Num y => z =? y
      | _ => false
      end
  | Frac m k =>
      match round_dyadic m (Z.pos k) with
      | Frac n j => (m =? n) && (k =? j)%positive
      | _ => false
      end
  | _ => true
  end.

(** Numerator and exponent of the denominator of a finite double. *)
Definition dyadic (n : JsNum) : option (Z * Z) :=
  match n with
  | Num z => Some (z, 0)
  | Frac m k => Some (m, Z.pos k)
  | _ => None
  end.

Definition num_opp (n : JsNum) : JsNum :=
  match n with
  | NaN => NaN
  | Infinity s => Infinity (negb s)
  | Num z => Num (- z)
  | Frac m k => Frac (- m) k
  end.

Definition num_add (a b : JsNum) : JsNum :=
  match a, b with
  | NaN, _ | _, NaN => NaN
  | Infinity s, Infinity t => if Bool.eqb s t then Infinity s else NaN
  | Infinity s, _ => Infinity s
  | _, Infinity t => Infinity t
  | _, _ =>
      match dyadic a, dyadic b with
      | Some (m, k), Some (n, j) =>
          let K := Z.max k j in
          round_dyadic (m * 2 ^ (K - k) + n * 2 ^ (K - j)) K
      | _, _ => NaN
      end
  end.

Definition num_sub (a b : JsNum) : JsNum := num_add a (num_opp b).

(** [a < b] on numbers; no answer when one of them is [NaN]. *)
Definition num_ltb (a b : JsNum) : option bool :=
  match a, b with
  | NaN, _ | _, NaN => None
  | Infinity s, Infinity t => Some (s && negb t)
  | Infinity s, _ => Some s
  | _, Infinity t => Some (negb t)
  | _, _ =>
      match dyadic a, dyadic b with
      | Some (m, k), Some (n, j) =>
          let K := Z.max k j in
          Some (m * 2 ^ (K - k) <? n * 2 ^ (K - j))
      | _, _ => None
      end
  end.

(** *** parseInt

    [parseInt(string)] without a radix: leading white space is skipped, one
    sign is read, a [0x] or [0X] prefix selects base 16, and the longest run
    of digits of the base is the value, rounded to a double; no digit at
    all gives [NaN]. *)

(** White space and line terminators of one byte. *)
Definition is_white (c : ascii) : bool :=
  let n := nat_of_ascii c in
  ((9 <=? n) && (n <=? 13))%nat || (n =? 32)%nat.

(** The other white space of the language, in UTF-8: U+00A0; U+1680,
    U+2000 to U+200A, U+2028, U+2029, U+202F, U+205F, U+3000 and U+FEFF. *)
Definition is_white2 (c1 c2 : ascii) : bool :=
  ((nat_of_ascii c1 =? 194) && (nat_of_ascii c2 =? 160))%nat.

Definition is_white3 (c1 c2 c3 : ascii) : bool :=
  let a := nat_of_ascii c1 in
  let b := nat_of_ascii c2 in
  let c := nat_of_ascii c3 in
  ((a =? 225) && (b =? 154) && (c =? 128)
   || (a =? 226) && (b =? 128)
      && (((128 <=? c) && (c <=? 138)) || (c =? 168) || (c =? 169) || (c =? 175))
   || (a =? 226) && (b =? 129) && (c =? 159)
   || (a =? 227) && (b =? 128) && (c =? 128)
   || (a =? 239) && (b =? 187) && (c =? 191))%nat.

Fixpoint skip_white (s : string) : string :=
  match s with
  | String c1 r1 =>
      if is_white c1 then skip_white r1
      else
        match r1 with
        | String c2 r2 =>
            if is_white2 c1 c2 then skip_white r2
            else
              match r2 with
              | String c3 r3 =>
                  if is_white3 c1 c2 c3 then skip_white r3 else s
              | EmptyString => s
              end
        | EmptyString => s
        end
  | EmptyString => s
  end.

Definition digit_value (c : ascii) : option Z :=
  let n := Z.of_nat (nat_of_ascii c) in
  if (48 <=? n) && (n <=? 57) then Some (n - 48)
  else if (97 <=? n) && (n <=? 122) then Some (n - 87)
  else if (65 <=? n) && (n <=? 90) then Some (n - 55)
  else None.

(** Reads digits of base [radix] from the front of [s]; [acc] is [None] until
    a first digit has been read. *)
Fixpoint read_digits (radix : Z) (acc : option Z) (s : string) : option Z :=
  match s with
  | String c r =>
      match digit_value c with
      | Some d =>
          if d <? radix
          then read_digits radix (Some (default 0 acc * radix + d)) r
          else acc
      | None => acc
      end
  | EmptyString => acc
  end.

Definition strip_sign (s : string) : Z * string :=
  match s with
  | String "-" r => (-1, r)
  | String "+" r => (1, r)
  | _ => (1, s)
  end.

Definition strip_radix (s : string) : Z * string :=
  match s with
  | String "0" (String "x" r) => (16, r)
  | String "0" (String "X" r) => (16, r)
  | _ => (10, s)
  end.

Definition parseInt_string (s : string) : JsNum :=
  let '(sign, s1) := strip_sign (skip_white s) in
  let '(radix, s2) := strip_radix s1 in
  match read_digits radix None s2 with
  | Some m => round_dyadic (sign * m) 0
  | None => NaN
  end.

(** [parseInt(cell)] on a cell of a csv row, which is a string, or
    [undefined] when the row has no such column: [parseInt] reads the text
    of its argument, and the text of [undefined] has no digit. *)
Definition parseInt (cell : option string) : JsNum :=
  parseInt_string (default "undefined" cell).

(** [isNaN(n)] on a number. *)
Definition isNaN (n : JsNum) : bool :=
  match n with
  | NaN => true
  | _ => false
  end.

(** [path.extname] of a file name without directory part: the text from
    the last dot on, and nothing when there is no dot, when the only dot
    opens the name, or when the name is [..]. *)
Fixpoint last_dot (s : string) : option string :=
  match s with
  | EmptyString => None
  | String c r =>
      match last_dot r with
      | Some e => Some e
      | None => if Ascii.eqb c "." then Some s else None
      end
  end.

Definition extname (s : string) : string :=
  if String.eqb s ".." then ""
  else
    match s with
    | String _ r => default "" (last_dot r)
    | EmptyString => ""
    end.

(** ** Data model *)

(** An element of a section's stock list: [{ size, quantity }].  The
    fields carry a prefix because [size] is a name of the map library. *)
Record StockItem : Type := mkItem {
  item_size : JsVal;
  item_quantity : JsVal
}.

(** An element of the [results] of an upload: the two numbers [parseInt]
    reads in a row. *)
Record ParsedRow : Type := mkRow {
  row_size : JsNum;
  row_quantity : JsNum
}.

Inductive TxType : Type := IN | OUT | UPLOAD.

(** The object handed to [logTransaction], and the logged record, which is
    that object spread and given a [timestamp]. *)
Record TxData : Type := mkTx {
  tx_section : JsVal;
  tx_size : JsVal;
  tx_quantity : JsVal;
  tx_type : TxType
}.

Record Transaction : Type := mkLogged {
  tx_data : TxData;
  timestamp : string
}.

(** A [Date] object, as far as the program looks at it. *)
Record Date : Type := mkDate {
  getTime : Z;
  toISOString : string
}.

(** The text of a JSON document on disk: it parses to a value, or
    [JSON.parse] throws on it. *)
Inductive Doc (A : Type) : Type :=
  | Parsed (a : A)
  | Unparsable.
Arguments Parsed {A} a.
Arguments Unparsable {A}.

(** One row object emitted by the csv parser: header name to cell text. *)
Abbreviation CsvRow := (gmap string string).

Record World : Type := mkWorld {
  stock_files : gmap string (Doc (list StockItem));
  log_file : option (Doc (list Transaction));
  uploads : gmap string (list CsvRow);
  ticks : nat
}.

Definition set_stock_files (f : gmap string (Doc (list StockItem))) (w : World) : World :=
  mkWorld f (log_file w) (uploads w) (ticks w).
Definition set_log_file (f : option (Doc (list Transaction))) (w : World) : World :=
  mkWorld (stock_files w) f (uploads w) (ticks w).
Definition set_uploads (f : gmap string (list CsvRow)) (w : World) : World :=
  mkWorld (stock_files w) (log_file w) f (ticks w).
Definition set_ticks (n : nat) (w : World) : World :=
  mkWorld (stock_files w) (log_file w) (uploads w) n.

(** Exceptions: a file that is not there, a text that is no JSON, and an
    object that has no primitive value. *)
Inductive Exn : Type := ENOENT | SyntaxError | TypeError.

Inductive Try (A : Type) : Type :=
  | Return (a : A)
  | Throw (e : Exn).
Arguments Return {A} a.
Arguments Throw {A} e.

#[global] Instance Try_ret : MRet Try := fun A a => Return a.

#[global] Instance Try_bind : MBind Try := fun A B k m =>
  match m with
  | Return a => k a
  | Throw e => Throw e
  end.

Definition catch {A : Type} (m : Try A) (handler : Exn -> A) : A :=
  match m with
  | Return a => a
  | Throw e => handler e
  end.

(** A [try] block whose [catch] block can throw in its turn. *)
Definition try_catch {A : Type} (m : Try A) (handler : Exn -> Try A) : Try A :=
  match m with
  | Return a => Return a
  | Throw e => handler e
  end.

(** [fs.readFileSync] throws when the file does not exist. *)
Definition readFileSync {A : Type} (file : option (Doc A)) : Try (Doc A) :=
  match file with
  | Some d => Return d
  | None => Throw ENOENT
  end.

Definition JSON_parse {A : Type} (d : Doc A) : Try A :=
  match d with
  | Parsed a => Return a
  | Unparsable => Throw SyntaxError
  end.

(** [JSON.stringify] followed by [JSON.parse]: [NaN] and the infinities
    are written as [null], also inside arrays and objects; a property
    holding [undefined] is left out and reads back as [undefined], and an
    element of an array holding [undefined] is written as [null]. *)
Fixpoint json_value (v : JsVal) : JsVal :=
  match v with
  | JNumber NaN => JNull
  | JNumber (Infinity _) => JNull
  | JArray elements =>
      JArray (List.map (fun x => match json_value x with
                                 | JUndefined => JNull
                                 | y => y
                                 end) elements)
  | JObject properties =>
      JObject ((fix props (l : list (string * JsVal)) : list (string * JsVal) :=
                  match l with
                  | [] => []
                  | (key, x) :: r =>
                      match json_value x with
                      | JUndefined => props r
                      | y => (key, y) :: props r
                      end
                  end) properties)
  | _ => v
  end.

Definition json_item (i : StockItem) : StockItem :=
  mkItem (json_value (item_size i)) (json_value (item_quantity i)).

Definition json_tx (t : Transaction) : Transaction :=
  let d := tx_data t in
  mkLogged (mkTx (json_value (tx_section d)) (json_value (tx_size d))
                 (json_value (tx_quantity d)) (tx_type d))
           (timestamp t).

(** [Array.prototype.findIndex]; [None] stands for the result [-1]. *)
Fixpoint findIndex {A : Type} (p : A -> bool) (l : list A) : option nat :=
  match l with
  | [] => None
  | x :: r => if p x then Some O else S <$> findIndex p r
  end.

Inductive Payload : Type :=
  | PErrorPage
  | PError (error : string)
  | PSuccess (stockData : list StockItem)
  | PStock (stockData : list StockItem)
  | PLogs (transactions : list Transaction).

(** What the client gets: a status with a JSON body ([PErrorPage] is the
    page Express sends when a handler throws), or nothing when the handler
    never answers. *)
Inductive Response : Type :=
  | Reply (status : nat) (body : Payload)
  | NoReply.

Record Body : Type := mkBody {
  b_section : JsVal;
  b_size : JsVal;
  b_quantity : JsVal
}.

(** The multipart request of [/upload]: the [section] field and, when a part
    named [file] is sent, its name and the rows the csv parser reads in it. *)
Record UploadedFile : Type := mkFile {
  originalname : string;
  content : list CsvRow
}.

Record UploadRequest : Type := mkUpload {
  u_section : JsVal;
  u_file : option UploadedFile
}.

Inductive Request : Type :=
  | GetStock (section : JsVal)
  | PostStockIn (body : Body)
  | PostStockOut (body : Body)
  | PostUpload (req : UploadRequest)
  | GetLogs.

Definition sections : list string := ["A"; "B"; "C"].

(** ** Values for the parameters, to run the program on

    The program below is parametrised by the text of a number, the number
    of a text and the clock.  The closed examples at the end of the file run
    it with the three functions defined here, which stand for the engine on
    the inputs those examples use: [dec_number] is the number of a string
    that is a decimal integer, white space around it allowed (and answers
    [NaN] on any other string); [dec_text] is the text of an integer up to
    [2^53] in size, of [NaN] and of the infinities; the clock ticks once a
    millisecond from a fixed instant. *)
Definition only_white (s : string) : bool := String.eqb (skip_white s) "".

Fixpoint digits_then_white (s : string) : bool :=
  match s with
  | EmptyString => true
  | String c r =>
      match digit_value c with
      | Some d => if d <? 10 then digits_then_white r else false
      | None => only_white s
      end
  end.

Definition dec_number (s : string) : JsNum :=
  let t := skip_white s in
  match t with
  | EmptyString => Num 0
  | _ =>
      let '(sign, u) := strip_sign t in
      match read_digits 10 None u with
      | Some m => if digits_then_white u then round_dyadic (sign * m) 0 else NaN
      | None => NaN
      end
  end.

Definition dec_text (n : JsNum) : string :=
  match n with
  | NaN => "NaN"
  | Infinity false => "Infinity"
  | Infinity true => "-Infinity"
  | Num z => pretty z
  | Frac m k => pretty m +:+ "/2^" +:+ pretty (Z.pos k)
  end.

Definition ms_clock (k : nat) : Date :=
  let t := 1762041600000 + Z.of_nat k in
  mkDate t ("T+" +:+ pretty t).

Definition row (size quantity : string) : CsvRow :=
  {[ "size" := size; "quantity" := quantity ]}.

(** Requests with integer fields, and an upload of a csv file. *)
Definition body (section : string) (size quantity : Z) : Body :=
  mkBody (JString section) (JNumber (Num size)) (JNumber (Num quantity)).

Definition csv_upload (section : string) (rows : list CsvRow) : UploadRequest :=
  mkUpload (JString section) (Some (mkFile "stock.csv" rows)).

Definition stock_item (size quantity : Z) : StockItem :=
  mkItem (JNumber (Num size)) (JNumber (Num quantity)).

(** ** The program

    Three services of the engine are parameters: the text of a number
    ([Number::toString], used by [+] on a string and by template
    literals), the conversion of a string to a number (the whole grammar of
    numeric literals, used by [<=], [<], [+] and [-] on strings) and the
    clock. *)

Section Server.

Variable NumberToString : JsNum -> string.
Variable StringToNumber : string -> JsNum.
Variable clock : nat -> Date.

(** [ToString(v)].  An array is the texts of its elements joined by
    commas, an element [null] or [undefined] counting as empty.  An object
    is converted by its [toString] method: the inherited one answers
    [[object Object]]; an own property of that name, which in a parsed
    document is never a function, hides it, nothing is left to call, and the
    conversion throws. *)
Fixpoint ToString (v : JsVal) : Try string :=
  match v with
  | JUndefined => Return "undefined"
  | JNull => Return "null"
  | JBool true => Return "true"
  | JBool false => Return "false"
  | JNumber n => Return (NumberToString n)
  | JString s => Return s
  | JArray elements =>
      (fix join (l : list JsVal) : Try string :=
         match l with
         | [] => Return ""
         | x :: r =>
             s ← match x with
                 | JUndefined | JNull => Return ""
                 | _ => ToString x
                 end;
             match r with
             | [] => Return s
             | _ :: _ => t ← join r; Return (s +:+ "," +:+ t)
             end
         end) elements
  | JObject properties =>
      if existsb (fun p => String.eqb p.1 "toString") properties
      then Throw TypeError
      else Return "[object Object]"
  end.

(** [ToPrimitive(v)]: an array or an object gives its text, whatever the
    hint, since the inherited [valueOf] returns the object itself. *)
Definition ToPrimitive (v : JsVal) : Try JsVal :=
  match v with
  | JArray _ | JObject _ => s ← ToString v; Return (JString s)
  | _ => Return v
  end.

Definition ToNumber (v : JsVal) : Try JsNum :=
  match v with
  | JUndefined => Return NaN
  | JNull => Return (Num 0)
  | JBool true => Return (Num 1)
  | JBool false => Return (Num 0)
  | JNumber n => Return n
  | JString s => Return (StringToNumber s)
  | JArray _ | JObject _ => s ← ToString v; Return (StringToNumber s)
  end.

(** The comparison behind [<] and [<=]: the operands are made primitive;
    two strings are compared as strings, by their UTF-16 code units,
    anything else as numbers, and a [NaN] operand gives no answer. *)
Definition IsLessThan (x y : JsVal) : Try (option bool) :=
  px ← ToPrimitive x;
  py ← ToPrimitive y;
  match px, py with
  | JString a, JString b => Return (Some (utf16_ltb a b))
  | _, _ => nx ← ToNumber px; ny ← ToNumber py; Return (num_ltb nx ny)
  end.

(** [a < b] *)
Definition js_lt (a b : JsVal) : Try bool :=
  r ← IsLessThan a b; Return (default false r).

(** [a <= b], which is "not [b < a]" unless the comparison has no answer. *)
Definition js_le (a b : JsVal) : Try bool :=
  r ← IsLessThan b a; Return (from_option negb false r).

(** [a + b]: the operands are made primitive; concatenation as soon as one
    of them is a string then. *)
Definition js_add (a b : JsVal) : Try JsVal :=
  pa ← ToPrimitive a;
  pb ← ToPrimitive b;
  if is_string pa || is_string pb
  then sa ← ToString pa; sb ← ToString pb; Return (JString (sa +:+ sb))
  else na ← ToNumber pa; nb ← ToNumber pb; Return (JNumber (num_add na nb)).

(** [a - b] *)
Definition js_sub (a b : JsVal) : Try JsVal :=
  na ← ToNumber a; nb ← ToNumber b; Return (JNumber (num_sub na nb)).

(** [new Date()] and [Date.now()] read the clock. *)
Definition new_Date (w : World) : Date * World :=
  (clock (ticks w), set_ticks (S (ticks w)) w).

Definition Date_now (w : World) : Z * World :=
  let '(d, w') := new_Date w in (getTime d, w').

(** *** Start of the process: the documents that do not exist are created
    empty. *)
Definition init_section (w : World) (section : string) : World :=
  let filePath := section in
  match stock_files w !! filePath with
  | Some _ => w
  | None => set_stock_files (<[filePath := Parsed []]> (stock_files w)) w
  end.

Definition init_log (w : World) : World :=
  match log_file w with
  | Some _ => w
  | None => set_log_file (Some (Parsed [])) w
  end.

Definition startup (w : World) : World :=
  init_log (foldl init_section w sections).

(** The machine before the first start: no document, no upload. *)
Definition empty_disk : World := mkWorld ∅ None ∅ O.

(** *** Helper functions for stock data

    The [catch] block of the first two prints the section in a template
    literal, which converts it once more. *)

Definition getStockData (w : World) (section : JsVal) : Try (list StockItem) :=
  try_catch (filePath ← ToString section;
             data ← readFileSync (stock_files w !! filePath);
             JSON_parse data)
            (fun error => _ ← ToString section; mret []).

Definition saveStockData (w : World) (section : JsVal) (data : list StockItem)
    : Try World :=
  try_catch (filePath ← ToString section;
             mret (set_stock_files
                     (<[filePath := Parsed (json_item <$> data)]> (stock_files w)) w))
            (fun error => _ ← ToString section; mret w).

Definition logTransaction (w : World) (transaction : TxData) : World :=
  catch (logData ← readFileSync (log_file w);
         transactions ← JSON_parse logData;
         let '(now, w1) := new_Date w in
         let transactions' :=
           transactions ++ [mkLogged transaction (toISOString now)] in
         mret (set_log_file (Some (Parsed (json_tx <$> transactions'))) w1))
        (fun error => w).

(** *** Routes *)

Definition bad_request (w : World) (msg : string) : World * Response :=
  (w, Reply 400 (PError msg)).

(** An exception that leaves a handler is answered by Express with status
    500 and its error page.  The three handlers below write only after
    their last step that can throw, so the world is then the one the request
    found. *)
Definition uncaught (w : World) (m : Try (World * Response)) : World * Response :=
  catch m (fun error => (w, Reply 500 PErrorPage)).

(** [app.get('/stock/:section')] *)
Definition get_stock (w : World) (section : JsVal) : World * Response :=
  if negb (includes sections section) then bad_request w "Invalid section"
  else uncaught w (stockData ← getStockData w section;
                   mret (w, Reply 200 (PStock stockData))).

Definition has_size (size : JsVal) (item : StockItem) : bool :=
  strict_eq (item_size item) size.

(** [item.quantity += quantity], [item.quantity -= quantity] and
    [item.quantity = quantity] on one item. *)
Definition add_quantity (quantity : JsVal) (item : StockItem) : Try StockItem :=
  q ← js_add (item_quantity item) quantity; mret (mkItem (item_size item) q).

Definition sub_quantity (quantity : JsVal) (item : StockItem) : Try StockItem :=
  q ← js_sub (item_quantity item) quantity; mret (mkItem (item_size item) q).

Definition set_quantity (quantity : JsVal) (item : StockItem) : StockItem :=
  mkItem (item_size item) quantity.

(** [stockData[i]] updated in place by [f]. *)
Definition update {A : Type} (f : A -> Try A) (i : nat) (l : list A) : Try (list A) :=
  match l !! i with
  | Some x => y ← f x; mret (<[i := y]> l)
  | None => mret l
  end.

(** [!section || !size || !quantity || quantity <= 0] *)
Definition invalid_input (section size quantity : JsVal) : Try bool :=
  if negb (ToBoolean section) || negb (ToBoolean size) || negb (ToBoolean quantity)
  then mret true
  else js_le quantity (JNumber (Num 0)).

(** [app.post('/stock/in')] *)
Definition post_stock_in (w : World) (body : Body) : World * Response :=
  let section := b_section body in
  let size := b_size body in
  let quantity := b_quantity body in
  uncaught w (
    invalid ← invalid_input section size quantity;
    if (invalid : bool) then mret (bad_request w "Invalid input data")
    else if negb (includes sections section)
    then mret (bad_request w "Invalid section")
    else
      stockData ← getStockData w section;
      stockData ← match findIndex (has_size size) stockData with
                  | Some itemIndex => update (add_quantity quantity) itemIndex stockData
                  | None => mret (stockData ++ [mkItem size quantity])
                  end;
      w' ← saveStockData w section stockData;
      let w' := logTransaction w' (mkTx section size quantity IN) in
      mret (w', Reply 200 (PSuccess stockData))).

(** [app.post('/stock/out')] *)
Definition post_stock_out (w : World) (body : Body) : World * Response :=
  let section := b_section body in
  let size := b_size body in
  let quantity := b_quantity body in
  uncaught w (
    invalid ← invalid_input section size quantity;
    if (invalid : bool) then mret (bad_request w "Invalid input data")
    else if negb (includes sections section)
    then mret (bad_request w "Invalid section")
    else
      stockData ← getStockData w section;
      match findIndex (has_size size) stockData with
      | None => mret (bad_request w "Item not found in stock")
      | Some itemIndex =>
          short ← js_lt (default JUndefined (item_quantity <$> stockData !! itemIndex))
                        quantity;
          if (short : bool) then mret (bad_request w "Not enough stock available")
          else
            stockData ← update (sub_quantity quantity) itemIndex stockData;
            w' ← saveStockData w section stockData;
            let w' := logTransaction w' (mkTx section size quantity OUT) in
            mret (w', Reply 200 (PSuccess stockData))
      end).

(** The multer middleware of [/upload]: a part named [file] is stored in
    [uploads/] under the field name, the clock reading and the extension of
    its original name; [req.file] is its path, or absent. *)
Definition filename (now : Z) (file : UploadedFile) : string :=
  "file" +:+ "-" +:+ pretty now +:+ extname (originalname file).

Definition upload_single (w : World) (req : UploadRequest) : World * option string :=
  match u_file req with
  | None => (w, None)
  | Some file =>
      let '(now, w) := Date_now w in
      let path := filename now file in
      (set_uploads (<[path := content file]> (uploads w)) w, Some path)
  end.

(** The ['data'] callback: one parsed row per row object. *)
Definition on_data (data : CsvRow) : ParsedRow :=
  mkRow (parseInt (data !! "size")) (parseInt (data !! "quantity")).

(** The body of [results.forEach], on the list being built and the world. *)
Definition upload_item (section : JsVal) (acc : list StockItem * World)
    (item : ParsedRow) : list StockItem * World :=
  let '(stockData, w) := acc in
  let size := JNumber (row_size item) in
  let quantity := JNumber (row_quantity item) in
  if isNaN (row_size item) || isNaN (row_quantity item) then acc
  else
    let stockData :=
      match findIndex (has_size size) stockData with
      | Some itemIndex => alter (set_quantity quantity) itemIndex stockData
      | None => stockData ++ [mkItem size quantity]
      end in
    (stockData, logTransaction w (mkTx section size quantity UPLOAD)).

Definition unlinkSync (w : World) (path : string) : World :=
  set_uploads (delete path (uploads w)) w.

(** The ['end'] callback.  It runs outside the handler: an exception in it
    is caught by nobody and the request gets no answer. *)
Definition on_end (w : World) (section : JsVal) (path : string)
    (results : list ParsedRow) : World * Response :=
  catch (stockData ← getStockData w section;
         let '(stockData, w) :=
           foldl (upload_item section) (stockData, w) results in
         mret (catch (w ← saveStockData w section stockData;
                      let w := unlinkSync w path in
                      mret (w, Reply 200 (PSuccess stockData)))
                     (fun error => (w, NoReply))))
        (fun error => (w, NoReply)).

(** The handler of [/upload] behind the middleware.  A stored file that
    cannot be read makes the stream fail, and its ['end'] callback, which
    alone answers, never runs. *)
Definition upload_handler (w : World) (section : JsVal) (file : option string)
    : World * Response :=
  if negb (ToBoolean section) || negb (includes sections section)
  then bad_request w "Invalid section"
  else
    match file with
    | None => bad_request w "No file uploaded"
    | Some path =>
        match uploads w !! path with
        | None => (w, NoReply)
        | Some rows => on_end w section path (on_data <$> rows)
        end
    end.

(** [app.post('/upload', upload.single('file'), ...)] *)
Definition post_upload (w : World) (req : UploadRequest) : World * Response :=
  let '(w, file) := upload_single w req in
  upload_handler w (u_section req) file.

(** [app.get('/logs')] *)
Definition get_logs (w : World) : World * Response :=
  catch (logData ← readFileSync (log_file w);
         transactions ← JSON_parse logData;
         mret (w, Reply 200 (PLogs transactions)))
        (fun error => (w, Reply 500 (PError "Failed to read transaction logs"))).

Definition handle (w : World) (r : Request) : World * Response :=
  match r with
  | GetStock section => get_stock w section
  | PostStockIn body => post_stock_in w body
  | PostStockOut body => post_stock_out w body
  | PostUpload req => post_upload w req
  | GetLogs => get_logs w
  end.

(** The worlds the service goes through from [w0], request after request. *)
Inductive reaches (w0 : World) : World -> Prop :=
  | reaches_refl : reaches w0 w0
  | reaches_step w r : reaches w0 w -> reaches w0 (handle w r).1.

(** The service after its first start on an empty disk, and a run of
    requests. *)
Definition fresh : World := startup empty_disk.

Definition run (w : World) (rs : list Request) : World :=
  foldl (fun w r => (handle w r).1) w rs.

(** The collection of a section, as [getStockData] returns it. *)
Definition stock (w : World) (section : JsVal) : list StockItem :=
  catch (getStockData w section) (fun error => []).

(** The world [saveStockData] leaves. *)
Definition save (w : World) (section : JsVal) (data : list StockItem) : World :=
  catch (saveStockData w section data) (fun error => w).

(** The quantity recorded for [size] in a collection: that of the item
    [findIndex] selects. *)
Definition quantity_of (size : JsVal) (l : list StockItem) : option JsVal :=
  item_quantity <$> List.find (has_size size) l.

(** What a parsed document can hold: values that survive the way through
    [JSON.stringify] and [JSON.parse]. *)
Definition json_log (l : list Transaction) : Prop := json_tx <$> l = l.

(** The values JSON stores as they are and [===] finds again: strings,
    booleans and finite numbers. *)
Definition storable (v : JsVal) : bool :=
  match v with
  | JBool _ | JString _ | JNumber (Num _) | JNumber (Frac _ _) => true
  | _ => false
  end.

Definition infinite (v : JsVal) : bool :=
  match v with
  | JNumber (Infinity _) => true
  | _ => false
  end.

(** The invariant of a collection: one item per size, among the sizes that
    are strings, booleans or finite numbers.  (An infinite size is stored as
    [null], and an array or an object is equal to no stored copy of it:
    such sizes are never found again.) *)
Definition unique_sizes (l : list StockItem) : Prop :=
  NoDup (filter (fun v => storable v = true) (item_size <$> l)).

Definition collections_ok (w : World) : Prop :=
  forall section l, stock_files w !! section = Some (Parsed l) -> unique_sizes l.

(** The sizes of every stock document are values [JSON.parse] can
    return. *)
Definition json_sizes (w : World) : Prop :=
  forall key l, stock_files w !! key = Some (Parsed l) ->
    Forall (fun i => json_value (item_size i) = item_size i) l.

(** Two items that are stored as one item and that answer alike when
    [findIndex] looks for a number. *)
Definition alike (a b : StockItem) : Prop :=
  json_item a = json_item b /\
  forall n, has_size (JNumber n) a = has_size (JNumber n) b.

(** The parsed row as the item [forEach] writes. *)
Definition row_item (item : ParsedRow) : StockItem :=
  mkItem (JNumber (row_size item)) (JNumber (row_quantity item)).

(** The list one row of [forEach] leaves: the first component of
    [upload_item]. *)
Definition set_row (item : ParsedRow) (l : list StockItem) : list StockItem :=
  if isNaN (row_size item) || isNaN (row_quantity item) then l
  else
    match findIndex (has_size (JNumber (row_size item))) l with
    | Some itemIndex => alter (set_quantity (JNumber (row_quantity item))) itemIndex l
    | None => l ++ [row_item item]
    end.

(** The log document exists, parses, and holds JSON records. *)
Definition log_ok (w : World) : Prop :=
  exists l, log_file w = Some (Parsed l) /\ json_log l.

(** The rows of an upload that [forEach] applies, and the entries they
    leave in the log when the clock has been read [k] times before. *)
Definition applied (item : ParsedRow) : bool :=
  negb (isNaN (row_size item) || isNaN (row_quantity item)).

Fixpoint upload_entries (section : JsVal) (k : nat) (items : list ParsedRow)
    : list Transaction :=
  match items with
  | [] => []
  | item :: rest =>
      mkLogged (mkTx section (JNumber (row_size item)) (JNumber (row_quantity item))
                     UPLOAD)
               (toISOString (clock k))
        :: upload_entries section (S k) rest
  end.

(** The quantity of the last applied row of [size] among the rows of an
    upload, when there is one. *)
Fixpoint last_applied (size : JsVal) (results : list ParsedRow) : option JsVal :=
  match results with
  | [] => None
  | item :: rest =>
      match last_applied size rest with
      | Some q => Some q
      | None =>
          if applied item && strict_eq (JNumber (row_size item)) size
          then Some (JNumber (row_quantity item)) else None
      end
  end.

(** Strings made of decimal digits only. *)
Definition is_decimal (c : ascii) : bool :=
  match digit_value c with
  | Some d => d <? 10
  | None => false
  end.

Fixpoint all_decimal (s : string) : bool :=
  match s with
  | EmptyString => true
  | String c r => is_decimal c && all_decimal r
  end.

(** A number that is finite and not negative. *)
Definition num_nonneg (n : JsNum) : Prop :=
  match n with
  | Num z => 0 <= z
  | Frac m _ => 0 < m
  | _ => False
  end.

(** Every quantity of a stored collection is [null] or a finite number that
    is not negative. *)
Definition nonnegative (l : list StockItem) : Prop :=
  Forall (fun i => item_quantity i = JNull \/
                   exists n, item_quantity i = JNumber n /\ num_nonneg n) l.

Definition all_nonnegative (w : World) : Prop :=
  forall key l, stock_files w !! key = Some (Parsed l) -> nonnegative l.
(** ** Properties *)

(** *** Values *)

(** Induction on a value that reaches the elements of an array and the
    properties of an object. *)
Lemma JsVal_induction (P : JsVal -> Prop) :
  P JUndefined -> P JNull -> (forall b, P (JBool b)) ->
  (forall n, P (JNumber n)) -> (forall s, P (JString s)) ->
  (forall l, Forall P l -> P (JArray l)) ->
  (forall ps, Forall (fun p => P p.2) ps -> P (JObject ps)) ->
  forall v, P v.
Proof.
  intros HU HN HB HNum HS HA HO. fix IH 1.
  intros [| |b|n|s|l|ps];
    [exact HU|exact HN|apply HB|apply HNum|apply HS| |].
  - apply HA. induction l as [|x r IHr]; constructor; [apply IH|apply IHr].
  - apply HO. induction ps as [|[k x] r IHr]; constructor; [apply IH|apply IHr].
Qed.

Lemma num_eqb_eq (a b : JsNum) : num_eqb a b = true -> a = b.
Proof.
  destruct a as [|s|x|m k], b as [|t|y|n j]; cbn; try discriminate.
  - intros H. apply Bool.eqb_prop in H. by subst.
  - intros H. apply Z.eqb_eq in H. by subst.
  - intros H. apply andb_prop in H as [H1 H2].
    apply Z.eqb_eq in H1. apply Pos.eqb_eq in H2. by subst.
Qed.

Lemma num_eqb_refl (a : JsNum) : a <> NaN -> num_eqb a a = true.
Proof.
  destruct a as [|s|x|m k]; cbn; intros H; try done.
  - by destruct s.
  - apply Z.eqb_refl.
  - by rewrite Z.eqb_refl, Pos.eqb_refl.
Qed.

Lemma strict_eq_eq (a b : JsVal) : strict_eq a b = true -> a = b.
Proof.
  destruct a as [| |x|x|x|x|x], b as [| |y|y|y|y|y]; cbn; try discriminate; auto.
  - intros H. apply Bool.eqb_prop in H. by subst.
  - intros H. apply num_eqb_eq in H. by subst.
  - intros H. apply String.eqb_eq in H. by subst.
Qed.

Lemma strict_eq_refl (a : JsVal) :
  primitive a = true -> a <> JNumber NaN -> strict_eq a a = true.
Proof.
  destruct a as [| |x|x|x|x|x]; cbn; intros Hp H; try done.
  - by destruct x.
  - apply num_eqb_refl. congruence.
  - apply String.eqb_refl.
Qed.

Lemma strict_eq_ne (a b : JsVal) : a <> b -> strict_eq a b = false.
Proof.
  intros H. destruct (strict_eq a b) eqn:E; [|done].
  by apply strict_eq_eq in E.
Qed.

Lemma strict_eq_primitive (a b : JsVal) :
  strict_eq a b = true -> primitive a = true /\ primitive b = true.
Proof. by destruct a, b. Qed.

Lemma truthy_not_NaN (v : JsVal) : ToBoolean v = true -> v <> JNumber NaN.
Proof. by intros H ->. Qed.

Lemma truthy_not_null (v : JsVal) : ToBoolean v = true -> v <> JNull.
Proof. by intros H ->. Qed.

Lemma storable_primitive (v : JsVal) : storable v = true -> primitive v = true.
Proof. by destruct v as [| | |[| | |]| | |]. Qed.

Lemma storable_not_NaN (v : JsVal) : storable v = true -> v <> JNumber NaN.
Proof. by intros H ->. Qed.

Lemma storable_not_null (v : JsVal) : storable v = true -> v <> JNull.
Proof. by intros H ->. Qed.

Lemma storable_not_infinite (v : JsVal) : storable v = true -> infinite v = false.
Proof. by destruct v as [| | |[| | |]| | |]. Qed.

Lemma storable_refl (v : JsVal) : storable v = true -> strict_eq v v = true.
Proof.
  intros H. apply strict_eq_refl; [by apply storable_primitive|].
  by apply storable_not_NaN.
Qed.

(** A truthy value that is primitive and not an infinity is stored as it
    is. *)
Lemma truthy_storable (v : JsVal) :
  ToBoolean v = true -> primitive v = true -> infinite v = false ->
  storable v = true.
Proof. by destruct v as [| | |[| | |]| | |]. Qed.

Lemma json_value_id (v : JsVal) : storable v = true -> json_value v = v.
Proof. by destruct v as [| | |[| | |]| | |]. Qed.

Lemma json_value_storable (v : JsVal) :
  storable (json_value v) = storable v.
Proof. by destruct v as [| | |[| | |]| | |]. Qed.

Lemma json_value_idemp (v : JsVal) : json_value (json_value v) = json_value v.
Proof.
  induction v as [| |b|n|s|l IH|ps IH] using JsVal_induction; try done.
  - by destruct n.
  - cbn. f_equal. induction IH as [|x r Hx _ IHr]; [done|].
    cbn. rewrite IHr. f_equal.
    destruct (json_value x) eqn:E; cbv beta match; rewrite ?Hx; done.
  - cbn. f_equal. induction IH as [|[k x] r Hx _ IHr]; [done|].
    cbn in Hx. cbn.
    destruct (json_value x) eqn:E; cbv beta match; rewrite ?Hx;
      cbv beta match; by rewrite ?IHr.
Qed.

(** *** Numbers *)

Lemma num_ltb_Num (x y : Z) : num_ltb (Num x) (Num y) = Some (x <? y).
Proof. cbn. by rewrite !Z.mul_1_r. Qed.

Lemma num_add_Num (x y : Z) : num_add (Num x) (Num y) = round_dyadic (x + y) 0.
Proof. cbn. by rewrite !Z.mul_1_r. Qed.

Lemma num_sub_Num (x y : Z) : num_sub (Num x) (Num y) = round_dyadic (x - y) 0.
Proof. unfold num_sub. cbn [num_opp]. by rewrite num_add_Num. Qed.

(** The integers up to [2^53] in size are doubles. *)
Lemma round_dyadic_exact (z : Z) :
  - 2 ^ 53 <= z <= 2 ^ 53 -> round_dyadic z 0 = Num z.
Proof.
  intros Hz. unfold round_dyadic.
  destruct (z =? 0) eqn:E0; [apply Z.eqb_eq in E0; by subst|].
  apply Z.eqb_neq in E0.
  destruct (decide (z = 2 ^ 53)) as [->|Hp]; [reflexivity|].
  destruct (decide (z = - 2 ^ 53)) as [->|Hn]; [reflexivity|].
  assert (Z.log2 (Z.abs z) < 53) as Hl.
  { assert (0 < Z.abs z) as Hpos by lia.
    apply (proj1 (Z.log2_lt_pow2 (Z.abs z) 53 Hpos)).
    change (2 ^ 53) with 9007199254740992 in *. lia. }
  pose proof (Z.log2_nonneg (Z.abs z)) as Hl0.
  cbv zeta. rewrite Z.max_l by lia.
  replace (0 + (Z.log2 (Z.abs z) - 0 - 52) <=? 0) with true by lia.
  reflexivity.
Qed.

Lemma num_add_exact (x y : Z) :
  - 2 ^ 53 <= x + y <= 2 ^ 53 -> num_add (Num x) (Num y) = Num (x + y).
Proof. intros H. by rewrite num_add_Num, round_dyadic_exact. Qed.

Lemma num_sub_exact (x y : Z) :
  - 2 ^ 53 <= x - y <= 2 ^ 53 -> num_sub (Num x) (Num y) = Num (x - y).
Proof. intros H. by rewrite num_sub_Num, round_dyadic_exact. Qed.

Lemma same_value_zero_eq (a b : JsVal) : same_value_zero a b = true -> a = b.
Proof.
  destruct a as [| |x|[|s|x|m k]|x|x|x], b as [| |y|[|t|y|n j]|y|y|y];
    try (intros H; exact (strict_eq_eq _ _ H)); done.
Qed.

(** Every section the routes accept is one of the three names, so a string,
    and no other request value passes. *)
Lemma includes_sections (section : JsVal) :
  includes sections section = true ->
  section = JString "A" \/ section = JString "B" \/ section = JString "C".
Proof.
  unfold includes, sections. cbn [existsb]. rewrite !orb_true_iff.
  intros [H|[H|[H|H]]]; try discriminate H;
    apply same_value_zero_eq in H; subst; auto.
Qed.

Lemma includes_string (section : JsVal) :
  includes sections section = true -> exists s, section = JString s.
Proof. intros H. apply includes_sections in H as [->|[->| ->]]; eauto. Qed.

Lemma includes_truthy (section : JsVal) :
  includes sections section = true -> ToBoolean section = true.
Proof. intros H. by apply includes_sections in H as [->|[->| ->]]. Qed.

(** *** Conversions of primitive values *)

Lemma ToPrimitive_primitive (v : JsVal) :
  primitive v = true -> ToPrimitive v = Return v.
Proof. by destruct v. Qed.

(** A primitive value has a text. *)
Lemma ToString_primitive (v : JsVal) :
  primitive v = true -> exists s, ToString v = Return s.
Proof. destruct v as [| |[|]| | | |]; cbn; intros H; try done; eauto. Qed.

Lemma js_le_Num (x y : Z) :
  js_le (JNumber (Num x)) (JNumber (Num y)) = Return (negb (y <? x)).
Proof. unfold js_le, IsLessThan. cbn. by rewrite !Z.mul_1_r. Qed.

Lemma js_lt_Num (x y : Z) :
  js_lt (JNumber (Num x)) (JNumber (Num y)) = Return (x <? y).
Proof. unfold js_lt, IsLessThan. cbn. by rewrite !Z.mul_1_r. Qed.

Lemma js_add_Num (x y : JsNum) :
  js_add (JNumber x) (JNumber y) = Return (JNumber (num_add x y)).
Proof. reflexivity. Qed.

Lemma js_sub_Num (x y : JsNum) :
  js_sub (JNumber x) (JNumber y) = Return (JNumber (num_sub x y)).
Proof. reflexivity. Qed.

Lemma js_add_exact (x y : Z) :
  - 2 ^ 53 <= x + y <= 2 ^ 53 ->
  js_add (JNumber (Num x)) (JNumber (Num y)) = Return (JNumber (Num (x + y))).
Proof. intros H. by rewrite js_add_Num, num_add_exact. Qed.

Lemma js_sub_exact (x y : Z) :
  - 2 ^ 53 <= x - y <= 2 ^ 53 ->
  js_sub (JNumber (Num x)) (JNumber (Num y)) = Return (JNumber (Num (x - y))).
Proof. intros H. by rewrite js_sub_Num, num_sub_exact. Qed.

(** *** findIndex *)

Lemma findIndex_None {A : Type} (p : A -> bool) (l : list A) :
  findIndex p l = None <-> (forall x, x ∈ l -> p x = false).
Proof.
  induction l as [|a l IH]; simpl.
  - split; [|done]. intros _ x Hx. by apply elem_of_nil in Hx.
  - destruct (p a) eqn:E.
    + split; [done|]. intros H. specialize (H a). rewrite E in H.
      discriminate H. by left.
    + destruct (findIndex p l) as [i|]; simpl.
      * split; [done|]. intros H. exfalso.
        assert (Some i = None) as Hn; [|done].
        apply IH. intros x Hx. apply H. by right.
      * split; [|done]. intros _ x Hx. apply elem_of_cons in Hx as [->|Hx]; [done|].
        by apply IH.
Qed.

Lemma findIndex_Some {A : Type} (p : A -> bool) (l : list A) (i : nat) :
  findIndex p l = Some i ->
  exists x, l !! i = Some x /\ p x = true /\ List.find p l = Some x.
Proof.
  revert i. induction l as [|a l IH]; simpl; [done|]. intros i.
  destruct (p a) eqn:E.
  - intros [= <-]. eauto.
  - destruct (findIndex p l) as [j|]; simpl; [|done].
    intros [= <-]. destruct (IH j eq_refl) as (x & ? & ? & ?). eauto.
Qed.

Lemma find_findIndex_None {A : Type} (p : A -> bool) (l : list A) :
  findIndex p l = None <-> List.find p l = None.
Proof.
  induction l as [|a l IH]; simpl; [done|].
  destruct (p a); [done|].
  destruct (findIndex p l); simpl; [|tauto].
  split; [done|]. intros H. by apply IH in H.
Qed.

(** *** The frame of the helpers *)

Lemma stock_files_logTransaction (w : World) (t : TxData) :
  stock_files (logTransaction w t) = stock_files w.
Proof.
  unfold logTransaction. destruct (log_file w) as [[l|]|]; reflexivity.
Qed.

Lemma uploads_logTransaction (w : World) (t : TxData) :
  uploads (logTransaction w t) = uploads w.
Proof.
  unfold logTransaction. destruct (log_file w) as [[l|]|]; reflexivity.
Qed.

Lemma getStockData_ext (w w' : World) (section : JsVal) :
  stock_files w' = stock_files w -> getStockData w' section = getStockData w section.
Proof. unfold getStockData. by intros ->. Qed.

Lemma stock_ext (w w' : World) (section : JsVal) :
  stock_files w' = stock_files w -> stock w' section = stock w section.
Proof. intros H. unfold stock. by rewrite (getStockData_ext w w'). Qed.

Lemma stock_logTransaction (w : World) (t : TxData) (section : JsVal) :
  stock (logTransaction w t) section = stock w section.
Proof. apply stock_ext, stock_files_logTransaction. Qed.

(** With a section that has a text, a string above all, the two helpers
    return. *)
Lemma getStockData_text (w : World) (section : JsVal) (filePath : string) :
  ToString section = Return filePath ->
  getStockData w section =
    Return match stock_files w !! filePath with
           | Some (Parsed l) => l
           | Some Unparsable => []
           | None => []
           end.
Proof.
  intros H. unfold getStockData. rewrite H. cbn.
  by destruct (stock_files w !! filePath) as [[l|]|].
Qed.

Lemma saveStockData_text (w : World) (section : JsVal) (filePath : string)
    (data : list StockItem) :
  ToString section = Return filePath ->
  saveStockData w section data =
    Return (set_stock_files
              (<[filePath := Parsed (json_item <$> data)]> (stock_files w)) w).
Proof. intros H. unfold saveStockData. by rewrite H. Qed.

Lemma getStockData_stock (w : World) (section : JsVal) :
  includes sections section = true ->
  getStockData w section = Return (stock w section).
Proof.
  intros H. apply includes_string in H as [s ->]. unfold stock.
  by rewrite (getStockData_text w (JString s) s).
Qed.

Lemma saveStockData_save (w : World) (section : JsVal) (data : list StockItem) :
  includes sections section = true ->
  saveStockData w section data = Return (save w section data).
Proof. intros H. by apply includes_string in H as [s ->]. Qed.

Lemma stock_string (w : World) (s : string) :
  stock w (JString s) =
    match stock_files w !! s with
    | Some (Parsed l) => l
    | Some Unparsable => []
    | None => []
    end.
Proof. unfold stock. by rewrite (getStockData_text w (JString s) s). Qed.

Lemma save_string (w : World) (s : string) (data : list StockItem) :
  save w (JString s) data =
    set_stock_files (<[s := Parsed (json_item <$> data)]> (stock_files w)) w.
Proof. reflexivity. Qed.

Lemma stock_save (w : World) (section : JsVal) (data : list StockItem) :
  includes sections section = true ->
  stock (save w section data) section = json_item <$> data.
Proof.
  intros H. apply includes_string in H as [s ->].
  rewrite stock_string, save_string. cbn. by rewrite lookup_insert_eq.
Qed.

Lemma log_file_save (w : World) (section : JsVal) (data : list StockItem) :
  log_file (save w section data) = log_file w.
Proof.
  unfold save, saveStockData.
  destruct (ToString section) as [s|e]; cbn; [done|].
  by destruct (ToString section).
Qed.

Lemma uploads_save (w : World) (section : JsVal) (data : list StockItem) :
  uploads (save w section data) = uploads w.
Proof.
  unfold save, saveStockData.
  destruct (ToString section) as [s|e]; cbn; [done|].
  by destruct (ToString section).
Qed.

Lemma ticks_save (w : World) (section : JsVal) (data : list StockItem) :
  ticks (save w section data) = ticks w.
Proof.
  unfold save, saveStockData.
  destruct (ToString section) as [s|e]; cbn; [done|].
  by destruct (ToString section).
Qed.

(** *** C9: reading a collection *)

(** C9. For a section that is a primitive value, a string above all,
    [getStockData] returns the whole list of the section's document when
    the document exists and parses, and the empty list when the document is
    missing or does not parse; it does not throw. *)
Theorem getStockData_total (w : World) (section : JsVal) :
  primitive section = true ->
  exists filePath,
    ToString section = Return filePath /\
    getStockData w section =
      Return match stock_files w !! filePath with
             | Some (Parsed l) => l
             | Some Unparsable => []
             | None => []
             end.
Proof.
  intros H. destruct (ToString_primitive section H) as [s Hs].
  exists s. split; [done|]. by apply getStockData_text.
Qed.

(** *** C10: the first guard of the two mutation routes *)

(** C10. A [/stock/in] or [/stock/out] request with a falsy section, size or
    quantity is answered 400 "Invalid input data", whatever the world, and
    the world is left as it is. *)
Theorem falsy_field_rejected (w : World) (body : Body) :
  ToBoolean (b_section body) && ToBoolean (b_size body)
    && ToBoolean (b_quantity body) = false ->
  post_stock_in w body = (w, Reply 400 (PError "Invalid input data")) /\
  post_stock_out w body = (w, Reply 400 (PError "Invalid input data")).
Proof.
  intros H. unfold post_stock_in, post_stock_out, invalid_input.
  destruct (ToBoolean (b_section body)), (ToBoolean (b_size body)),
    (ToBoolean (b_quantity body)); try discriminate H; done.
Qed.

(** *** Requests that pass the first guard *)

Lemma valid_input (section size : JsVal) (q : Z) :
  includes sections section = true ->
  ToBoolean size = true ->
  0 < q ->
  invalid_input section size (JNumber (Num q)) = Return false.
Proof.
  intros Hs Hz Hq. unfold invalid_input.
  rewrite (includes_truthy _ Hs), Hz, js_le_Num. cbn.
  replace (q =? 0) with false by lia. by replace (0 <? q) with true by lia.
Qed.

(** The two routes behind their guards. *)
Lemma post_stock_in_valid (w : World) (section size quantity : JsVal) :
  invalid_input section size quantity = Return false ->
  includes sections section = true ->
  post_stock_in w (mkBody section size quantity) =
    uncaught w (
      stockData ← match findIndex (has_size size) (stock w section) with
                  | Some itemIndex =>
                      update (add_quantity quantity) itemIndex (stock w section)
                  | None => mret (stock w section ++ [mkItem size quantity])
                  end;
      mret (logTransaction (save w section stockData) (mkTx section size quantity IN),
            Reply 200 (PSuccess stockData))).
Proof.
  intros Hv Hs. unfold post_stock_in. cbn [b_section b_size b_quantity].
  rewrite Hv, Hs, getStockData_stock by done. cbn [mbind Try_bind negb].
  destruct (match findIndex _ _ with Some _ => _ | None => _ end) as [l|e];
    [|done].
  cbn [mbind Try_bind]. by rewrite saveStockData_save.
Qed.

Lemma post_stock_out_valid (w : World) (section size quantity : JsVal) :
  invalid_input section size quantity = Return false ->
  includes sections section = true ->
  post_stock_out w (mkBody section size quantity) =
    uncaught w (
      match findIndex (has_size size) (stock w section) with
      | None => mret (bad_request w "Item not found in stock")
      | Some itemIndex =>
          short ← js_lt (default JUndefined
                           (item_quantity <$> stock w section !! itemIndex))
                        quantity;
          if (short : bool) then mret (bad_request w "Not enough stock available")
          else
            stockData ← update (sub_quantity quantity) itemIndex (stock w section);
            mret (logTransaction (save w section stockData)
                                 (mkTx section size quantity OUT),
                  Reply 200 (PSuccess stockData))
      end).
Proof.
  intros Hv Hs. unfold post_stock_out. cbn [b_section b_size b_quantity].
  rewrite Hv, Hs, getStockData_stock by done. cbn [mbind Try_bind negb].
  destruct (findIndex _ _) as [i|]; [|done].
  destruct (js_lt _ _) as [[|]|e]; try done. cbn [mbind Try_bind].
  destruct (update _ _ _) as [l|e]; [|done].
  cbn [mbind Try_bind]. by rewrite saveStockData_save.
Qed.

Lemma has_size_eq (size : JsVal) (item : StockItem) :
  has_size size item = true -> item_size item = size.
Proof. apply strict_eq_eq. Qed.

Lemma has_size_ne (size : JsVal) (item : StockItem) :
  item_size item <> size -> has_size size item = false.
Proof. apply strict_eq_ne. Qed.

(** A stored item answers [===] as the item in memory did, except to
    [null] and to the infinities. *)
Lemma has_size_json (size : JsVal) (item : StockItem) :
  size <> JNull -> infinite size = false ->
  has_size size (json_item item) = has_size size item.
Proof.
  intros H Hf. unfold has_size.
  destruct item as [[| |?|[|?|?|? ?]|?|?|?] q]; try reflexivity; cbn;
    destruct size as [| |?|[|?|?|? ?]|?|?|?]; done.
Qed.

Lemma unique_sizes_eq (l : list StockItem) (x y : StockItem) :
  unique_sizes l -> x ∈ l -> y ∈ l ->
  item_size x = item_size y -> storable (item_size x) = true -> x = y.
Proof.
  unfold unique_sizes. induction l as [|a l IH].
  - intros _ Hx. by apply elem_of_nil in Hx.
  - rewrite fmap_cons. intros Hnd Hx Hy Hf Hn.
    assert (forall z, z ∈ l -> item_size z = item_size a ->
            storable (item_size a) = true ->
            ~ NoDup (filter (fun v => storable v = true)
                            (item_size a :: (item_size <$> l))))
      as Hdup.
    { intros z Hz Hza Hna Hd. rewrite filter_cons_True in Hd by done.
      apply NoDup_cons in Hd as [Hd _]. apply Hd.
      apply list_elem_of_filter. split; [done|].
      rewrite <- Hza. by apply list_elem_of_fmap_2. }
    apply elem_of_cons in Hx as [->|Hx], Hy as [->|Hy]; auto.
    + exfalso. by apply (Hdup y Hy).
    + exfalso. apply (Hdup x Hx); [done| |done]. by rewrite <- Hf.
    + apply IH; try done. rewrite filter_cons in Hnd.
      case_decide; [by apply NoDup_cons in Hnd as [_ ?]|done].
Qed.

(** *** C8: taking out a size that is not there *)

(** C8 (amended). For a known section, a truthy size (so not 0) that no
    item of the section's collection has, and a positive quantity,
    [/stock/out] answers 400 "Item not found in stock" and leaves the world
    as it is. *)
Theorem stock_out_item_not_found (w : World) (section size : JsVal) (q : Z) :
  includes sections section = true ->
  ToBoolean size = true ->
  0 < q ->
  (forall item, item ∈ stock w section -> item_size item <> size) ->
  post_stock_out w (mkBody section size (JNumber (Num q)))
    = (w, Reply 400 (PError "Item not found in stock")).
Proof.
  intros Hs Hz Hq Habs.
  rewrite post_stock_out_valid by (done || by apply valid_input).
  assert (findIndex (has_size size) (stock w section) = None) as ->; [|done].
  apply findIndex_None. intros x Hx. apply has_size_ne. by apply Habs.
Qed.

(** *** C4: taking out more than there is *)

(** C4 (amended). For a known section whose collection has one item per
    size, an item in it whose size is truthy (so not 0) and a string, a
    boolean or a finite number, and whose quantity is [c], and a positive
    quantity [q > c], [/stock/out] answers 400 "Not enough stock available"
    and leaves the world as it is: no quantity changes and nothing is
    logged. *)
Theorem stock_out_insufficient (w : World) (section size : JsVal) (c q : Z) :
  includes sections section = true ->
  ToBoolean size = true ->
  storable size = true ->
  0 < q ->
  c < q ->
  unique_sizes (stock w section) ->
  mkItem size (JNumber (Num c)) ∈ stock w section ->
  post_stock_out w (mkBody section size (JNumber (Num q)))
    = (w, Reply 400 (PError "Not enough stock available")).
Proof.
  intros Hs Hz Hst Hq Hc Hnd Hin.
  rewrite post_stock_out_valid by (done || by apply valid_input).
  destruct (findIndex (has_size size) (stock w section)) as [i|] eqn:E.
  - apply findIndex_Some in E as (x & Hi & Hp & _).
    assert (x = mkItem size (JNumber (Num c))) as ->.
    { eapply unique_sizes_eq; [exact Hnd| |exact Hin| |].
      - by eapply list_elem_of_lookup_2.
      - by apply has_size_eq.
      - apply has_size_eq in Hp. by rewrite Hp. }
    rewrite Hi. cbn [fmap option_fmap option_map default item_quantity id].
    rewrite js_lt_Num. by replace (c <? q) with true by lia.
  - exfalso. rewrite findIndex_None in E. specialize (E _ Hin).
    unfold has_size in E. cbn in E. by rewrite storable_refl in E.
Qed.

(** *** The item [findIndex] selects, after an update *)

Lemma find_fmap_json (size : JsVal) (l : list StockItem) :
  size <> JNull -> infinite size = false ->
  List.find (has_size size) (json_item <$> l)
    = json_item <$> List.find (has_size size) l.
Proof.
  intros H Hf. induction l as [|a l IH]; [done|].
  cbn. rewrite has_size_json by done. by destruct (has_size size a).
Qed.

Lemma find_alter_found {A : Type} (p : A -> bool) (f : A -> A) (l : list A) (i : nat) :
  (forall x, p (f x) = p x) ->
  findIndex p l = Some i ->
  List.find p (alter f i l) = f <$> List.find p l.
Proof.
  intros Hf. revert i. induction l as [|a l IH]; [done|]. intros i. cbn.
  destruct (p a) eqn:E.
  - intros [= <-]. cbn. by rewrite Hf, E.
  - destruct (findIndex p l) as [j|]; [|done]. intros [= <-]. cbn.
    rewrite E. by apply IH.
Qed.

Lemma find_push {A : Type} (p : A -> bool) (l : list A) (x : A) :
  findIndex p l = None -> p x = true -> List.find p (l ++ [x]) = Some x.
Proof.
  intros Hn Hx. induction l as [|a l IH]; cbn.
  - by rewrite Hx.
  - cbn in Hn. destruct (p a); [done|].
    apply IH. by destruct (findIndex p l).
Qed.

Lemma quantity_of_json (size : JsVal) (l : list StockItem) :
  size <> JNull -> infinite size = false ->
  quantity_of size (json_item <$> l) = json_value <$> quantity_of size l.
Proof.
  intros H Hf. unfold quantity_of. rewrite find_fmap_json by done.
  by destruct (List.find (has_size size) l).
Qed.

(** [update] on the item [findIndex] selects: the list with that item
    replaced, or the exception of the replacement. *)
Lemma update_found {A : Type} (f : A -> Try A) (l : list A) (i : nat) (x : A) :
  l !! i = Some x ->
  update f i l = match f x with
                 | Return y => Return (alter (fun _ => y) i l)
                 | Throw e => Throw e
                 end.
Proof.
  intros H. unfold update. rewrite H. destruct (f x) as [y|e]; [|done].
  cbn. by rewrite list_insert_alter.
Qed.

Lemma add_quantity_set (quantity : JsVal) (x : StockItem) :
  add_quantity quantity x =
    match js_add (item_quantity x) quantity with
    | Return q => Return (set_quantity q x)
    | Throw e => Throw e
    end.
Proof. unfold add_quantity. by destruct (js_add _ _). Qed.

Lemma sub_quantity_set (quantity : JsVal) (x : StockItem) :
  sub_quantity quantity x =
    match js_sub (item_quantity x) quantity with
    | Return q => Return (set_quantity q x)
    | Throw e => Throw e
    end.
Proof. unfold sub_quantity. by destruct (js_sub _ _). Qed.

Lemma alter_const_set (q : JsVal) (l : list StockItem) (i : nat) (x : StockItem) :
  l !! i = Some x ->
  alter (fun _ => set_quantity q x) i l = alter (set_quantity q) i l.
Proof.
  revert i. induction l as [|a l IH]; intros [|i]; cbn; try done.
  - by intros [= ->].
  - intros H. f_equal. by apply IH.
Qed.

(** [stockData[i].quantity += quantity] and [-= quantity] on the list. *)
Lemma update_add (quantity : JsVal) (l : list StockItem) (i : nat) (x : StockItem) :
  l !! i = Some x ->
  update (add_quantity quantity) i l =
    match js_add (item_quantity x) quantity with
    | Return q => Return (alter (set_quantity q) i l)
    | Throw e => Throw e
    end.
Proof.
  intros H. rewrite (update_found _ _ _ x H), add_quantity_set.
  destruct (js_add _ _); [|done]. by rewrite alter_const_set.
Qed.

Lemma update_sub (quantity : JsVal) (l : list StockItem) (i : nat) (x : StockItem) :
  l !! i = Some x ->
  update (sub_quantity quantity) i l =
    match js_sub (item_quantity x) quantity with
    | Return q => Return (alter (set_quantity q) i l)
    | Throw e => Throw e
    end.
Proof.
  intros H. rewrite (update_found _ _ _ x H), sub_quantity_set.
  destruct (js_sub _ _); [|done]. by rewrite alter_const_set.
Qed.

Lemma quantity_of_alter (size q : JsVal) (l : list StockItem) (i : nat) :
  findIndex (has_size size) l = Some i ->
  quantity_of size (alter (set_quantity q) i l) = Some q.
Proof.
  intros E. unfold quantity_of. rewrite (find_alter_found _ _ _ i) by done.
  by apply findIndex_Some in E as (x & _ & _ & ->).
Qed.

Lemma quantity_of_found (size : JsVal) (l : list StockItem) (i : nat) (x : StockItem) :
  findIndex (has_size size) l = Some i -> l !! i = Some x ->
  quantity_of size l = Some (item_quantity x).
Proof.
  intros E Hi. unfold quantity_of.
  apply findIndex_Some in E as (y & Hy & _ & ->). cbn. congruence.
Qed.

(** After a [/stock/in] that passes the guards the size has the request's
    quantity when it was new, and the former quantity [+=] the request's
    otherwise, as the document stores them; when that sum throws, the
    quantity stays. *)
Lemma stock_in_quantity_gen (w : World) (section size quantity : JsVal) :
  invalid_input section size quantity = Return false ->
  includes sections section = true ->
  storable size = true ->
  quantity_of size
    (stock (post_stock_in w (mkBody section size quantity)).1 section)
  = Some match quantity_of size (stock w section) with
         | Some c =>
             match js_add c quantity with
             | Return v => json_value v
             | Throw _ => c
             end
         | None => json_value quantity
         end.
Proof.
  intros Hv Hs Hst.
  rewrite post_stock_in_valid by done.
  destruct (findIndex (has_size size) (stock w section)) as [i|] eqn:E.
  - destruct (findIndex_Some _ _ _ E) as (x & Hi & _ & _).
    rewrite (update_add _ _ _ x Hi), (quantity_of_found _ _ _ _ E Hi).
    destruct (js_add _ _) as [v|e]; cbn.
    + rewrite stock_logTransaction, stock_save by done.
      rewrite quantity_of_json
        by (by apply storable_not_null || by apply storable_not_infinite).
      by rewrite quantity_of_alter.
    + by rewrite (quantity_of_found _ _ _ _ E Hi).
  - cbn. rewrite stock_logTransaction, stock_save by done.
    rewrite quantity_of_json
      by (by apply storable_not_null || by apply storable_not_infinite).
    unfold quantity_of. rewrite find_push; [|done|].
    + apply find_findIndex_None in E. by rewrite E.
    + by apply storable_refl.
Qed.

Lemma stock_in_quantity (w : World) (section size : JsVal) (q : Z) :
  includes sections section = true ->
  ToBoolean size = true ->
  storable size = true ->
  0 < q ->
  quantity_of size
    (stock (post_stock_in w (mkBody section size (JNumber (Num q)))).1 section)
  = Some match quantity_of size (stock w section) with
         | Some c =>
             match js_add c (JNumber (Num q)) with
             | Return v => json_value v
             | Throw _ => c
             end
         | None => JNumber (Num q)
         end.
Proof.
  intros Hs Hz Hst Hq. rewrite stock_in_quantity_gen; [done| |done..].
  by apply valid_input.
Qed.

(** *** C5: two deliveries of one size *)

(** C5 (amended). For a known section, a size that is truthy (so not 0) and
    a string, a boolean or a finite number, and positive integer quantities
    [q1] and [q2], two [/stock/in] requests in a row leave the size with
    quantity [q1 + q2] when the collection had no item of that size, and
    with [c + q1 + q2] when it had one of integer quantity [c]; this as long
    as the sums stay within [2^53] in size, where adding doubles is
    exact. *)
Theorem stock_in_twice (w : World) (section size : JsVal) (q1 q2 : Z) :
  includes sections section = true ->
  ToBoolean size = true ->
  storable size = true ->
  0 < q1 ->
  0 < q2 ->
  let w1 := (post_stock_in w (mkBody section size (JNumber (Num q1)))).1 in
  let w2 := (post_stock_in w1 (mkBody section size (JNumber (Num q2)))).1 in
  (quantity_of size (stock w section) = None ->
   q1 + q2 <= 2 ^ 53 ->
   quantity_of size (stock w2 section) = Some (JNumber (Num (q1 + q2)))) /\
  (forall c : Z,
   quantity_of size (stock w section) = Some (JNumber (Num c)) ->
   - 2 ^ 53 <= c ->
   c + q1 + q2 <= 2 ^ 53 ->
   quantity_of size (stock w2 section) = Some (JNumber (Num (c + q1 + q2)))).
Proof.
  intros Hs Hz Hst H1 H2 w1 w2. subst w1 w2.
  assert (2 ^ 53 = 9007199254740992) as E53 by reflexivity.
  split; [intros H0 Hb|intros c H0 Hc Hb];
    rewrite !stock_in_quantity by done; rewrite H0.
  - rewrite js_add_exact by lia. reflexivity.
  - rewrite js_add_exact by lia. cbn [json_value].
    rewrite js_add_exact by lia. reflexivity.
Qed.

(** *** What an answer of the two mutation routes tells *)

(** [/stock/in] answers 200 only behind its two guards, with the list it
    stored: the collection with the quantity of the found item replaced by
    the sum, or with a new item at the end. *)
Lemma post_stock_in_success (w w' : World) (section size quantity : JsVal)
    (p : Payload) :
  post_stock_in w (mkBody section size quantity) = (w', Reply 200 p) ->
  includes sections section = true /\
  invalid_input section size quantity = Return false /\
  exists sd,
    p = PSuccess sd /\
    w' = logTransaction (save w section sd) (mkTx section size quantity IN) /\
    ((exists i x v,
        findIndex (has_size size) (stock w section) = Some i /\
        stock w section !! i = Some x /\
        js_add (item_quantity x) quantity = Return v /\
        sd = alter (set_quantity v) i (stock w section)) \/
     (findIndex (has_size size) (stock w section) = None /\
      sd = stock w section ++ [mkItem size quantity])).
Proof.
  intros H.
  destruct (invalid_input section size quantity) as [[|]|e] eqn:Ev;
    try (unfold post_stock_in in H; cbn [b_section b_size b_quantity] in H;
         rewrite Ev in H; discriminate H).
  destruct (includes sections section) eqn:Es;
    [|unfold post_stock_in in H; cbn [b_section b_size b_quantity] in H;
      rewrite Ev, Es in H; discriminate H].
  rewrite post_stock_in_valid in H by done. split_and!; [done..|].
  destruct (findIndex (has_size size) (stock w section)) as [i|] eqn:E.
  - destruct (findIndex_Some _ _ _ E) as (x & Hi & _ & _).
    rewrite (update_add _ _ _ x Hi) in H.
    destruct (js_add _ _) as [v|e] eqn:Ea; [|discriminate H].
    injection H as <- <-. eexists. split_and!; [done..|]. left. eauto 10.
  - injection H as <- <-. eexists. split_and!; [done..|]. by right.
Qed.

(** [/stock/out] answers 200 only behind its guards and its two refusals,
    with the list it stored: the collection with the quantity of the found
    item replaced by the difference. *)
Lemma post_stock_out_success (w w' : World) (section size quantity : JsVal)
    (p : Payload) :
  post_stock_out w (mkBody section size quantity) = (w', Reply 200 p) ->
  includes sections section = true /\
  invalid_input section size quantity = Return false /\
  exists sd i x v,
    p = PSuccess sd /\
    w' = logTransaction (save w section sd) (mkTx section size quantity OUT) /\
    findIndex (has_size size) (stock w section) = Some i /\
    stock w section !! i = Some x /\
    js_lt (item_quantity x) quantity = Return false /\
    js_sub (item_quantity x) quantity = Return v /\
    sd = alter (set_quantity v) i (stock w section).
Proof.
  intros H.
  destruct (invalid_input section size quantity) as [[|]|e] eqn:Ev;
    try (unfold post_stock_out in H; cbn [b_section b_size b_quantity] in H;
         rewrite Ev in H; discriminate H).
  destruct (includes sections section) eqn:Es;
    [|unfold post_stock_out in H; cbn [b_section b_size b_quantity] in H;
      rewrite Ev, Es in H; discriminate H].
  rewrite post_stock_out_valid in H by done. split_and!; [done..|].
  destruct (findIndex (has_size size) (stock w section)) as [i|] eqn:E;
    [|discriminate H].
  destruct (findIndex_Some _ _ _ E) as (x & Hi & _ & _).
  rewrite Hi in H. cbn [fmap option_fmap option_map default id] in H.
  destruct (js_lt _ _) as [[|]|e] eqn:El; try discriminate H.
  cbn [mbind Try_bind] in H. rewrite (update_sub _ _ _ x Hi) in H.
  destruct (js_sub _ _) as [v|e] eqn:Ea; [|discriminate H].
  injection H as <- <-. by exists (alter (set_quantity v) i (stock w section)), i, x, v.
Qed.

(** Any other answer of the two routes leaves the world as it is. *)
Lemma post_stock_in_failure (w w' : World) (body : Body) (r : Response) :
  post_stock_in w body = (w', r) ->
  (w' = w /\ exists status p, r = Reply status p /\ status <> 200%nat) \/
  (exists p, r = Reply 200 p).
Proof.
  destruct body as [section size quantity]. intros H.
  destruct (invalid_input section size quantity) as [[|]|e] eqn:Ev;
    try (unfold post_stock_in in H; cbn [b_section b_size b_quantity] in H;
         rewrite Ev in H; injection H as <- <-; left; split; [done|];
         eexists _, _; by split).
  destruct (includes sections section) eqn:Es;
    [|unfold post_stock_in in H; cbn [b_section b_size b_quantity] in H;
      rewrite Ev, Es in H; injection H as <- <-; left; split; [done|];
      eexists _, _; by split].
  rewrite post_stock_in_valid in H by done.
  destruct (match findIndex _ _ with Some _ => _ | None => _ end) as [l|e];
    injection H as <- <-; [right; eauto|].
  left. split; [done|]. eexists _, _; by split.
Qed.

Lemma post_stock_out_failure (w w' : World) (body : Body) (r : Response) :
  post_stock_out w body = (w', r) ->
  (w' = w /\ exists status p, r = Reply status p /\ status <> 200%nat) \/
  (exists p, r = Reply 200 p).
Proof.
  destruct body as [section size quantity]. intros H.
  destruct (invalid_input section size quantity) as [[|]|e] eqn:Ev;
    try (unfold post_stock_out in H; cbn [b_section b_size b_quantity] in H;
         rewrite Ev in H; injection H as <- <-; left; split; [done|];
         eexists _, _; by split).
  destruct (includes sections section) eqn:Es;
    [|unfold post_stock_out in H; cbn [b_section b_size b_quantity] in H;
      rewrite Ev, Es in H; injection H as <- <-; left; split; [done|];
      eexists _, _; by split].
  rewrite post_stock_out_valid in H by done.
  destruct (findIndex _ _) as [i|];
    [|injection H as <- <-; left; split; [done|]; eexists _, _; by split].
  destruct (js_lt _ _) as [[|]|e]; cbn [mbind Try_bind] in H;
    try (injection H as <- <-; left; split; [done|]; eexists _, _; by split).
  destruct (update _ _ _) as [l|e]; injection H as <- <-; [right; eauto|].
  left. split; [done|]. eexists _, _; by split.
Qed.

(** *** C2: one item per size *)

Lemma sizes_alter (f : StockItem -> StockItem) (i : nat) (l : list StockItem) :
  (forall x, item_size (f x) = item_size x) ->
  item_size <$> alter f i l = item_size <$> l.
Proof.
  intros Hf. revert i. induction l as [|a l IH]; intros [|i]; cbn; try done.
  - by rewrite Hf.
  - by rewrite IH.
Qed.

(** The sizes JSON stores as they are, before and after the way through
    the document. *)
Lemma sizes_json (l : list StockItem) :
  filter (fun v => storable v = true) (item_size <$> (json_item <$> l))
  = filter (fun v => storable v = true) (item_size <$> l).
Proof.
  induction l as [|a l IH]; [done|]. rewrite !fmap_cons, !filter_cons, IH.
  cbn [json_item item_size]. rewrite json_value_storable.
  destruct (storable (item_size a)) eqn:E; [|done].
  by rewrite json_value_id.
Qed.

Lemma unique_sizes_nil : unique_sizes [].
Proof. apply NoDup_nil_2. Qed.

Lemma unique_sizes_alter (f : StockItem -> StockItem) (i : nat) (l : list StockItem) :
  (forall x, item_size (f x) = item_size x) ->
  unique_sizes l -> unique_sizes (alter f i l).
Proof. intros Hf H. unfold unique_sizes. by rewrite sizes_alter. Qed.

Lemma unique_sizes_push (l : list StockItem) (size quantity : JsVal) :
  findIndex (has_size size) l = None ->
  unique_sizes l -> unique_sizes (l ++ [mkItem size quantity]).
Proof.
  intros Hf Hnd. unfold unique_sizes.
  rewrite fmap_app, filter_app. cbn [fmap list_fmap item_size].
  rewrite filter_cons, filter_nil.
  case_decide as Hst; [|by rewrite app_nil_r].
  apply NoDup_app. split_and!; [done| |apply NoDup_singleton].
  intros x Hx Hx'. apply list_elem_of_singleton in Hx' as ->.
  apply list_elem_of_filter in Hx as [_ Hx].
  apply list_elem_of_fmap in Hx as (y & -> & Hy).
  rewrite findIndex_None in Hf. specialize (Hf _ Hy).
  unfold has_size in Hf. by rewrite storable_refl in Hf.
Qed.

Lemma unique_sizes_json (l : list StockItem) :
  unique_sizes l -> unique_sizes (json_item <$> l).
Proof. unfold unique_sizes. by rewrite sizes_json. Qed.

Lemma unique_sizes_stock (w : World) (section : JsVal) :
  collections_ok w -> unique_sizes (stock w section).
Proof.
  intros H. unfold stock, getStockData.
  destruct (ToString section) as [s|e]; cbn.
  - destruct (stock_files w !! s) as [[l|]|] eqn:E; cbn;
      eauto using unique_sizes_nil.
  - destruct (ToString section); apply unique_sizes_nil.
Qed.

Lemma collections_ok_ext (w w' : World) :
  stock_files w' = stock_files w -> collections_ok w -> collections_ok w'.
Proof. unfold collections_ok. by intros ->. Qed.

Lemma collections_ok_save (w : World) (section : JsVal) (data : list StockItem) :
  unique_sizes data -> collections_ok w -> collections_ok (save w section data).
Proof.
  intros Hd Hw. unfold save, saveStockData.
  destruct (ToString section) as [s|e]; cbn.
  - intros k l. cbn. rewrite lookup_insert. case_decide.
    + intros [= <-]. by apply unique_sizes_json.
    + apply Hw.
  - by destruct (ToString section).
Qed.

Lemma collections_ok_log (w : World) (t : TxData) :
  collections_ok w -> collections_ok (logTransaction w t).
Proof. apply collections_ok_ext, stock_files_logTransaction. Qed.

Lemma set_quantity_size (q : JsVal) (x : StockItem) :
  item_size (set_quantity q x) = item_size x.
Proof. done. Qed.

Lemma upload_item_ok (section : JsVal) (acc : list StockItem * World) (item : ParsedRow) :
  unique_sizes acc.1 ->
  unique_sizes (upload_item section acc item).1 /\
  stock_files (upload_item section acc item).2 = stock_files acc.2.
Proof.
  destruct acc as [l w]. cbn [fst snd]. intros Hl. unfold upload_item.
  destruct (isNaN (row_size item) || isNaN (row_quantity item)); [done|].
  cbn [fst snd]. rewrite stock_files_logTransaction. split; [|done].
  destruct (findIndex _ l) eqn:E.
  - by apply unique_sizes_alter.
  - by apply unique_sizes_push.
Qed.

Lemma upload_fold_ok (section : JsVal) (results : list ParsedRow)
    (acc : list StockItem * World) :
  unique_sizes acc.1 ->
  unique_sizes (foldl (upload_item section) acc results).1 /\
  stock_files (foldl (upload_item section) acc results).2 = stock_files acc.2.
Proof.
  revert acc. induction results as [|item results IH]; intros acc Hacc; [done|].
  cbn [foldl]. destruct (upload_item_ok section acc item Hacc) as [H1 H2].
  destruct (IH _ H1) as [H3 H4]. split; [done|]. by rewrite H4.
Qed.

Lemma stock_files_upload_single (w : World) (req : UploadRequest) :
  stock_files (upload_single w req).1 = stock_files w.
Proof. unfold upload_single. by destruct (u_file req). Qed.

(** The ['end'] callback behind the guard of the section. *)
Lemma on_end_valid (w : World) (section : JsVal) (path : string) (results : list ParsedRow) :
  includes sections section = true ->
  on_end w section path results =
    let acc := foldl (upload_item section) (stock w section, w) results in
    (unlinkSync (save acc.2 section acc.1) path, Reply 200 (PSuccess acc.1)).
Proof.
  intros Hs. unfold on_end. rewrite getStockData_stock by done.
  cbn [mbind Try_bind catch]. destruct (foldl _ _ _) as [l w2].
  cbn [mret Try_ret catch]. by rewrite saveStockData_save.
Qed.

(** Every request keeps the invariant of the collections. *)
Lemma handle_ok (w : World) (r : Request) :
  collections_ok w -> collections_ok (handle w r).1.
Proof.
  intros Hw. destruct r as [section|body|body|req|]; cbn [handle].
  - unfold get_stock. destruct (negb _); [done|].
    by destruct (getStockData w section).
  - destruct (post_stock_in w body) as [w' r] eqn:H. cbn [fst].
    destruct (post_stock_in_failure _ _ _ _ H) as [[-> _]|[p ->]]; [done|].
    destruct body as [section size quantity].
    apply post_stock_in_success in H
      as (Hs & _ & sd & _ & -> & [(i & x & v & E & Hi & _ & ->)|[E ->]]);
      apply collections_ok_log, collections_ok_save; try done.
    + apply unique_sizes_alter; [done|]. by apply unique_sizes_stock.
    + apply unique_sizes_push; [done|]. by apply unique_sizes_stock.
  - destruct (post_stock_out w body) as [w' r] eqn:H. cbn [fst].
    destruct (post_stock_out_failure _ _ _ _ H) as [[-> _]|[p ->]]; [done|].
    destruct body as [section size quantity].
    apply post_stock_out_success in H
      as (Hs & _ & sd & i & x & v & _ & -> & E & Hi & _ & _ & ->).
    apply collections_ok_log, collections_ok_save; try done.
    apply unique_sizes_alter; [done|]. by apply unique_sizes_stock.
  - unfold post_upload.
    pose proof (stock_files_upload_single w req) as Hu.
    destruct (upload_single w req) as [w1 file]. cbn [fst] in Hu.
    assert (collections_ok w1) as Hw1 by by eapply collections_ok_ext.
    unfold upload_handler.
    destruct (ToBoolean (u_section req)); [|done]. cbn [negb orb].
    destruct (includes sections (u_section req)) eqn:Hs; [|done]. cbn [negb].
    destruct file as [path|]; [|done].
    destruct (uploads w1 !! path) as [rows|]; [|done].
    rewrite on_end_valid by done. cbn [fst].
    pose proof (upload_fold_ok (u_section req) (on_data <$> rows)
                  (stock w1 (u_section req), w1)
                  (unique_sizes_stock _ _ Hw1)) as [H1 H2].
    destruct (foldl _ _ _) as [l w2]. cbn [fst snd] in *.
    apply (collections_ok_ext (save w2 (u_section req) l)); [done|].
    apply collections_ok_save; [done|]. by eapply collections_ok_ext.
  - unfold get_logs. by destruct (log_file w) as [[?|]|].
Qed.

Lemma collections_ok_reaches (w0 w : World) :
  collections_ok w0 -> reaches w0 w -> collections_ok w.
Proof. intros H0 Hr. induction Hr; auto using handle_ok. Qed.

Lemma collections_ok_startup (w : World) :
  collections_ok w -> collections_ok (startup w).
Proof.
  intros Hw. unfold startup.
  apply (collections_ok_ext (foldl init_section w sections)).
  { unfold init_log. by destruct (log_file _). }
  revert w Hw. induction sections as [|s ss IH]; intros w Hw; [done|].
  cbn [foldl]. apply IH. unfold init_section.
  destruct (stock_files w !! s) eqn:E; [done|].
  intros k' l. cbn. rewrite lookup_insert. case_decide.
  - intros [= <-]. apply unique_sizes_nil.
  - apply Hw.
Qed.

Lemma collections_ok_fresh : collections_ok fresh.
Proof.
  apply collections_ok_startup. intros k l. unfold empty_disk. cbn.
  by rewrite lookup_empty.
Qed.

(** C2 (amended). From a world whose collections have one item per size
    among the sizes that are strings, booleans or finite numbers, as after
    the first start, no run of requests, [/stock/in] and [/upload] among
    them and whatever their fields, leads to a collection with two items of
    one such size. *)
Theorem one_item_per_size (w0 w : World) :
  collections_ok w0 ->
  reaches w0 w ->
  forall (section : string) (l : list StockItem),
    stock_files w !! section = Some (Parsed l) -> unique_sizes l.
Proof.
  intros H0 Hr section l Hl.
  exact (collections_ok_reaches w0 w H0 Hr section l Hl).
Qed.

(** *** C6: a row of an upload sets the quantity *)

Lemma findIndex_alter {A : Type} (p : A -> bool) (f : A -> A) (l : list A) (i : nat) :
  (forall x, p (f x) = p x) -> findIndex p (alter f i l) = findIndex p l.
Proof.
  intros Hf. revert i. induction l as [|a l IH]; intros [|i]; cbn; try done.
  - by rewrite Hf.
  - by rewrite IH.
Qed.

Lemma findIndex_push {A : Type} (p : A -> bool) (l : list A) (x : A) :
  findIndex p l = None -> p x = true -> findIndex p (l ++ [x]) = Some (length l).
Proof.
  intros Hn Hx. induction l as [|a l IH]; cbn.
  - by rewrite Hx.
  - cbn in Hn. destruct (p a); [done|].
    rewrite IH; [done|]. by destruct (findIndex p l).
Qed.

Lemma alter_alter_idemp {A : Type} (f : A -> A) (l : list A) (i : nat) :
  (forall x, f (f x) = f x) -> alter f i (alter f i l) = alter f i l.
Proof.
  intros Hf. revert i. induction l as [|a l IH]; intros [|i]; cbn; try done.
  - by rewrite Hf.
  - by rewrite IH.
Qed.

Lemma alter_last {A : Type} (f : A -> A) (l : list A) (x : A) :
  alter f (length l) (l ++ [x]) = l ++ [f x].
Proof. induction l as [|a l IH]; cbn; [done|]. by rewrite IH. Qed.

Lemma isNaN_not_NaN (n : JsNum) : isNaN n = false -> n <> NaN.
Proof. by intros H ->. Qed.

Lemma number_refl (n : JsNum) :
  isNaN n = false -> strict_eq (JNumber n) (JNumber n) = true.
Proof. intros H. apply num_eqb_refl. by apply isNaN_not_NaN. Qed.

Lemma upload_item_list (section : JsVal) (l : list StockItem) (w : World)
    (item : ParsedRow) :
  (upload_item section (l, w) item).1 = set_row item l.
Proof.
  unfold set_row, upload_item. by destruct (_ || _).
Qed.

Lemma set_row_idemp (item : ParsedRow) (l : list StockItem) :
  set_row item (set_row item l) = set_row item l.
Proof.
  unfold set_row.
  destruct (isNaN (row_size item) || isNaN (row_quantity item)) eqn:Ea; [done|].
  apply orb_false_elim in Ea as [Es Eq].
  destruct (findIndex (has_size (JNumber (row_size item))) l) as [i|] eqn:E.
  - rewrite findIndex_alter, E by done. by apply alter_alter_idemp.
  - rewrite findIndex_push; [|done|].
    + by rewrite alter_last.
    + by apply number_refl.
Qed.

Lemma set_row_quantity (item : ParsedRow) (l : list StockItem) :
  applied item = true ->
  quantity_of (JNumber (row_size item)) (set_row item l)
    = Some (JNumber (row_quantity item)).
Proof.
  unfold applied, set_row. intros Ha.
  apply negb_true_iff in Ha. rewrite Ha.
  apply orb_false_elim in Ha as [Es Eq].
  destruct (findIndex (has_size (JNumber (row_size item))) l) as [i|] eqn:E.
  - by apply quantity_of_alter.
  - unfold quantity_of. rewrite find_push; [done..|]. by apply number_refl.
Qed.

Lemma upload_fold_list (section : JsVal) (results : list ParsedRow)
    (l : list StockItem) (w : World) :
  (foldl (upload_item section) (l, w) results).1
    = foldl (fun l item => set_row item l) l results.
Proof.
  revert l w. induction results as [|item results IH]; intros l w; [done|].
  cbn [foldl]. pose proof (upload_item_list section l w item) as H.
  destruct (upload_item section (l, w) item) as [l1 w1]. cbn [fst] in H.
  subst l1. apply IH.
Qed.

(** The answer of the handler on a known section and a stored file. *)
Lemma upload_handler_success (w : World) (section : JsVal) (path : string)
    (rows : list CsvRow) :
  includes sections section = true ->
  uploads w !! path = Some rows ->
  upload_handler w section (Some path) =
    let acc := foldl (upload_item section) (stock w section, w)
                     (on_data <$> rows) in
    (unlinkSync (save acc.2 section acc.1) path, Reply 200 (PSuccess acc.1)).
Proof.
  intros Hs Hp. unfold upload_handler.
  rewrite Hs, (includes_truthy _ Hs), Hp. cbn [negb orb].
  by apply on_end_valid.
Qed.

Lemma upload_single_file (w : World) (req : UploadRequest) (file : UploadedFile) :
  u_file req = Some file ->
  upload_single w req =
    let path := filename (getTime (clock (ticks w))) file in
    (mkWorld (stock_files w) (log_file w)
             (<[path := content file]> (uploads w)) (S (ticks w)),
     Some path).
Proof. intros H. unfold upload_single. by rewrite H. Qed.

Lemma stock_unlinkSync (w : World) (path : string) (section : JsVal) :
  stock (unlinkSync w path) section = stock w section.
Proof. reflexivity. Qed.

(** The collection after an upload to a known section: the rows applied in
    order to the collection read at the start, as the document stores it. *)
Lemma post_upload_stock (w : World) (section : JsVal) (file : UploadedFile) :
  includes sections section = true ->
  stock (post_upload w (mkUpload section (Some file))).1 section
    = json_item <$> foldl (fun l item => set_row item l)
                          (stock w section)
                          (on_data <$> content file).
Proof.
  intros Hs. unfold post_upload.
  rewrite (upload_single_file _ _ file) by done.
  cbv beta iota zeta. cbn [u_section].
  erewrite upload_handler_success; [|done|cbn; apply lookup_insert_eq].
  cbv beta iota zeta. cbn [fst snd].
  rewrite stock_unlinkSync, stock_save by done. rewrite upload_fold_list.
  f_equal.
Qed.

(** No stored item has an infinite size. *)
Lemma quantity_of_infinite (negative : bool) (l : list StockItem) :
  quantity_of (JNumber (Infinity negative)) (json_item <$> l) = None.
Proof.
  unfold quantity_of. induction l as [|a l IH]; [done|]. cbn.
  destruct a as [[| |?|[|?|?|? ?]|?|?|?] q]; cbn; apply IH.
Qed.

(** An upload of one applied row to a known section leaves the row's
    quantity, as JSON stores it, recorded for the row's size, unless the
    size is infinite: then it is recorded for [null]. *)
Lemma upload_row_quantity (w : World) (section : JsVal) (name : string)
    (data : CsvRow) :
  includes sections section = true ->
  applied (on_data data) = true ->
  quantity_of (JNumber (row_size (on_data data)))
    (stock (post_upload w (mkUpload section (Some (mkFile name [data])))).1 section)
    = if infinite (JNumber (row_size (on_data data))) then None
      else Some (json_value (JNumber (row_quantity (on_data data)))).
Proof.
  intros Hs Ha.
  rewrite post_upload_stock by done.
  cbn [content fmap list_fmap foldl].
  destruct (infinite _) eqn:Ei.
  - destruct (row_size (on_data data)); try discriminate Ei.
    apply quantity_of_infinite.
  - rewrite quantity_of_json by done. by rewrite set_row_quantity.
Qed.

(** C6. Applying a parsed row a second time leaves the list as the first
    application left it; and uploading a one-row file twice to a known
    section leaves, like uploading it once, the quantity of the row's size
    as the first upload left it: the row's quantity as JSON stores it, when
    the row's size is finite. *)
Theorem bulk_set_idempotent (w : World) (section : JsVal) (name : string)
    (data : CsvRow) (l : list StockItem) :
  let item := on_data data in
  let size := JNumber (row_size item) in
  let req := mkUpload section (Some (mkFile name [data])) in
  let w1 := (post_upload w req).1 in
  let w2 := (post_upload w1 req).1 in
  (upload_item section (upload_item section (l, w) item) item).1
    = (upload_item section (l, w) item).1 /\
  (includes sections section = true ->
   applied item = true ->
   quantity_of size (stock w2 section) = quantity_of size (stock w1 section) /\
   (infinite size = false ->
    quantity_of size (stock w1 section)
      = Some (json_value (JNumber (row_quantity item))))).
Proof.
  intros item size req w1 w2. split.
  - destruct (upload_item section (l, w) item) as [l1 w'] eqn:E.
    rewrite upload_item_list. cbn [fst].
    assert (l1 = set_row item l) as ->.
    { by rewrite <- (upload_item_list section l w item), E. }
    apply set_row_idemp.
  - intros Hs Ha. subst w1 w2 req item size.
    rewrite !upload_row_quantity by done. split; [done|]. by intros ->.
Qed.

(** *** C7: the transaction log *)

Lemma logTransaction_append (w : World) (t : TxData) (l : list Transaction) :
  log_file w = Some (Parsed l) ->
  logTransaction w t =
    mkWorld (stock_files w)
            (Some (Parsed (json_tx <$> l ++ [mkLogged t (toISOString (clock (ticks w)))])))
            (uploads w) (S (ticks w)).
Proof. intros H. unfold logTransaction. by rewrite H. Qed.

(** One call on a readable log puts one entry behind the entries that were
    there, stamped with the reading of the clock taken by the call. *)
Lemma logTransaction_log (w : World) (l : list Transaction) (t : TxData) :
  log_file w = Some (Parsed l) ->
  json_log l ->
  log_file (logTransaction w t) =
    Some (Parsed (l ++ [json_tx (mkLogged t (toISOString (clock (ticks w))))])).
Proof.
  intros Hl Hj. rewrite (logTransaction_append _ _ _ Hl). cbn.
  by rewrite fmap_app, Hj.
Qed.

Lemma json_tx_idemp (t : Transaction) : json_tx (json_tx t) = json_tx t.
Proof. unfold json_tx. cbn. by rewrite !json_value_idemp. Qed.

Lemma json_log_snoc (l : list Transaction) (t : Transaction) :
  json_log l -> json_log (l ++ [json_tx t]).
Proof.
  unfold json_log. intros Hl. rewrite fmap_app, Hl. cbn.
  by rewrite json_tx_idemp.
Qed.

Lemma stock_in_log (w w' : World) (body : Body) (p : Payload)
    (l : list Transaction) :
  log_file w = Some (Parsed l) ->
  json_log l ->
  post_stock_in w body = (w', Reply 200 p) ->
  log_file w' =
    Some (Parsed (l ++ [json_tx (mkLogged (mkTx (b_section body) (b_size body)
                                                (b_quantity body) IN)
                                          (toISOString (clock (ticks w))))])).
Proof.
  intros Hl Hj H. destruct body as [section size quantity].
  apply post_stock_in_success in H as (_ & _ & sd & _ & -> & _).
  erewrite logTransaction_log; [|by rewrite log_file_save|done].
  by rewrite ticks_save.
Qed.

Lemma stock_out_log (w w' : World) (body : Body) (p : Payload)
    (l : list Transaction) :
  log_file w = Some (Parsed l) ->
  json_log l ->
  post_stock_out w body = (w', Reply 200 p) ->
  log_file w' =
    Some (Parsed (l ++ [json_tx (mkLogged (mkTx (b_section body) (b_size body)
                                                (b_quantity body) OUT)
                                          (toISOString (clock (ticks w))))])).
Proof.
  intros Hl Hj H. destruct body as [section size quantity].
  apply post_stock_out_success in H as (_ & _ & sd & i & x & v & _ & -> & _).
  erewrite logTransaction_log; [|by rewrite log_file_save|done].
  by rewrite ticks_save.
Qed.

Lemma upload_item_applied (section : JsVal) (sd : list StockItem) (w : World)
    (item : ParsedRow) :
  applied item = true ->
  upload_item section (sd, w) item =
    (set_row item sd,
     logTransaction w (mkTx section (JNumber (row_size item))
                            (JNumber (row_quantity item)) UPLOAD)).
Proof.
  unfold applied, upload_item, set_row. intros H.
  apply negb_true_iff in H. by rewrite H.
Qed.

Lemma upload_item_skipped (section : JsVal) (acc : list StockItem * World)
    (item : ParsedRow) :
  applied item = false -> upload_item section acc item = acc.
Proof.
  unfold applied, upload_item. intros H. destruct acc as [sd w].
  apply negb_false_iff in H. by rewrite H.
Qed.

(** The rows of one upload: every applied row adds its entry, in order,
    each with its own reading of the clock; a skipped row adds nothing. *)
Lemma upload_fold_log (section : JsVal) (results : list ParsedRow)
    (acc : list StockItem * World) (l : list Transaction) :
  log_file acc.2 = Some (Parsed l) ->
  json_log l ->
  let acc' := foldl (upload_item section) acc results in
  log_file acc'.2 =
    Some (Parsed (l ++ (json_tx <$> upload_entries section (ticks acc.2)
                                      (List.filter applied results)))) /\
  uploads acc'.2 = uploads acc.2.
Proof.
  revert acc l.
  induction results as [|item results IH]; intros [sd w] l Hl Hj;
    cbn [foldl snd List.filter].
  - cbn. by rewrite app_nil_r.
  - cbn [snd] in Hl. destruct (applied item) eqn:Ea.
    + rewrite upload_item_applied by done.
      match goal with |- context [foldl _ ?a results] =>
        destruct (IH a
          (l ++ [json_tx (mkLogged (mkTx section (JNumber (row_size item))
                                         (JNumber (row_quantity item)) UPLOAD)
                                   (toISOString (clock (ticks w))))])) as [H1 H2]
      end.
      * cbn [snd]. by apply logTransaction_log.
      * by apply json_log_snoc.
      * cbn [snd] in H1, H2. rewrite H1, H2. split.
        -- rewrite (logTransaction_append _ _ _ Hl).
           cbn [ticks upload_entries fmap list_fmap].
           by rewrite <- app_assoc.
        -- apply uploads_logTransaction.
    + rewrite upload_item_skipped by done. by apply IH.
Qed.

(** C7 (amended). When the log document exists and parses, to a list [l]
    of JSON records: an accepted [/stock/in] leaves [l] followed by one IN
    entry, an accepted [/stock/out] leaves [l] followed by one OUT entry,
    and an accepted [/upload] leaves [l] followed by one UPLOAD entry per
    applied row and none for a skipped row; each entry is the record of the
    request as JSON stores it, with the clock reading taken when it is
    appended. *)
Theorem log_append_only (w : World) (l : list Transaction) :
  log_file w = Some (Parsed l) ->
  json_log l ->
  (forall body w' p,
     post_stock_in w body = (w', Reply 200 p) ->
     log_file w' =
       Some (Parsed (l ++ [json_tx (mkLogged (mkTx (b_section body) (b_size body)
                                                   (b_quantity body) IN)
                                             (toISOString (clock (ticks w))))]))) /\
  (forall body w' p,
     post_stock_out w body = (w', Reply 200 p) ->
     log_file w' =
       Some (Parsed (l ++ [json_tx (mkLogged (mkTx (b_section body) (b_size body)
                                                   (b_quantity body) OUT)
                                             (toISOString (clock (ticks w))))]))) /\
  (forall req w' p,
     post_upload w req = (w', Reply 200 p) ->
     exists file,
       u_file req = Some file /\
       log_file w' =
         Some (Parsed (l ++ (json_tx <$> upload_entries (u_section req) (S (ticks w))
                 (List.filter applied (on_data <$> content file)))))).
Proof.
  intros Hl Hj. split_and!.
  - intros body w' p. by apply stock_in_log.
  - intros body w' p. by apply stock_out_log.
  - intros req w' p. unfold post_upload.
    destruct (u_file req) as [file|] eqn:Ef.
    + rewrite (upload_single_file _ _ _ Ef). cbv beta iota zeta.
      destruct (includes sections (u_section req)) eqn:Hs.
      * erewrite upload_handler_success; [|done|cbn; apply lookup_insert_eq].
        cbv beta iota zeta. intros [= <- _]. exists file. split; [done|].
        match goal with |- context [foldl _ ?a ?r] =>
          destruct (upload_fold_log (u_section req) r a l) as [H1 _]
        end; [done..|].
        cbn [snd ticks] in H1. unfold unlinkSync, set_uploads.
        cbn [log_file]. by rewrite log_file_save.
      * unfold upload_handler. rewrite Hs, orb_true_r. done.
    + unfold upload_single. rewrite Ef. unfold upload_handler.
      destruct (_ || _); done.
Qed.

(** *** What the routes do to a quantity and to the stored file *)

(** [/stock/out] of a positive quantity on a size that has an integer
    quantity of at least that much leaves the difference, which the guard
    on the stock keeps from going below 0. *)
Lemma stock_out_quantity (w : World) (section size : JsVal) (c q : Z) :
  includes sections section = true ->
  ToBoolean size = true ->
  storable size = true ->
  0 < q <= c ->
  c <= 2 ^ 53 ->
  quantity_of size (stock w section) = Some (JNumber (Num c)) ->
  post_stock_out w (mkBody section size (JNumber (Num q)))
    = (logTransaction
         (save w section
               (alter (set_quantity (JNumber (Num (c - q))))
                      (default O (findIndex (has_size size) (stock w section)))
                      (stock w section)))
         (mkTx section size (JNumber (Num q)) OUT),
       Reply 200
         (PSuccess (alter (set_quantity (JNumber (Num (c - q))))
                          (default O (findIndex (has_size size) (stock w section)))
                          (stock w section)))) /\
  quantity_of size
    (alter (set_quantity (JNumber (Num (c - q))))
           (default O (findIndex (has_size size) (stock w section)))
           (stock w section)) = Some (JNumber (Num (c - q))) /\
  quantity_of size
    (stock (post_stock_out w (mkBody section size (JNumber (Num q)))).1 section)
  = Some (JNumber (Num (c - q))).
Proof.
  intros Hs Hz Hst Hq Hb Hc.
  assert (2 ^ 53 = 9007199254740992) as E53 by reflexivity.
  rewrite post_stock_out_valid by (done || apply valid_input; done || lia).
  destruct (findIndex (has_size size) (stock w section)) as [i|] eqn:E.
  - destruct (findIndex_Some _ _ _ E) as (x & Hi & _ & _).
    rewrite (quantity_of_found _ _ _ _ E Hi) in Hc. injection Hc as Hc.
    rewrite Hi. cbn [fmap option_fmap option_map default id]. rewrite Hc.
    rewrite js_lt_Num. replace (c <? q) with false by lia.
    cbn [mbind Try_bind]. rewrite (update_sub _ _ _ x Hi), Hc.
    rewrite js_sub_exact by lia. cbn [mbind Try_bind mret Try_ret uncaught catch fst].
    split_and!; [done|by apply quantity_of_alter|].
    rewrite stock_logTransaction, stock_save by done.
    rewrite quantity_of_json
      by (by apply storable_not_null || by apply storable_not_infinite).
    by rewrite quantity_of_alter.
  - apply find_findIndex_None in E. unfold quantity_of in Hc. by rewrite E in Hc.
Qed.

Lemma upload_fold_uploads (section : JsVal) (results : list ParsedRow)
    (acc : list StockItem * World) :
  uploads (foldl (upload_item section) acc results).2 = uploads acc.2.
Proof.
  revert acc. induction results as [|item results IH]; intros [sd w]; [done|].
  cbn [foldl]. rewrite IH. unfold upload_item.
  destruct (_ || _); [done|]. apply uploads_logTransaction.
Qed.

(** An upload to a known section ends with the stored file deleted. *)
Lemma upload_success_unlinks (w : World) (section : JsVal) (file : UploadedFile) :
  includes sections section = true ->
  uploads (post_upload w (mkUpload section (Some file))).1
    !! filename (getTime (clock (ticks w))) file = None.
Proof.
  intros Hs. unfold post_upload.
  rewrite (upload_single_file _ _ file) by done.
  cbv beta iota zeta. cbn [u_section].
  erewrite upload_handler_success; [|done|cbn; apply lookup_insert_eq].
  cbv beta iota zeta. cbn [fst]. unfold unlinkSync. cbn.
  apply lookup_delete_eq.
Qed.

(** An upload to anything but a known section is answered 400 with the
    stored file left in [uploads/]. *)
Lemma upload_invalid_section_leak (w : World) (section : JsVal) (file : UploadedFile) :
  includes sections section = false ->
  (post_upload w (mkUpload section (Some file))).2
    = Reply 400 (PError "Invalid section") /\
  uploads (post_upload w (mkUpload section (Some file))).1
    !! filename (getTime (clock (ticks w))) file = Some (content file).
Proof.
  intros Hs. unfold post_upload.
  rewrite (upload_single_file _ _ file) by done.
  cbv beta iota zeta. cbn [u_section]. unfold upload_handler.
  rewrite Hs, orb_true_r. cbn. split; [done|]. apply lookup_insert_eq.
Qed.

(** The hypotheses on the log hold all along a run that starts with a
    readable log, as the first start leaves it. *)
Lemma log_ok_logTransaction (w : World) (t : TxData) :
  log_ok w -> log_ok (logTransaction w t).
Proof.
  intros (l & Hl & Hj). rewrite (logTransaction_append _ _ _ Hl).
  eexists. split; [reflexivity|]. unfold json_log.
  rewrite <- list_fmap_compose. apply list_fmap_ext. intros _ x _.
  apply json_tx_idemp.
Qed.

Lemma log_ok_ext (w w' : World) : log_file w' = log_file w -> log_ok w -> log_ok w'.
Proof. unfold log_ok. by intros ->. Qed.

Lemma log_ok_upload_fold (section : JsVal) (results : list ParsedRow)
    (acc : list StockItem * World) :
  log_ok acc.2 -> log_ok (foldl (upload_item section) acc results).2.
Proof.
  revert acc. induction results as [|x results IH]; intros [sd w] Hw; [done|].
  cbn [foldl]. apply IH. unfold upload_item. destruct (_ || _); [done|].
  by apply log_ok_logTransaction.
Qed.

Lemma log_ok_handle (w : World) (r : Request) : log_ok w -> log_ok (handle w r).1.
Proof.
  intros Hw. destruct r as [section|body|body|req|]; cbn [handle].
  - unfold get_stock. destruct (negb _); [done|].
    by destruct (getStockData w section).
  - destruct (post_stock_in w body) as [w' r] eqn:H. cbn [fst].
    destruct (post_stock_in_failure _ _ _ _ H) as [[-> _]|[p ->]]; [done|].
    destruct body as [section size quantity].
    apply post_stock_in_success in H as (_ & _ & sd & _ & -> & _).
    apply log_ok_logTransaction. eapply log_ok_ext; [apply log_file_save|done].
  - destruct (post_stock_out w body) as [w' r] eqn:H. cbn [fst].
    destruct (post_stock_out_failure _ _ _ _ H) as [[-> _]|[p ->]]; [done|].
    destruct body as [section size quantity].
    apply post_stock_out_success in H as (_ & _ & sd & i & x & v & _ & -> & _).
    apply log_ok_logTransaction. eapply log_ok_ext; [apply log_file_save|done].
  - unfold post_upload.
    assert (log_ok (upload_single w req).1) as Hu.
    { unfold upload_single. by destruct (u_file req). }
    destruct (upload_single w req) as [w1 file]. cbn [fst] in Hu.
    unfold upload_handler.
    destruct (ToBoolean (u_section req)); [|done]. cbn [negb orb].
    destruct (includes sections (u_section req)) eqn:Hs; [|done]. cbn [negb].
    destruct file as [path|]; [|done].
    destruct (uploads w1 !! path) as [rows|]; [|done].
    rewrite on_end_valid by done. cbn [fst].
    pose proof (log_ok_upload_fold (u_section req) (on_data <$> rows)
                  (stock w1 (u_section req), w1) Hu) as Hf.
    destruct (foldl _ _ _) as [l w2]. cbn [fst snd] in *.
    eapply log_ok_ext; [|exact Hf]. unfold unlinkSync. cbn [log_file set_uploads].
    apply log_file_save.
  - unfold get_logs. by destruct (log_file w) as [[?|]|].
Qed.

Lemma log_ok_reaches (w0 w : World) : log_ok w0 -> reaches w0 w -> log_ok w.
Proof. intros H0 Hr. induction Hr; auto using log_ok_handle. Qed.

Lemma log_ok_fresh : log_ok fresh.
Proof. by exists []. Qed.

Lemma reaches_run (w : World) (rs : list Request) : reaches w (run w rs).
Proof.
  induction rs as [|r rs IH] using rev_ind.
  - apply reaches_refl.
  - unfold run in *. rewrite foldl_app. cbn. by apply reaches_step.
Qed.

(** ** Further properties of the routes *)

(** *** Guards and failing requests *)

(** X1. A quantity that is a number not above 0 (a negative one is truthy)
    is refused by both mutation routes with 400 "Invalid input data", and
    the world stays as it is. *)
Theorem nonpositive_quantity_rejected (w : World) (section size : JsVal) (q : Z) :
  q <= 0 ->
  post_stock_in w (mkBody section size (JNumber (Num q)))
    = (w, Reply 400 (PError "Invalid input data")) /\
  post_stock_out w (mkBody section size (JNumber (Num q)))
    = (w, Reply 400 (PError "Invalid input data")).
Proof.
  intros Hq. unfold post_stock_in, post_stock_out, invalid_input.
  cbn [b_section b_size b_quantity]. rewrite js_le_Num.
  replace (0 <? q) with false by lia.
  by destruct (_ || _).
Qed.

(** X2. [/stock/in] and [/stock/out] always answer, and an answer whose
    status is not 200 comes with the world exactly as it was: nothing is
    saved, nothing is logged, the clock is not read. *)
Theorem stock_error_atomic (w w' : World) (body : Body) (r : Response) :
  post_stock_in w body = (w', r) \/ post_stock_out w body = (w', r) ->
  r <> NoReply /\
  (forall status p, r = Reply status p -> status <> 200%nat -> w' = w).
Proof.
  intros [H|H].
  - destruct (post_stock_in_failure _ _ _ _ H)
      as [[-> (st & p & -> & Hst)]|[p ->]]; split; try done.
    by intros status p' [= <- <-] Hs.
  - destruct (post_stock_out_failure _ _ _ _ H)
      as [[-> (st & p & -> & Hst)]|[p ->]]; split; try done.
    by intros status p' [= <- <-] Hs.
Qed.

Lemma upload_fold_stock_files (section : JsVal) (results : list ParsedRow)
    (acc : list StockItem * World) :
  stock_files (foldl (upload_item section) acc results).2 = stock_files acc.2.
Proof.
  revert acc. induction results as [|x results IH]; intros [sd w]; [done|].
  cbn [foldl]. rewrite IH. unfold upload_item.
  destruct (_ || _); [done|]. apply stock_files_logTransaction.
Qed.

(** An upload is refused with 400 and the documents as they were, or
    accepted. *)
Lemma upload_cases (w : World) (req : UploadRequest) :
  (exists w' msg, post_upload w req = (w', Reply 400 (PError msg)) /\
                  stock_files w' = stock_files w /\ log_file w' = log_file w /\
                  (u_file req = None -> w' = w)) \/
  (exists w' sd, post_upload w req = (w', Reply 200 (PSuccess sd))).
Proof.
  unfold post_upload. destruct (u_file req) as [file|] eqn:Ef.
  - rewrite (upload_single_file _ _ _ Ef). cbv beta iota zeta.
    unfold upload_handler.
    destruct (ToBoolean (u_section req)); cbn [negb orb];
      [|left; by eexists _, _].
    destruct (includes sections (u_section req)) eqn:Hs; cbn [negb];
      [|left; by eexists _, _].
    cbn [uploads]. rewrite lookup_insert_eq, on_end_valid by done.
    right. by eexists _, _.
  - unfold upload_single. rewrite Ef. unfold upload_handler.
    left. destruct (_ || _); by eexists _, _.
Qed.

(** X3. [/upload] always answers; an answer whose status is not 200 leaves
    every stock document and the log as they were, and the whole world when
    no file came with the request. *)
Theorem upload_error_keeps_data (w w' : World) (req : UploadRequest) (r : Response) :
  post_upload w req = (w', r) ->
  r <> NoReply /\
  (forall status p, r = Reply status p -> status <> 200%nat ->
     stock_files w' = stock_files w /\ log_file w' = log_file w /\
     (u_file req = None -> w' = w)).
Proof.
  intros H.
  destruct (upload_cases w req) as [(w1 & msg & E & Hw)|(w1 & sd & E)];
    rewrite E in H; injection H as <- <-; split; try done.
  by intros status p [= <- <-] Hs.
Qed.

Lemma logTransaction_unreadable (w : World) (t : TxData) :
  log_file w = None \/ log_file w = Some Unparsable -> logTransaction w t = w.
Proof. unfold logTransaction. by intros [->| ->]. Qed.

Lemma upload_fold_unreadable (section : JsVal) (results : list ParsedRow)
    (sd : list StockItem) (w : World) :
  log_file w = None \/ log_file w = Some Unparsable ->
  (foldl (upload_item section) (sd, w) results).2 = w.
Proof.
  intros H. revert sd. induction results as [|x results IH]; intros sd; [done|].
  cbn [foldl]. unfold upload_item at 2. destruct (_ || _); [apply IH|].
  rewrite logTransaction_unreadable by done. apply IH.
Qed.

(** X4. A log document that is missing or does not parse stays so: no
    request creates or repairs it, the mutation routes go on without
    logging, and [/logs] answers 500. *)
Theorem unreadable_log_stays (w : World) (r : Request) :
  log_file w = None \/ log_file w = Some Unparsable ->
  log_file (handle w r).1 = log_file w /\
  (handle w GetLogs).2 = Reply 500 (PError "Failed to read transaction logs").
Proof.
  intros H. split.
  - destruct r as [section|body|body|req|]; cbn [handle].
    + unfold get_stock. destruct (negb _); [done|].
      by destruct (getStockData w section).
    + destruct (post_stock_in w body) as [w' r] eqn:E. cbn [fst].
      destruct (post_stock_in_failure _ _ _ _ E) as [[-> _]|[p ->]]; [done|].
      destruct body as [section size quantity].
      apply post_stock_in_success in E as (_ & _ & sd & _ & -> & _).
      rewrite logTransaction_unreadable by (by rewrite log_file_save).
      apply log_file_save.
    + destruct (post_stock_out w body) as [w' r] eqn:E. cbn [fst].
      destruct (post_stock_out_failure _ _ _ _ E) as [[-> _]|[p ->]]; [done|].
      destruct body as [section size quantity].
      apply post_stock_out_success in E as (_ & _ & sd & i & x & v & _ & -> & _).
      rewrite logTransaction_unreadable by (by rewrite log_file_save).
      apply log_file_save.
    + unfold post_upload.
      assert (log_file (upload_single w req).1 = log_file w) as Hu.
      { unfold upload_single. by destruct (u_file req). }
      destruct (upload_single w req) as [w1 file]. cbn [fst] in Hu.
      unfold upload_handler.
      destruct (ToBoolean (u_section req)); [|done]. cbn [negb orb].
      destruct (includes sections (u_section req)) eqn:Hs; [|done]. cbn [negb].
      destruct file as [path|]; [|done].
      destruct (uploads w1 !! path) as [rows|]; [|done].
      rewrite on_end_valid by done. cbn [fst].
      pose proof (upload_fold_unreadable (u_section req) (on_data <$> rows)
                    (stock w1 (u_section req)) w1) as Hf.
      destruct (foldl _ _ _) as [sd w2]. cbn [fst snd] in *.
      rewrite Hf by (by rewrite Hu). unfold unlinkSync.
      cbn [log_file set_uploads]. by rewrite log_file_save.
    + assert ((get_logs w).1 = w) as ->; [|done].
      unfold get_logs. by destruct (log_file w) as [[?|]|].
  - cbn [handle]. unfold get_logs. by destruct H as [->| ->].
Qed.

(** *** Start of the process *)

Lemma init_section_lookup (w : World) (s key : string) :
  stock_files (init_section w s) !! key =
    match stock_files w !! key with
    | Some d => Some d
    | None => if decide (key = s) then Some (Parsed []) else None
    end.
Proof.
  unfold init_section. destruct (stock_files w !! s) eqn:E.
  - destruct (stock_files w !! key) eqn:E2; [done|].
    case_decide; [|done]. subst. congruence.
  - cbn. rewrite lookup_insert. case_decide as Hk.
    + subst. rewrite E. by rewrite decide_True.
    + destruct (stock_files w !! key); [done|]. by rewrite decide_False.
Qed.

Lemma init_section_present (w : World) (s : string) :
  is_Some (stock_files w !! s) -> init_section w s = w.
Proof. intros [d Hd]. unfold init_section. by rewrite Hd. Qed.

Lemma startup_lookup (w : World) (key : string) :
  stock_files (startup w) !! key =
    match stock_files w !! key with
    | Some d => Some d
    | None => if decide (key ∈ ["A"; "B"; "C"]) then Some (Parsed []) else None
    end.
Proof.
  unfold startup, sections. cbn [foldl].
  assert (forall v, stock_files (init_log v) = stock_files v) as ->.
  { intros v. unfold init_log. by destruct (log_file v). }
  rewrite !init_section_lookup.
  destruct (stock_files w !! key); [done|].
  repeat case_decide; try done; exfalso;
    repeat match goal with
    | H : _ ∈ _ :: _ |- _ => apply elem_of_cons in H as [H|H]
    | H : _ ∈ [] |- _ => by apply elem_of_nil in H
    | H : ¬ (_ ∈ _) |- _ => apply H; subst; set_solver
    end; congruence.
Qed.

Lemma startup_log (w : World) :
  log_file (startup w) = Some (default (Parsed []) (log_file w)).
Proof.
  unfold startup, sections, init_log. cbn [foldl].
  assert (forall v s, log_file (init_section v s) = log_file v) as Hl.
  { intros v s. unfold init_section. by destruct (_ !! _). }
  rewrite !Hl. destruct (log_file w) eqn:E; cbn [default]; [|done].
  by rewrite !Hl, E.
Qed.

(** X5. Starting the process never overwrites a document: every stock
    document and the log that exist are kept as they are (unparsable text
    included); the documents of A, B and C and the log that are missing are
    created empty; no other document appears. *)
Theorem startup_documents (w : World) :
  (forall key d, stock_files w !! key = Some d ->
     stock_files (startup w) !! key = Some d) /\
  (forall d, log_file w = Some d -> log_file (startup w) = Some d) /\
  (forall key, key ∈ ["A"; "B"; "C"] -> stock_files w !! key = None ->
     stock_files (startup w) !! key = Some (Parsed [])) /\
  (log_file w = None -> log_file (startup w) = Some (Parsed [])) /\
  (forall key, key ∉ ["A"; "B"; "C"] -> stock_files w !! key = None ->
     stock_files (startup w) !! key = None).
Proof.
  split_and!.
  - intros key d H. by rewrite startup_lookup, H.
  - intros d H. by rewrite startup_log, H.
  - intros key Hk H. rewrite startup_lookup, H. by rewrite decide_True.
  - intros H. by rewrite startup_log, H.
  - intros key Hk H. rewrite startup_lookup, H. by rewrite decide_False.
Qed.

(** X6. A restart changes nothing: starting a world that has been started
    gives that world. *)
Theorem startup_idempotent (w : World) : startup (startup w) = startup w.
Proof.
  assert (forall key, key ∈ ["A"; "B"; "C"] ->
            is_Some (stock_files (startup w) !! key)) as Hk.
  { intros key H. rewrite startup_lookup.
    destruct (stock_files w !! key); [eauto|]. rewrite decide_True by done. eauto. }
  unfold startup at 1. unfold sections. cbn [foldl].
  rewrite (init_section_present (startup w) "A")
    by (apply Hk; cbn; set_solver).
  rewrite (init_section_present (startup w) "B")
    by (apply Hk; cbn; set_solver).
  rewrite (init_section_present (startup w) "C")
    by (apply Hk; cbn; set_solver).
  unfold init_log. by rewrite startup_log.
Qed.

(** *** What an accepted mutation stores *)

Lemma stock_files_save_ext (w w' : World) (section : JsVal) (data : list StockItem) :
  stock_files w' = stock_files w ->
  stock_files (save w' section data) = stock_files (save w section data).
Proof.
  intros H. unfold save, saveStockData.
  destruct (ToString section) as [s|e]; cbn; [by rewrite H|].
  by destruct (ToString section).
Qed.

Lemma upload_success (w w' : World) (req : UploadRequest) (p : Payload) :
  post_upload w req = (w', Reply 200 p) ->
  includes sections (u_section req) = true /\
  exists file,
    u_file req = Some file /\
    let sd := foldl (fun l item => set_row item l)
                    (stock w (u_section req)) (on_data <$> content file) in
    p = PSuccess sd /\
    stock_files w' = stock_files (save w (u_section req) sd).
Proof.
  unfold post_upload. destruct (u_file req) as [file|] eqn:Ef.
  - rewrite (upload_single_file _ _ _ Ef). cbv beta iota zeta.
    destruct (includes sections (u_section req)) eqn:Hs.
    + erewrite upload_handler_success; [|done|cbn; apply lookup_insert_eq].
      cbv beta iota zeta. intros [= <- <-]. split; [done|]. exists file.
      split; [done|]. cbv zeta. rewrite upload_fold_list.
      split; [reflexivity|]. unfold unlinkSync. cbn [stock_files set_uploads].
      apply stock_files_save_ext. by rewrite upload_fold_stock_files.
    + unfold upload_handler. by rewrite Hs, orb_true_r.
  - unfold upload_single, upload_handler. rewrite Ef.
    destruct (_ || _); done.
Qed.

Lemma stock_of_save (w w' : World) (section : JsVal) (sd : list StockItem) :
  includes sections section = true ->
  stock_files w' = stock_files (save w section sd) ->
  stock w' section = json_item <$> sd.
Proof.
  intros Hs H. rewrite (stock_ext _ _ _ H). by apply stock_save.
Qed.

Lemma get_stock_valid (w : World) (section : JsVal) :
  includes sections section = true ->
  get_stock w section = (w, Reply 200 (PStock (stock w section))).
Proof.
  intros Hs. unfold get_stock. rewrite Hs. cbn [negb].
  by rewrite getStockData_stock.
Qed.

(** X7. The list an accepted mutation answers with is the list it stores:
    a [GET /stock/<section>] that follows returns that list as JSON keeps
    it, also when the section's document was missing or unparsable
    before. *)
Theorem reply_is_stored (w w' : World) (sd : list StockItem) :
  (forall body,
     post_stock_in w body = (w', Reply 200 (PSuccess sd)) \/
     post_stock_out w body = (w', Reply 200 (PSuccess sd)) ->
     get_stock w' (b_section body) = (w', Reply 200 (PStock (json_item <$> sd)))) /\
  (forall req,
     post_upload w req = (w', Reply 200 (PSuccess sd)) ->
     get_stock w' (u_section req) = (w', Reply 200 (PStock (json_item <$> sd)))).
Proof.
  split.
  - intros [section size quantity] [H|H]; cbn [b_section].
    + apply post_stock_in_success in H as (Hs & _ & sd' & Hp & -> & _).
      injection Hp as ->. rewrite get_stock_valid by done.
      by rewrite stock_logTransaction, stock_save.
    + apply post_stock_out_success in H
        as (Hs & _ & sd' & i & x & v & Hp & -> & _).
      injection Hp as ->. rewrite get_stock_valid by done.
      by rewrite stock_logTransaction, stock_save.
  - intros req H. apply upload_success in H as (Hs & file & _ & Hp & Hw).
    injection Hp as ->. rewrite get_stock_valid by done.
    by rewrite (stock_of_save _ _ _ _ Hs Hw).
Qed.

Lemma save_other (w : World) (section : JsVal) (data : list StockItem)
    (key : string) :
  ToString section <> Return key ->
  stock_files (save w section data) !! key = stock_files w !! key.
Proof.
  intros Hk. unfold save, saveStockData.
  destruct (ToString section) as [s|e]; cbn.
  - rewrite lookup_insert_ne; [done|]. congruence.
  - by destruct (ToString section).
Qed.

(** X8. A mutation of one section leaves the documents of the other
    sections as they are, whether it is accepted or refused. *)
Theorem other_sections_untouched (w : World) (key : string) :
  (forall body, ToString (b_section body) <> Return key ->
     stock_files (post_stock_in w body).1 !! key = stock_files w !! key /\
     stock_files (post_stock_out w body).1 !! key = stock_files w !! key) /\
  (forall req, ToString (u_section req) <> Return key ->
     stock_files (post_upload w req).1 !! key = stock_files w !! key).
Proof.
  split.
  - intros body Hk. split.
    + destruct (post_stock_in w body) as [w' r] eqn:E. cbn [fst].
      destruct (post_stock_in_failure _ _ _ _ E) as [[-> _]|[p ->]]; [done|].
      destruct body as [section size quantity].
      apply post_stock_in_success in E as (_ & _ & sd & _ & -> & _).
      rewrite stock_files_logTransaction. by apply save_other.
    + destruct (post_stock_out w body) as [w' r] eqn:E. cbn [fst].
      destruct (post_stock_out_failure _ _ _ _ E) as [[-> _]|[p ->]]; [done|].
      destruct body as [section size quantity].
      apply post_stock_out_success in E as (_ & _ & sd & i & x & v & _ & -> & _).
      rewrite stock_files_logTransaction. by apply save_other.
  - intros req Hk.
    destruct (upload_cases w req) as [(w1 & msg & E & Hw & _)|(w1 & sd & E)];
      rewrite E; cbn [fst]; [by rewrite Hw|].
    apply upload_success in E as (_ & file & _ & _ & ->).
    by apply save_other.
Qed.

(** *** Items are never removed *)

Lemma sizes_set_row (item : ParsedRow) (l : list StockItem) :
  (item_size <$> l) `prefix_of` (item_size <$> set_row item l).
Proof.
  unfold set_row. destruct (_ || _); [done|].
  destruct (findIndex _ _).
  - by rewrite sizes_alter.
  - rewrite fmap_app. by apply prefix_app_r.
Qed.

Lemma sizes_fold_set_row (results : list ParsedRow) (l : list StockItem) :
  (item_size <$> l)
    `prefix_of` (item_size <$> foldl (fun l item => set_row item l) l results).
Proof.
  revert l. induction results as [|x results IH]; intros l; [done|].
  cbn [foldl]. etrans; [apply (sizes_set_row x)|apply IH].
Qed.

Lemma sizes_prefix_json (l sd : list StockItem) :
  Forall (fun i => json_value (item_size i) = item_size i) l ->
  (item_size <$> l) `prefix_of` (item_size <$> sd) ->
  (item_size <$> l) `prefix_of` (item_size <$> (json_item <$> sd)).
Proof.
  intros Hn [k Hk].
  assert (json_value <$> (item_size <$> l) = item_size <$> l) as H.
  { clear Hk. induction Hn as [|x r Hx _ IH]; [done|]. cbn. by rewrite Hx, IH. }
  rewrite <- (list_fmap_compose json_item).
  change (item_size ∘ json_item) with (json_value ∘ item_size).
  rewrite (list_fmap_compose item_size), Hk, fmap_app, H. by apply prefix_app_r.
Qed.

Lemma json_sizes_stock (w : World) (section : JsVal) :
  json_sizes w ->
  Forall (fun i => json_value (item_size i) = item_size i) (stock w section).
Proof.
  intros H. unfold stock, getStockData.
  destruct (ToString section) as [s|e]; cbn.
  - destruct (stock_files w !! s) as [[l|]|] eqn:E; cbn; eauto.
  - by destruct (ToString section).
Qed.

Lemma json_sizes_ext (w w' : World) :
  stock_files w' = stock_files w -> json_sizes w -> json_sizes w'.
Proof. unfold json_sizes. by intros ->. Qed.

Lemma json_sizes_save (w : World) (section : JsVal) (data : list StockItem) :
  json_sizes w -> json_sizes (save w section data).
Proof.
  intros Hw. unfold save, saveStockData.
  destruct (ToString section) as [s|e]; cbn.
  - intros k l. cbn. rewrite lookup_insert. case_decide.
    + intros [= <-]. apply Forall_fmap, Forall_forall. intros x _. cbn.
      apply json_value_idemp.
    + apply Hw.
  - by destruct (ToString section).
Qed.

(** What a request does to the documents: nothing, or it saves one
    list that opens with the sizes the section had. *)
Lemma handle_stock_files (w : World) (r : Request) :
  stock_files (handle w r).1 = stock_files w \/
  exists section sd,
    includes sections section = true /\
    stock_files (handle w r).1 = stock_files (save w section sd) /\
    (item_size <$> stock w section) `prefix_of` (item_size <$> sd).
Proof.
  destruct r as [s|body|body|req|]; cbn [handle].
  - left. unfold get_stock. destruct (negb _); [done|].
    by destruct (getStockData w s).
  - destruct (post_stock_in w body) as [w' r] eqn:E. cbn [fst].
    destruct (post_stock_in_failure _ _ _ _ E) as [[-> _]|[p ->]]; [by left|].
    destruct body as [section size quantity]. right.
    apply post_stock_in_success in E
      as (Hs & _ & sd & _ & -> & [(i & x & v & _ & _ & _ & ->)|[_ ->]]);
      exists section; eexists; (split; [done|]);
      (split; [apply stock_files_logTransaction|]).
    + by rewrite sizes_alter.
    + rewrite fmap_app. by apply prefix_app_r.
  - destruct (post_stock_out w body) as [w' r] eqn:E. cbn [fst].
    destruct (post_stock_out_failure _ _ _ _ E) as [[-> _]|[p ->]]; [by left|].
    destruct body as [section size quantity]. right.
    apply post_stock_out_success in E
      as (Hs & _ & sd & i & x & v & _ & -> & _ & _ & _ & _ & ->).
    exists section; eexists; (split; [done|]);
      (split; [apply stock_files_logTransaction|]).
    by rewrite sizes_alter.
  - destruct (upload_cases w req) as [(w1 & msg & E & Hw & _)|(w1 & sd & E)];
      rewrite E; cbn [fst]; [by left|]. right.
    apply upload_success in E as (Hs & file & _ & _ & Hw).
    exists (u_section req). eexists. split; [done|]. split; [exact Hw|].
    apply sizes_fold_set_row.
  - left. unfold get_logs. by destruct (log_file w) as [[?|]|].
Qed.

Lemma json_sizes_handle (w : World) (r : Request) :
  json_sizes w -> json_sizes (handle w r).1.
Proof.
  intros Hw. destruct (handle_stock_files w r) as [H|(s & sd & _ & H & _)].
  - by apply (json_sizes_ext w).
  - eapply json_sizes_ext; [exact H|]. by apply json_sizes_save.
Qed.

Lemma json_sizes_reaches (w0 w : World) :
  json_sizes w0 -> reaches w0 w -> json_sizes w.
Proof. intros H0 Hr. induction Hr; auto using json_sizes_handle. Qed.

Lemma json_sizes_fresh : json_sizes fresh.
Proof.
  intros key l. unfold fresh. rewrite startup_lookup. unfold empty_disk. cbn.
  rewrite lookup_empty. case_decide; [|done]. intros [= <-]. apply Forall_nil_2.
Qed.

Lemma stock_text (w : World) (section : JsVal) (filePath : string) :
  ToString section = Return filePath ->
  stock w section =
    match stock_files w !! filePath with
    | Some (Parsed l) => l
    | Some Unparsable => []
    | None => []
    end.
Proof. intros H. unfold stock. by rewrite (getStockData_text _ _ _ H). Qed.

Lemma stock_no_text (w : World) (section : JsVal) (e : Exn) :
  ToString section = Throw e -> stock w section = [].
Proof. intros H. unfold stock, getStockData. by rewrite H. Qed.

(** The step: the sizes of a section before a request open the list of its
    sizes after it. *)
Lemma sizes_handle (w : World) (r : Request) (section : JsVal) :
  json_sizes w ->
  (item_size <$> stock w section)
    `prefix_of` (item_size <$> stock (handle w r).1 section).
Proof.
  intros Hok. destruct (handle_stock_files w r) as [H|(s0 & sd & Hs & H & Hp)].
  - by rewrite (stock_ext _ _ _ H).
  - rewrite (stock_ext _ _ _ H). apply includes_string in Hs as [k ->].
    destruct (ToString section) as [s|e] eqn:Et;
      [|by rewrite !(stock_no_text _ _ _ Et)].
    rewrite !(stock_text _ _ _ Et), save_string. cbn [stock_files set_stock_files].
    destruct (decide (s = k)) as [->|Hk]; [|by rewrite lookup_insert_ne].
    rewrite lookup_insert_eq. rewrite stock_string in Hp.
    apply sizes_prefix_json; [|done].
    destruct (stock_files w !! k) as [[l|]|] eqn:E; eauto.
Qed.

(** X9. No request removes an item or reorders a collection: along a run
    from a world whose documents hold sizes that are JSON values, as every
    parsed document does, the sizes a section holds at the start open, in
    the same order, the list of the sizes it holds later. *)
Theorem items_never_removed (w0 w : World) (section : JsVal) :
  json_sizes w0 ->
  reaches w0 w ->
  (item_size <$> stock w0 section)
    `prefix_of` (item_size <$> stock w section).
Proof.
  intros H0 Hr. induction Hr as [|w r Hr IH]; [done|].
  etrans; [exact IH|]. apply sizes_handle.
  by apply (json_sizes_reaches w0).
Qed.

(** *** Quantities after [/stock/in] and [/stock/out] *)

Lemma find_alter_other {A : Type} (p : A -> bool) (f : A -> A) (l : list A) (i : nat) :
  (forall x, p (f x) = p x) ->
  (forall x, l !! i = Some x -> p x = false) ->
  List.find p (alter f i l) = List.find p l.
Proof.
  intros Hf. revert i. induction l as [|a l IH]; intros [|i] Hi; cbn; try done.
  - rewrite Hf, (Hi a eq_refl). done.
  - destruct (p a); [done|]. by apply IH.
Qed.

Lemma find_push_other {A : Type} (p : A -> bool) (l : list A) (x : A) :
  p x = false -> List.find p (l ++ [x]) = List.find p l.
Proof.
  intros Hx. induction l as [|a l IH]; cbn.
  - by rewrite Hx.
  - by destruct (p a).
Qed.

(** X10. A quantity sent as a string passes the guard when it is not empty
    and not [<= 0] as a number; [+=] then appends it to the text of the
    numeric quantity in stock, and the item's quantity becomes that string
    (3 and "5" give "35"). *)
Theorem stock_in_string_concatenates (w : World) (section size : JsVal)
    (s : string) (c : Z) :
  includes sections section = true ->
  ToBoolean size = true ->
  storable size = true ->
  s <> "" ->
  js_le (JString s) (JNumber (Num 0)) = Return false ->
  quantity_of size (stock w section) = Some (JNumber (Num c)) ->
  quantity_of size
    (stock (post_stock_in w (mkBody section size (JString s))).1 section)
  = Some (JString (NumberToString (Num c) +:+ s)).
Proof.
  intros Hs Hz Hst Hne Hle Hc. rewrite stock_in_quantity_gen; [| |done..].
  - by rewrite Hc.
  - unfold invalid_input. rewrite (includes_truthy _ Hs), Hz, Hle. cbn.
    by apply String.eqb_neq in Hne as ->.
Qed.

(** X11. [/stock/out] of [q] with [0 < q <= c], where [c], at most [2^53],
    is the integer quantity in stock for a size of a known section that is
    truthy and a string, a boolean or a finite number, is accepted: the
    answer is 200 and the quantity in the answer and in the document is
    [c - q]; the item stays in the collection when that is 0. *)
Theorem stock_out_accepted (w : World) (section size : JsVal) (c q : Z) :
  includes sections section = true ->
  ToBoolean size = true ->
  storable size = true ->
  0 < q <= c ->
  c <= 2 ^ 53 ->
  quantity_of size (stock w section) = Some (JNumber (Num c)) ->
  exists sd,
    (post_stock_out w (mkBody section size (JNumber (Num q)))).2
      = Reply 200 (PSuccess sd) /\
    quantity_of size sd = Some (JNumber (Num (c - q))) /\
    quantity_of size
      (stock (post_stock_out w (mkBody section size (JNumber (Num q)))).1 section)
      = Some (JNumber (Num (c - q))).
Proof.
  intros Hs Hz Hst Hq Hb Hc.
  destruct (stock_out_quantity w section size c q Hs Hz Hst Hq Hb Hc)
    as (E & H1 & H2).
  eexists. rewrite E at 1. by split_and!.
Qed.

(** X12. A delivery followed by a withdrawal of the same quantity brings a
    size back to the integer quantity [c >= 0] it had, and leaves a size
    that was absent in the collection with quantity 0; this as long as the
    sum stays within [2^53], where adding doubles is exact. *)
Theorem stock_in_out_roundtrip (w : World) (section size : JsVal) (q : Z) :
  includes sections section = true ->
  ToBoolean size = true ->
  storable size = true ->
  0 < q ->
  let w1 := (post_stock_in w (mkBody section size (JNumber (Num q)))).1 in
  let w2 := (post_stock_out w1 (mkBody section size (JNumber (Num q)))).1 in
  (forall c, 0 <= c -> c + q <= 2 ^ 53 ->
     quantity_of size (stock w section) = Some (JNumber (Num c)) ->
     quantity_of size (stock w2 section) = Some (JNumber (Num c))) /\
  (quantity_of size (stock w section) = None ->
   q <= 2 ^ 53 ->
   quantity_of size (stock w2 section) = Some (JNumber (Num 0))).
Proof.
  intros Hs Hz Hst Hq w1 w2. subst w1 w2.
  assert (2 ^ 53 = 9007199254740992) as E53 by reflexivity. split.
  - intros c Hc Hb H0.
    destruct (stock_out_quantity
                (post_stock_in w (mkBody section size (JNumber (Num q)))).1
                section size (c + q) q) as (_ & _ & ->); try done; try lia.
    + rewrite stock_in_quantity by done. rewrite H0.
      by rewrite js_add_exact by lia.
    + do 3 f_equal. lia.
  - intros H0 Hb.
    destruct (stock_out_quantity
                (post_stock_in w (mkBody section size (JNumber (Num q)))).1
                section size q q) as (_ & _ & ->); try done; try lia.
    + rewrite stock_in_quantity by done. by rewrite H0.
    + do 3 f_equal. lia.
Qed.

(** X13. An accepted [/stock/in] or [/stock/out] of one size leaves the
    quantity recorded for every other size of the section as JSON keeps
    it. *)
Theorem other_sizes_untouched (w w' : World) (body : Body) (p : Payload)
    (size' : JsVal) :
  post_stock_in w body = (w', Reply 200 p) \/
  post_stock_out w body = (w', Reply 200 p) ->
  size' <> b_size body ->
  size' <> JNull ->
  infinite size' = false ->
  quantity_of size' (stock w' (b_section body))
    = json_value <$> quantity_of size' (stock w (b_section body)).
Proof.
  intros H Hne Hnull Hfin. destruct body as [section size quantity].
  cbn [b_section b_size] in *.
  assert (forall x, has_size size x = true -> has_size size' x = false) as Hx.
  { intros x Hx. apply has_size_ne. apply has_size_eq in Hx. congruence. }
  destruct H as [H|H].
  - apply post_stock_in_success in H
      as (Hs & _ & sd & _ & -> & [(i & x & v & E & Hi & _ & ->)|[E ->]]);
      rewrite stock_logTransaction, stock_save by done;
      rewrite quantity_of_json by done; f_equal; unfold quantity_of; f_equal.
    + apply findIndex_Some in E as (y & Hy & Hp & _).
      apply find_alter_other; [done|]. intros z Hz. apply Hx. congruence.
    + apply find_push_other. apply has_size_ne. cbn. congruence.
  - apply post_stock_out_success in H
      as (Hs & _ & sd & i & x & v & _ & -> & E & Hi & _ & _ & ->).
    rewrite stock_logTransaction, stock_save by done.
    rewrite quantity_of_json by done. f_equal. unfold quantity_of. f_equal.
    apply findIndex_Some in E as (y & Hy & Hp & _).
    apply find_alter_other; [done|]. intros z Hz. apply Hx. congruence.
Qed.

(** *** Uploads *)

Lemma quantity_of_set_row (size : JsVal) (item : ParsedRow) (l : list StockItem) :
  quantity_of size (set_row item l) =
    if applied item && strict_eq (JNumber (row_size item)) size
    then Some (JNumber (row_quantity item)) else quantity_of size l.
Proof.
  destruct (applied item) eqn:Ea; cbn [andb].
  - destruct (strict_eq (JNumber (row_size item)) size) eqn:Es.
    + apply strict_eq_eq in Es as <-. by apply set_row_quantity.
    + unfold set_row, quantity_of. unfold applied in Ea.
      apply negb_true_iff in Ea. rewrite Ea. f_equal.
      destruct (findIndex _ _) as [i|] eqn:E.
      * apply findIndex_Some in E as (x & Hi & Hp & _).
        apply find_alter_other; [done|]. intros y Hy.
        assert (y = x) as -> by congruence.
        apply has_size_eq in Hp. unfold has_size. by rewrite Hp.
      * by apply find_push_other.
  - unfold set_row. unfold applied in Ea. apply negb_false_iff in Ea.
    by rewrite Ea.
Qed.

Lemma quantity_of_fold_set_row (size : JsVal) (results : list ParsedRow)
    (l : list StockItem) :
  quantity_of size (foldl (fun l item => set_row item l) l results) =
    match last_applied size results with
    | Some q => Some q
    | None => quantity_of size l
    end.
Proof.
  revert l. induction results as [|item results IH]; intros l; [done|].
  cbn [foldl last_applied]. rewrite IH.
  destruct (last_applied size results); [done|].
  rewrite quantity_of_set_row. by destruct (_ && _).
Qed.

(** X14. Within one upload the last applied row of a size decides: after
    the request the quantity of a size that is not [null] and not infinite
    is, as JSON keeps it, the quantity of the last applied row of that size,
    and the quantity it had before when no such row exists. *)
Theorem upload_last_row_wins (w : World) (section size : JsVal)
    (file : UploadedFile) :
  includes sections section = true ->
  size <> JNull ->
  infinite size = false ->
  quantity_of size
    (stock (post_upload w (mkUpload section (Some file))).1 section)
  = json_value <$> match last_applied size (on_data <$> content file) with
                   | Some q => Some q
                   | None => quantity_of size (stock w section)
                   end.
Proof.
  intros Hs Hn Hf. rewrite post_upload_stock by done.
  rewrite quantity_of_json by done. by rewrite quantity_of_fold_set_row.
Qed.

Lemma upload_fold_skipped (section : JsVal) (results : list ParsedRow)
    (acc : list StockItem * World) :
  List.filter applied results = [] ->
  foldl (upload_item section) acc results = acc.
Proof.
  induction results as [|item results IH]; [done|]. cbn [List.filter foldl].
  destruct (applied item) eqn:Ea; [done|]. intros H.
  rewrite upload_item_skipped by done. by apply IH.
Qed.

(** X15. An upload to a known section in which no row is applied (an empty
    file among them) is answered 200 all the same, with the collection as
    it was read; the document is rewritten with that list, and the log is
    left as it is. *)
Theorem upload_all_skipped (w : World) (section : JsVal) (file : UploadedFile) :
  includes sections section = true ->
  List.filter applied (on_data <$> content file) = [] ->
  let res := post_upload w (mkUpload section (Some file)) in
  res.2 = Reply 200 (PSuccess (stock w section)) /\
  (exists name,
     section = JString name /\
     stock_files res.1
       = <[name := Parsed (json_item <$> stock w section)]> (stock_files w)) /\
  log_file res.1 = log_file w.
Proof.
  intros Hs Hf res. subst res. unfold post_upload.
  rewrite (upload_single_file _ _ file) by done.
  cbv beta iota zeta. cbn [u_section].
  erewrite upload_handler_success; [|done|cbn; apply lookup_insert_eq].
  cbv beta iota zeta. rewrite upload_fold_skipped by done.
  cbn [fst snd]. split_and!; [done| |].
  - destruct (includes_string _ Hs) as [name ->]. by exists name.
  - unfold unlinkSync. cbn [log_file set_uploads]. by rewrite log_file_save.
Qed.

(** X16. An accepted upload leaves no trace in [uploads/]: when the name
    multer picks is free, the directory after the request is the one from
    before. *)
Theorem upload_success_restores_uploads (w : World) (section : JsVal)
    (file : UploadedFile) :
  includes sections section = true ->
  uploads w !! filename (getTime (clock (ticks w))) file = None ->
  uploads (post_upload w (mkUpload section (Some file))).1 = uploads w.
Proof.
  intros Hs Hfree. unfold post_upload.
  rewrite (upload_single_file _ _ file) by done.
  cbv beta iota zeta. cbn [u_section].
  erewrite upload_handler_success; [|done|cbn; apply lookup_insert_eq].
  cbv beta iota zeta. cbn [fst]. unfold unlinkSync. cbn [uploads set_uploads].
  rewrite uploads_save, upload_fold_uploads. cbn.
  rewrite delete_insert_eq. by apply delete_id.
Qed.

(** *** The log along a run *)

Lemma logTransaction_extends (w : World) (t : TxData) (l : list Transaction) :
  log_file w = Some (Parsed l) ->
  json_log l ->
  exists l', log_file (logTransaction w t) = Some (Parsed (l ++ l')) /\
             json_log (l ++ l').
Proof.
  intros Hl Hj. rewrite (logTransaction_log _ _ _ Hl Hj).
  eexists. split; [reflexivity|]. by apply json_log_snoc.
Qed.

Lemma upload_fold_extends (section : JsVal) (results : list ParsedRow)
    (acc : list StockItem * World) (l : list Transaction) :
  log_file acc.2 = Some (Parsed l) ->
  json_log l ->
  exists l', log_file (foldl (upload_item section) acc results).2
               = Some (Parsed (l ++ l')) /\
             json_log (l ++ l').
Proof.
  revert acc l. induction results as [|x results IH]; intros [sd w] l Hl Hj.
  - exists []. by rewrite app_nil_r.
  - cbn [foldl]. cbn [snd] in Hl. destruct (applied x) eqn:Ea.
    2:{ rewrite upload_item_skipped by done. by apply IH. }
    rewrite upload_item_applied by done.
    destruct (logTransaction_extends w
      (mkTx section (JNumber (row_size x)) (JNumber (row_quantity x)) UPLOAD)
      l Hl Hj) as (l1 & Hl1 & Hj1).
    match goal with |- context [foldl _ ?a results] =>
      destruct (IH a (l ++ l1) Hl1 Hj1) as (l2 & Hl2 & Hj2)
    end.
    exists (l1 ++ l2). by rewrite app_assoc.
Qed.

Lemma log_handle_extends (w : World) (r : Request) (l : list Transaction) :
  log_file w = Some (Parsed l) ->
  json_log l ->
  exists l', log_file (handle w r).1 = Some (Parsed (l ++ l')) /\
             json_log (l ++ l').
Proof.
  intros Hl Hj.
  assert (exists l', log_file w = Some (Parsed (l ++ l')) /\ json_log (l ++ l')) as Hsame.
  { exists []. by rewrite app_nil_r. }
  destruct r as [s|body|body|req|]; cbn [handle].
  - unfold get_stock. destruct (negb _); [done|].
    by destruct (getStockData w s).
  - destruct (post_stock_in w body) as [w' r] eqn:E. cbn [fst].
    destruct (post_stock_in_failure _ _ _ _ E) as [[-> _]|[p ->]]; [done|].
    destruct body as [section size quantity].
    apply post_stock_in_success in E as (_ & _ & sd & _ & -> & _).
    apply logTransaction_extends; [by rewrite log_file_save|done].
  - destruct (post_stock_out w body) as [w' r] eqn:E. cbn [fst].
    destruct (post_stock_out_failure _ _ _ _ E) as [[-> _]|[p ->]]; [done|].
    destruct body as [section size quantity].
    apply post_stock_out_success in E as (_ & _ & sd & i & x & v & _ & -> & _).
    apply logTransaction_extends; [by rewrite log_file_save|done].
  - unfold post_upload.
    assert (log_file (upload_single w req).1 = log_file w) as Hu.
    { unfold upload_single. by destruct (u_file req). }
    destruct (upload_single w req) as [w1 file]. cbn [fst] in Hu.
    unfold upload_handler, bad_request.
    destruct (ToBoolean (u_section req)); [|cbn [fst negb orb]; by rewrite Hu].
    cbn [negb orb].
    destruct (includes sections (u_section req)) eqn:Hs;
      [|cbn [fst negb]; by rewrite Hu]. cbn [negb].
    destruct file as [path|]; [|cbn [fst]; by rewrite Hu].
    destruct (uploads w1 !! path) as [rows|]; [|cbn [fst]; by rewrite Hu].
    rewrite <- Hu in Hl. rewrite on_end_valid by done. cbn [fst].
    pose proof (upload_fold_extends (u_section req) (on_data <$> rows)
                  (stock w1 (u_section req), w1) l Hl Hj) as Hf.
    destruct (foldl _ _ _) as [sd w2]. cbn [fst snd] in *.
    unfold unlinkSync. cbn [log_file set_uploads]. by rewrite log_file_save.
  - assert ((get_logs w).1 = w) as ->; [|done].
    unfold get_logs. by destruct (log_file w) as [[?|]|].
Qed.

Lemma log_reaches_extends (w0 w : World) (l : list Transaction) :
  log_file w0 = Some (Parsed l) ->
  json_log l ->
  reaches w0 w ->
  exists l', log_file w = Some (Parsed (l ++ l')) /\ json_log (l ++ l').
Proof.
  intros Hl Hj Hr. induction Hr as [|w r Hr (l1 & Hl1 & Hj1)].
  - exists []. by rewrite app_nil_r.
  - destruct (log_handle_extends w r _ Hl1 Hj1) as (l2 & Hl2 & Hj2).
    exists (l1 ++ l2). by rewrite app_assoc.
Qed.

(** X17. The log only grows: along any run, refused requests and reads
    included, the records a readable log holds at the start stay, unchanged
    and in place, at the head of the log. *)
Theorem log_only_grows (w0 w : World) (l : list Transaction) :
  log_file w0 = Some (Parsed l) ->
  json_log l ->
  reaches w0 w ->
  exists l', log_file w = Some (Parsed (l ++ l')).
Proof.
  intros Hl Hj Hr.
  destruct (log_reaches_extends w0 w l Hl Hj Hr) as (l' & H & _). eauto.
Qed.

(** *** Numbers as text: [parseInt] on decimal digits, and the stored name *)

Lemma digit_value_pretty_char (n : N) :
  (n < 10)%N -> digit_value (pretty_N_char n) = Some (Z.of_N n).
Proof.
  intros H. rewrite <- (N2Nat.id n).
  assert (N.to_nat n < 10)%nat as Hk by lia.
  generalize dependent (N.to_nat n). intros k Hk.
  do 10 (destruct k as [|k]; [reflexivity|]). lia.
Qed.

Lemma is_decimal_pretty_char (n : N) : (n < 10)%N -> is_decimal (pretty_N_char n) = true.
Proof.
  intros H. unfold is_decimal. rewrite digit_value_pretty_char by done.
  apply Z.ltb_lt. lia.
Qed.

Lemma all_decimal_pretty_go (x : N) (s : string) :
  all_decimal s = true -> all_decimal (pretty_N_go x s) = true.
Proof.
  revert s. induction (N.lt_wf_0 x) as [x _ IH]; intros s Hs.
  destruct (decide (x = 0)%N) as [->|Hx]; [by rewrite pretty_N_go_0|].
  rewrite pretty_N_go_step by lia. apply IH.
  - apply N.div_lt; lia.
  - cbn [all_decimal]. rewrite is_decimal_pretty_char; [done|].
    apply N.mod_lt. lia.
Qed.

Lemma pretty_go_nonempty (x : N) (s : string) :
  s <> "" -> pretty_N_go x s <> "".
Proof.
  revert s. induction (N.lt_wf_0 x) as [x _ IH]; intros s Hs.
  destruct (decide (x = 0)%N) as [->|Hx]; [by rewrite pretty_N_go_0|].
  rewrite pretty_N_go_step by lia. apply IH; [|done].
  apply N.div_lt; lia.
Qed.

Lemma read_digits_pretty_go (x : N) (acc : option Z) (s : string) :
  (0 < x)%N ->
  exists k : Z,
    0 <= k /\
    read_digits 10 acc (pretty_N_go x s)
      = read_digits 10 (Some (default 0 acc * 10 ^ k + Z.of_N x)) s.
Proof.
  revert s. induction (N.lt_wf_0 x) as [x _ IH]; intros s Hx.
  rewrite pretty_N_go_step by done.
  assert (Z.of_N x = 10 * Z.of_N (x `div` 10) + Z.of_N (x `mod` 10)) as Hdm.
  { rewrite <- (N2Z.inj_mul 10), <- N2Z.inj_add. f_equal. apply N.div_mod. lia. }
  assert (x `mod` 10 < 10)%N as Hm by (apply N.mod_lt; lia).
  assert ((Z.of_N (x `mod` 10) <? 10) = true) as Hlt.
  { apply Z.ltb_lt. change 10 with (Z.of_N 10). by apply N2Z.inj_lt. }
  destruct (decide (x `div` 10 = 0)%N) as [H0|H0].
  - rewrite H0, pretty_N_go_0. exists 1. split; [lia|].
    cbn [read_digits]. rewrite digit_value_pretty_char by done.
    rewrite Hlt.
    do 2 f_equal. rewrite H0 in Hdm. lia.
  - destruct (IH (x `div` 10)%N) with (s := String (pretty_N_char (x `mod` 10)) s)
      as (k & Hk & ->); [apply N.div_lt; lia|by apply N.neq_0_lt_0|].
    exists (k + 1). split; [lia|].
    cbn [read_digits]. rewrite digit_value_pretty_char by done.
    rewrite Hlt.
    do 2 f_equal. cbn [default]. unfold id.
    rewrite Z.pow_add_r, Z.pow_1_r, Z.mul_assoc by lia.
    generalize (default 0 acc * 10 ^ k). intros m. lia.
Qed.

Lemma decimal_char_plain (c : ascii) :
  is_decimal c = true ->
  is_white c = false /\ (Ascii.nat_of_ascii c < 128)%nat /\
  c <> "-"%char /\ c <> "+"%char /\ c <> "x"%char /\ c <> "X"%char.
Proof.
  destruct c as [[] [] [] [] [] [] [] []]; cbv; intros H;
    try discriminate H; split_and!; (congruence || lia).
Qed.

Lemma skip_white_plain (c : ascii) (r : string) :
  is_white c = false -> (Ascii.nat_of_ascii c < 128)%nat ->
  skip_white (String c r) = String c r.
Proof.
  intros Hw Hc. cbn [skip_white]. rewrite Hw.
  destruct r as [|c2 r2]; [done|].
  assert (is_white2 c c2 = false) as ->.
  { unfold is_white2. apply andb_false_iff. left. apply Nat.eqb_neq. lia. }
  destruct r2 as [|c3 r3]; [done|].
  assert (is_white3 c c2 c3 = false) as ->; [|done].
  unfold is_white3.
  replace (Ascii.nat_of_ascii c =? 225)%nat with false by (symmetry; apply Nat.eqb_neq; lia).
  replace (Ascii.nat_of_ascii c =? 226)%nat with false by (symmetry; apply Nat.eqb_neq; lia).
  replace (Ascii.nat_of_ascii c =? 227)%nat with false by (symmetry; apply Nat.eqb_neq; lia).
  replace (Ascii.nat_of_ascii c =? 239)%nat with false by (symmetry; apply Nat.eqb_neq; lia).
  done.
Qed.

Lemma parse_decimal (t : string) :
  all_decimal t = true -> t <> "" ->
  skip_white t = t /\ strip_sign t = (1, t) /\ strip_radix t = (10, t).
Proof.
  destruct t as [|c r]; [done|]. cbn [all_decimal]. intros H _.
  apply andb_prop in H as [Hc Hr].
  destruct (decimal_char_plain c Hc) as (Hw & Hlow & Hm & Hp & _).
  split_and!.
  - by apply skip_white_plain.
  - unfold strip_sign.
    destruct c as [[] [] [] [] [] [] [] []]; try reflexivity; congruence.
  - unfold strip_radix. destruct r as [|c2 r2].
    + destruct c as [[] [] [] [] [] [] [] []]; reflexivity.
    + cbn [all_decimal] in Hr. apply andb_prop in Hr as [Hc2 _].
      destruct (decimal_char_plain c2 Hc2) as (_ & _ & _ & _ & Hx & HX).
      destruct c as [[] [] [] [] [] [] [] []]; try reflexivity.
      destruct c2 as [[] [] [] [] [] [] [] []]; try reflexivity; congruence.
Qed.

Lemma parseInt_string_positive (p : positive) :
  parseInt_string (pretty (Zpos p)) = round_dyadic (Zpos p) 0 /\
  parseInt_string (pretty (Zneg p)) = round_dyadic (Zneg p) 0.
Proof.
  assert (pretty (Zpos p) = pretty_N_go (Npos p) "") as Hp by reflexivity.
  assert (pretty (Zneg p) = String "-" (pretty_N_go (Npos p) "")) as Hn
    by reflexivity.
  destruct (parse_decimal (pretty_N_go (Npos p) "")) as (Hw & Hs & Hr).
  { by apply all_decimal_pretty_go. }
  { rewrite pretty_N_go_step by lia. by apply pretty_go_nonempty. }
  destruct (read_digits_pretty_go (Npos p) None "") as (k & _ & Hd); [lia|].
  cbn [default] in Hd. rewrite Z.mul_0_l, Z.add_0_l in Hd.
  change (Z.of_N (N.pos p)) with (Z.pos p) in Hd.
  change (read_digits 10 (Some (Z.pos p)) "") with (Some (Z.pos p)) in Hd.
  split.
  - rewrite Hp. unfold parseInt_string. rewrite Hw, Hs, Hr, Hd. done.
  - rewrite Hn. unfold parseInt_string.
    rewrite skip_white_plain by (reflexivity || (cbv; lia)).
    cbn [strip_sign]. rewrite Hr, Hd. done.
Qed.

Lemma parseInt_pretty (z : Z) : parseInt (Some (pretty z)) = round_dyadic z 0.
Proof.
  destruct z as [|p|p]; unfold parseInt; cbn [default]; [reflexivity|..];
    apply parseInt_string_positive.
Qed.

(** X18. [parseInt] reads the decimal text of an integer as the double
    nearest to it, which is that integer up to [2^53] in size; so a csv row
    whose two cells are the decimal texts of [s] and [q] is read as the
    doubles nearest to [s] and [q]. *)
Theorem parseInt_decimal (z s q : Z) :
  parseInt (Some (pretty z)) = round_dyadic z 0 /\
  on_data (row (pretty s) (pretty q))
    = mkRow (round_dyadic s 0) (round_dyadic q 0) /\
  (- 2 ^ 53 <= z <= 2 ^ 53 -> parseInt (Some (pretty z)) = Num z).
Proof.
  split_and!.
  - apply parseInt_pretty.
  - unfold on_data, row.
    rewrite lookup_insert_eq, lookup_insert_ne by done.
    rewrite lookup_singleton_eq. by rewrite !parseInt_pretty.
  - intros H. by rewrite parseInt_pretty, round_dyadic_exact.
Qed.

Lemma string_length_app (s t : string) :
  String.length (s +:+ t) = (String.length s + String.length t)%nat.
Proof.
  induction s as [|c s IH]; [done|].
  change (String.length (String c s +:+ t)) with (S (String.length (s +:+ t))).
  by rewrite IH.
Qed.

Lemma string_app_inv_tail (s1 s2 t : string) : s1 +:+ t = s2 +:+ t -> s1 = s2.
Proof.
  revert s2. induction s1 as [|c s1 IH]; intros [|c2 s2] H.
  - done.
  - apply (f_equal String.length) in H. rewrite !string_length_app in H.
    change (String.length (String c2 s2)) with (S (String.length s2)) in H.
    change (String.length "") with O in H. lia.
  - apply (f_equal String.length) in H. rewrite !string_length_app in H.
    change (String.length (String c s1)) with (S (String.length s1)) in H.
    change (String.length "") with O in H. lia.
  - change (String c (s1 +:+ t) = String c2 (s2 +:+ t)) in H.
    injection H as -> H. f_equal. by apply IH.
Qed.

(** X19. The name multer stores a file under determines the clock reading
    it was built from: two uploads of one file at different readings get
    different names, so neither overwrites the other. *)
Theorem filename_injective (a b : Z) (file : UploadedFile) :
  a <> b -> filename a file <> filename b file.
Proof.
  unfold filename. intros Hab H. apply Hab.
  assert (pretty a +:+ extname (originalname file)
          = pretty b +:+ extname (originalname file)) as H'.
  { by injection H. }
  apply string_app_inv_tail in H'. by apply (inj pretty).
Qed.

(** *** A new size, numeric quantities, and uploads in pieces *)

(** X20. A delivery of a truthy size that the section does not hold adds
    one item, with the request's size and quantity, after the items that
    were there; the answer carries that list and the document stores it, as
    JSON keeps it. *)
Theorem stock_in_new_size (w : World) (section size : JsVal) (q : Z) :
  includes sections section = true ->
  ToBoolean size = true ->
  0 < q ->
  (forall x, x ∈ stock w section -> item_size x <> size) ->
  let res := post_stock_in w (mkBody section size (JNumber (Num q))) in
  res.2 = Reply 200 (PSuccess (stock w section
                                ++ [mkItem size (JNumber (Num q))])) /\
  stock res.1 section
    = (json_item <$> stock w section)
        ++ [mkItem (json_value size) (JNumber (Num q))].
Proof.
  intros Hs Hz Hq Habs res. subst res.
  rewrite post_stock_in_valid by (done || by apply valid_input).
  assert (findIndex (has_size size) (stock w section) = None) as ->.
  { apply findIndex_None. intros x Hx. apply has_size_ne. by apply Habs. }
  cbn [mbind Try_bind mret Try_ret uncaught catch fst snd]. split; [done|].
  by rewrite stock_logTransaction, stock_save, fmap_app.
Qed.

Lemma normalize_nonneg (m : Z) (k : nat) : 0 <= m -> num_nonneg (normalize m k).
Proof.
  revert m. induction k as [|k IH]; intros m Hm; cbn [normalize]; [done|].
  destruct (Z.even m) eqn:E.
  - apply IH. by apply Z.div_pos.
  - cbn. destruct (decide (m = 0)) as [->|]; [done|lia].
Qed.

(** Rounding keeps the sign: what is not negative rounds to a double that
    is not negative, or overflows to the positive infinity. *)
Lemma round_dyadic_nonneg (s K : Z) :
  0 <= s ->
  num_nonneg (round_dyadic s K) \/ round_dyadic s K = Infinity false.
Proof.
  intros Hs. unfold round_dyadic.
  destruct (s =? 0) eqn:E0; [by left|]. apply Z.eqb_neq in E0.
  assert (Z.abs s = s) as -> by lia.
  assert (Z.sgn s = 1) as -> by lia.
  assert ((s <? 0) = false) as -> by lia.
  cbv zeta. set (u := Z.max (Z.log2 s - K - 52) (-1074)).
  destruct (K + u <=? 0); [left; by apply normalize_nonneg|].
  set (M0 := s / 2 ^ (K + u)).
  assert (0 <= M0) as HM0.
  { apply Z_div_nonneg_nonneg; [done|]. by apply Z.pow_nonneg. }
  match goal with |- context [if ?c then M0 + 1 else M0] =>
    assert (0 <= (if c then M0 + 1 else M0)) as HM by (destruct c; lia);
    generalize dependent (if c then M0 + 1 else M0)
  end.
  intros M HM. destruct (0 <=? u).
  - destruct (_ <=? _); [by right|]. left. cbn.
    pose proof (Z.pow_nonneg 2 u). nia.
  - left. apply normalize_nonneg. lia.
Qed.

Lemma num_add_nonneg (a b : JsNum) :
  num_nonneg a -> num_nonneg b ->
  num_nonneg (num_add a b) \/ num_add a b = Infinity false.
Proof.
  destruct a as [|?|x|m k], b as [|?|y|n j]; cbn [num_nonneg]; try done;
    intros Ha Hb; cbn [num_add dyadic]; cbv zeta;
    apply round_dyadic_nonneg;
    match goal with |- 0 <= ?p * 2 ^ ?e + ?q * 2 ^ ?f =>
      pose proof (Z.pow_nonneg 2 e); pose proof (Z.pow_nonneg 2 f); nia
    end.
Qed.

(** A difference the guard of [/stock/out] lets through is not negative. *)
Lemma num_sub_nonneg (a : JsNum) (q : Z) :
  num_nonneg a -> num_ltb a (Num q) = Some false ->
  num_nonneg (num_sub a (Num q)) \/ num_sub a (Num q) = Infinity false.
Proof.
  destruct a as [|?|x|m k]; cbn [num_nonneg]; try done;
    intros Ha; unfold num_sub; cbn [num_opp num_add num_ltb dyadic]; cbv zeta;
    intros [= Hlt]; apply Z.ltb_ge in Hlt; apply round_dyadic_nonneg;
    rewrite Z.mul_opp_l; lia.
Qed.

(** A quantity that is stored as [null] or as a number that is not
    negative. *)
Lemma nonnegative_json (l : list StockItem) :
  Forall (fun i => json_value (item_quantity i) = JNull \/
                   exists n, json_value (item_quantity i) = JNumber n /\
                             num_nonneg n) l ->
  nonnegative (json_item <$> l).
Proof. unfold nonnegative. by rewrite Forall_fmap. Qed.

Lemma nonnegative_stored (l : list StockItem) :
  nonnegative l ->
  Forall (fun i => json_value (item_quantity i) = JNull \/
                   exists n, json_value (item_quantity i) = JNumber n /\
                             num_nonneg n) l.
Proof.
  intros H. eapply Forall_impl; [exact H|].
  intros x [->|(n & -> & Hn)]; [by left|]. right.
  exists n. by destruct n.
Qed.

Lemma nonnegative_stock (w : World) (section : JsVal) :
  all_nonnegative w -> nonnegative (stock w section).
Proof.
  intros H. unfold stock, getStockData.
  destruct (ToString section) as [s|e]; cbn.
  - destruct (stock_files w !! s) as [[l|]|] eqn:E; cbn;
      [by eapply H|apply Forall_nil_2..].
  - destruct (ToString section); apply Forall_nil_2.
Qed.

Lemma all_nonnegative_save (w : World) (section : JsVal) (sd : list StockItem) :
  all_nonnegative w ->
  nonnegative (json_item <$> sd) ->
  all_nonnegative (save w section sd).
Proof.
  intros Hw Hsd. unfold save, saveStockData.
  destruct (ToString section) as [s|e]; cbn.
  - intros key l. cbn. rewrite lookup_insert. case_decide.
    + by intros [= <-].
    + apply Hw.
  - by destruct (ToString section).
Qed.

Lemma all_nonnegative_log (w : World) (t : TxData) :
  all_nonnegative w -> all_nonnegative (logTransaction w t).
Proof. unfold all_nonnegative. by rewrite stock_files_logTransaction. Qed.

Lemma stored_number (n : JsNum) :
  num_nonneg n \/ n = Infinity false ->
  json_value (JNumber n) = JNull \/
  exists m, json_value (JNumber n) = JNumber m /\ num_nonneg m.
Proof.
  intros [H| ->]; [|by left]. right. exists n. by destruct n.
Qed.

Lemma valid_input_positive (section size : JsVal) (q : Z) :
  invalid_input section size (JNumber (Num q)) = Return false -> 0 < q.
Proof.
  unfold invalid_input. destruct (_ || _); [done|]. rewrite js_le_Num.
  intros [= H]. apply negb_false_iff in H. lia.
Qed.

(** X21. The two routes [/stock/in] and [/stock/out] keep quantities from
    going below 0: when every stored quantity is [null] or a number that is
    not negative, and the request's quantity is an integer, the same holds
    after the request, accepted or not (a sum that overflows is stored as
    [null]). *)
Theorem stock_routes_keep_nonnegative (w : World) (section size : JsVal) (q : Z) :
  all_nonnegative w ->
  all_nonnegative (post_stock_in w (mkBody section size (JNumber (Num q)))).1 /\
  all_nonnegative (post_stock_out w (mkBody section size (JNumber (Num q)))).1.
Proof.
  intros Hw.
  pose proof (nonnegative_stock w section Hw) as Hl. split.
  - destruct (post_stock_in w _) as [w' r] eqn:E. cbn [fst].
    destruct (post_stock_in_failure _ _ _ _ E) as [[-> _]|[p ->]]; [done|].
    apply post_stock_in_success in E
      as (Hs & Hv & sd & _ & -> & [(i & x & v & _ & Hi & Ha & ->)|[_ ->]]);
      apply valid_input_positive in Hv;
      apply all_nonnegative_log, all_nonnegative_save; try done;
      apply nonnegative_json.
    + apply Forall_alter; [by apply nonnegative_stored|].
      intros y Hy _. assert (y = x) as -> by congruence.
      cbn [set_quantity item_quantity].
      pose proof (proj1 (Forall_lookup _ _) Hl i x Hi) as [Hq|(n & Hq & Hn)];
        rewrite Hq in Ha.
      * change (js_add JNull (JNumber (Num q)))
          with (Return (JNumber (num_add (Num 0) (Num q)))) in Ha.
        assert (v = JNumber (num_add (Num 0) (Num q))) as -> by congruence.
        apply stored_number. apply num_add_nonneg; cbn; lia.
      * rewrite js_add_Num in Ha.
        assert (v = JNumber (num_add n (Num q))) as -> by congruence.
        apply stored_number. apply num_add_nonneg; [done|]. cbn. lia.
    + apply Forall_app. split; [by apply nonnegative_stored|].
      apply Forall_singleton. right. exists (Num q). cbn. split; [done|lia].
  - destruct (post_stock_out w _) as [w' r] eqn:E. cbn [fst].
    destruct (post_stock_out_failure _ _ _ _ E) as [[-> _]|[p ->]]; [done|].
    apply post_stock_out_success in E
      as (Hs & Hv & sd & i & x & v & _ & -> & _ & Hi & Hlt & Ha & ->).
    apply valid_input_positive in Hv.
    apply all_nonnegative_log, all_nonnegative_save; try done.
    apply nonnegative_json.
    apply Forall_alter; [by apply nonnegative_stored|].
    intros y Hy _. assert (y = x) as -> by congruence.
    cbn [set_quantity item_quantity].
    pose proof (proj1 (Forall_lookup _ _) Hl i x Hi) as [Hq|(n & Hq & Hn)];
      rewrite Hq in Ha, Hlt.
    + exfalso.
      change (js_lt JNull (JNumber (Num q)))
        with (js_lt (JNumber (Num 0)) (JNumber (Num q))) in Hlt.
      rewrite js_lt_Num in Hlt. injection Hlt as Hlt. lia.
    + rewrite js_sub_Num in Ha.
      assert (v = JNumber (num_sub n (Num q))) as -> by congruence.
      apply stored_number. apply num_sub_nonneg; [done|].
      change (js_lt (JNumber n) (JNumber (Num q)))
        with (Return (default false (num_ltb n (Num q)))) in Hlt.
      destruct (num_ltb n (Num q)) as [[|]|] eqn:En; try done.
      exfalso. by destruct n.
Qed.

Lemma json_value_finite (v : JsVal) : infinite (json_value v) = false.
Proof. by destruct v as [| | |[| | |]| | |]. Qed.

Lemma strict_eq_NaN (v : JsVal) : strict_eq v (JNumber NaN) = false.
Proof. by destruct v as [| | |[| | |]| | |]. Qed.

(** An item without an infinite size and its stored form. *)
Lemma alike_json (a : StockItem) :
  infinite (item_size a) = false -> alike (json_item a) a.
Proof.
  intros Ha. split.
  - unfold json_item. cbn. by rewrite !json_value_idemp.
  - intros n. destruct n as [|b|z|m k].
    + unfold has_size. by rewrite !strict_eq_NaN.
    + unfold has_size. rewrite !strict_eq_ne; [done|..].
      * by intros E; rewrite E in Ha.
      * intros E. pose proof (json_value_finite (item_size a)) as H.
        cbn [json_item item_size] in E. by rewrite E in H.
    + by apply has_size_json.
    + by apply has_size_json.
Qed.

Lemma alike_refl (a : StockItem) : alike a a.
Proof. by split. Qed.

Lemma alike_set_quantity (q : JsVal) (a b : StockItem) :
  alike a b -> alike (set_quantity q a) (set_quantity q b).
Proof.
  intros [Hj Hn]. split; [|exact Hn].
  unfold json_item, set_quantity in *. cbn in *. congruence.
Qed.

Lemma findIndex_alike (n : JsNum) (A B : list StockItem) :
  Forall2 alike A B ->
  findIndex (has_size (JNumber n)) A = findIndex (has_size (JNumber n)) B.
Proof.
  induction 1 as [|a b A B [_ Hab] _ IH]; [done|]. cbn.
  by rewrite Hab, IH.
Qed.

Lemma alter_alike (q : JsVal) (i : nat) (A B : list StockItem) :
  Forall2 alike A B ->
  Forall2 alike (alter (set_quantity q) i A) (alter (set_quantity q) i B).
Proof.
  intros H. revert i. induction H as [|a b A B Hab HAB IH]; intros [|i]; cbn;
    constructor; auto using alike_set_quantity.
Qed.

Lemma set_row_alike (item : ParsedRow) (A B : list StockItem) :
  Forall2 alike A B -> Forall2 alike (set_row item A) (set_row item B).
Proof.
  intros H. unfold set_row. destruct (_ || _); [done|].
  rewrite (findIndex_alike _ A B H). destruct (findIndex _ B).
  - by apply alter_alike.
  - apply Forall2_app; [done|]. constructor; [apply alike_refl|constructor].
Qed.

Lemma fold_set_row_alike (results : list ParsedRow) (A B : list StockItem) :
  Forall2 alike A B ->
  Forall2 alike (foldl (fun l item => set_row item l) A results)
                (foldl (fun l item => set_row item l) B results).
Proof.
  revert A B. induction results as [|item results IH]; intros A B H; [done|].
  cbn [foldl]. by apply IH, set_row_alike.
Qed.

Lemma alike_stored (A B : list StockItem) :
  Forall2 alike A B -> json_item <$> A = json_item <$> B.
Proof. induction 1 as [|a b A B [Hab _] _ IH]; [done|]. cbn. by rewrite Hab, IH. Qed.

Lemma set_row_finite (item : ParsedRow) (l : list StockItem) :
  infinite (JNumber (row_size item)) = false ->
  Forall (fun i => infinite (item_size i) = false) l ->
  Forall (fun i => infinite (item_size i) = false) (set_row item l).
Proof.
  intros Hi Hl. unfold set_row. destruct (_ || _); [done|].
  destruct (findIndex _ l).
  - apply Forall_alter; [done|]. by intros x _ Hx.
  - apply Forall_app. split; [done|]. by apply Forall_singleton.
Qed.

Lemma fold_set_row_finite (results : list ParsedRow) (l : list StockItem) :
  Forall (fun r => infinite (JNumber (row_size r)) = false) results ->
  Forall (fun i => infinite (item_size i) = false) l ->
  Forall (fun i => infinite (item_size i) = false)
         (foldl (fun l item => set_row item l) l results).
Proof.
  intros Hr. revert l. induction Hr as [|item results Hi _ IH]; intros l Hl;
    [done|].
  cbn [foldl]. by apply IH, set_row_finite.
Qed.

(** X22. An upload can be cut in two: when no size in stock and no size of
    the first rows is infinite, sending the rows of a file in two uploads,
    the first rows then the rest, leaves the section's collection as
    sending them in one upload does. *)
Theorem upload_splits (w : World) (section : JsVal) (n1 n2 n : string)
    (rows1 rows2 : list CsvRow) :
  includes sections section = true ->
  Forall (fun i => infinite (item_size i) = false) (stock w section) ->
  Forall (fun r => infinite (JNumber (row_size r)) = false) (on_data <$> rows1) ->
  let w1 := (post_upload w (mkUpload section (Some (mkFile n1 rows1)))).1 in
  let w2 := (post_upload w1 (mkUpload section (Some (mkFile n2 rows2)))).1 in
  let w12 := (post_upload w (mkUpload section (Some (mkFile n (rows1 ++ rows2))))).1 in
  stock w2 section = stock w12 section.
Proof.
  intros Hs Hl Hr w1 w2 w12. subst w1 w2 w12. rewrite !post_upload_stock by done.
  cbn [content]. rewrite fmap_app, foldl_app.
  apply alike_stored, fold_set_row_alike.
  pose proof (fold_set_row_finite _ _ Hr Hl) as Hf.
  induction Hf as [|a A Ha _ IH]; [constructor|].
  cbn. constructor; [by apply alike_json|done].
Qed.

Lemma all_nonnegative_fresh : all_nonnegative fresh.
Proof.
  intros key l. unfold fresh. rewrite startup_lookup. unfold empty_disk. cbn.
  rewrite lookup_empty. case_decide; [|done]. intros [= <-]. apply Forall_nil_2.
Qed.
End Server.

(** ** The properties on concrete runs

    The parameters are [dec_text], [dec_number] and [ms_clock]; the service
    has just been started on an empty disk. *)

(** The scenario of a section that receives 5 then 3 of size 10, is asked
    for 20, then for 8. *)
Example scenario_in_in_out_out :
  stock_files
    (run dec_text dec_number ms_clock fresh
       [PostStockIn (body "A" 10 5); PostStockIn (body "A" 10 3);
        PostStockOut (body "A" 10 20); PostStockOut (body "A" 10 8)])
    !! "A" = Some (Parsed [stock_item 10 0]).
Proof. vm_compute. reflexivity. Qed.

(** An upload with two malformed rows applies the third only. *)
Example scenario_upload_skips :
  (post_upload dec_text ms_clock fresh
     (csv_upload "A" [row "10" "5"; row "abc" "3"; row "12" "x"])).2
  = Reply 200 (PSuccess [stock_item 10 5]).
Proof. vm_compute. reflexivity. Qed.

Example parseInt_10 : parseInt (Some "10") = Num 10.
Proof. reflexivity. Qed.

Example parseInt_abc : parseInt (Some "abc") = NaN.
Proof. reflexivity. Qed.

Example parseInt_neg : parseInt (Some " -5 pairs") = Num (-5).
Proof. reflexivity. Qed.

Example parseInt_hex : parseInt (Some "0x1f") = Num 31.
Proof. reflexivity. Qed.

Example parseInt_missing : parseInt None = NaN.
Proof. reflexivity. Qed.

(** A no-break space (U+00A0, the bytes C2 A0) in front of the digits is
    white space. *)
Example parseInt_no_break_space :
  parseInt (Some (String (ascii_of_nat 194) (String (ascii_of_nat 160) "7")))
    = Num 7.
Proof. reflexivity. Qed.

(** Beyond [2^53] the value is rounded, and a cell of 401 digits is
    infinite. *)
Example parseInt_rounds :
  parseInt (Some "9007199254740993") = Num 9007199254740992.
Proof. vm_compute. reflexivity. Qed.

Example parseInt_overflows :
  parseInt (Some (pretty (10 ^ 400))) = Infinity false.
Proof. vm_compute. reflexivity. Qed.

Example doubles :
  is_double (Num 9007199254740992) = true /\
  is_double (Num 9007199254740993) = false /\
  is_double (Frac 1 1074) = true /\
  is_double (Frac 1 1075) = false /\
  is_double (Frac 2 3) = false.
Proof. vm_compute. by split_and!. Qed.

Example sum_rounds :
  num_add (Num 9007199254740992) (Num 1) = Num 9007199254740992.
Proof. vm_compute. reflexivity. Qed.

(** Two strings are compared as texts, a string and a number as numbers. *)
Example compare_strings :
  js_lt dec_text dec_number (JString "10") (JString "9")
    = Return true /\
  js_lt dec_text dec_number (JString "10") (JNumber (Num 9))
    = Return false.
Proof. split; reflexivity. Qed.

(** The text of an array and of two objects. *)
Example ToString_array :
  ToString dec_text
    (JArray [JNumber (Num 1); JNull; JArray [JString "a"; JBool true]])
  = Return "1,,a,true".
Proof. reflexivity. Qed.

Example ToString_object :
  ToString dec_text (JObject [("size", JNumber (Num 1))])
    = Return "[object Object]" /\
  ToString dec_text (JObject [("toString", JNumber (Num 1))])
    = Throw TypeError.
Proof. split; reflexivity. Qed.

(** A quantity that has no primitive value: the handler throws at its
    first guard, the answer is the error page, the world is untouched. *)
Example stock_in_throws :
  post_stock_in dec_text dec_number ms_clock fresh
    (mkBody (JString "A") (JNumber (Num 10))
            (JObject [("toString", JNumber (Num 1))]))
  = (fresh, Reply 500 PErrorPage).
Proof. vm_compute. reflexivity. Qed.

(** An infinite size (1e999 in the body) is stored as [null] and never
    found again. *)
Example stock_in_infinite_size_twice :
  stock_files
    (run dec_text dec_number ms_clock fresh
       [PostStockIn (mkBody (JString "A") (JNumber (Infinity false)) (JNumber (Num 5)));
        PostStockIn (mkBody (JString "A") (JNumber (Infinity false)) (JNumber (Num 5)))])
    !! "A"
  = Some (Parsed [mkItem JNull (JNumber (Num 5)); mkItem JNull (JNumber (Num 5))]).
Proof. vm_compute. reflexivity. Qed.

(** C1. A row of quantity -5 passes the only test of [forEach], [isNaN],
    and is stored: after the upload the collection of section A holds size
    10 with quantity -5. *)
Theorem upload_negative_quantity :
  post_upload dec_text ms_clock fresh
    (csv_upload "A" [row "10" "-5"])
  = (mkWorld (<["A" := Parsed [stock_item 10 (-5)]]> (stock_files fresh))
             (Some (Parsed [mkLogged (mkTx (JString "A") (JNumber (Num 10))
                                           (JNumber (Num (-5))) UPLOAD)
                                     (toISOString (ms_clock 1))]))
             ∅ 2,
     Reply 200 (PSuccess [stock_item 10 (-5)])).
Proof. vm_compute. reflexivity. Qed.

(** C3. An upload whose section is not known is answered 400 "Invalid
    section" while the file multer stored stays in [uploads/]. *)
Theorem upload_invalid_section_keeps_file :
  post_upload dec_text ms_clock fresh
    (csv_upload "Z" [row "10" "5"])
  = (mkWorld (stock_files fresh) (log_file fresh)
             {[ "file-1762041600000.csv" := [row "10" "5"] ]} 1,
     Reply 400 (PError "Invalid section")).
Proof. vm_compute. reflexivity. Qed.

(** The collection of section A of a fresh service is read as the empty
    list. *)
Lemma getStockData_total_witness :
  exists filePath,
    ToString dec_text (JString "A") = Return filePath /\
    getStockData dec_text fresh (JString "A") =
      Return match stock_files fresh !! filePath with
             | Some (Parsed l) => l
             | Some Unparsable => []
             | None => []
             end.
Proof. apply getStockData_total. reflexivity. Defined.

(** The guard at size 0: the request is refused before the stock is read. *)
Lemma falsy_field_rejected_size_zero :
  post_stock_in dec_text dec_number ms_clock fresh (body "A" 0 5)
    = (fresh, Reply 400 (PError "Invalid input data")) /\
  post_stock_out dec_text dec_number ms_clock fresh (body "A" 0 5)
    = (fresh, Reply 400 (PError "Invalid input data")).
Proof. apply falsy_field_rejected. reflexivity. Defined.

(** No item of size 12 in section A after a delivery of size 10. *)
Lemma stock_out_item_not_found_witness :
  post_stock_out dec_text dec_number ms_clock
    (run dec_text dec_number ms_clock fresh [PostStockIn (body "A" 10 5)])
    (body "A" 12 1)
  = (run dec_text dec_number ms_clock fresh [PostStockIn (body "A" 10 5)],
     Reply 400 (PError "Item not found in stock")).
Proof.
  apply (stock_out_item_not_found dec_text dec_number ms_clock
           _ (JString "A") (JNumber (Num 12)) 1).
  - reflexivity.
  - reflexivity.
  - lia.
  - intros x Hx. vm_compute in Hx.
    apply list_elem_of_singleton in Hx as ->. discriminate.
Defined.

(** Size 0 with nothing in stock: the answer is "Invalid input data", not
    "Item not found in stock". *)
Lemma stock_out_size_zero_not_item_not_found :
  includes sections (JString "A") = true /\
  (forall x, x ∈ stock dec_text fresh (JString "A") ->
             item_size x <> JNumber (Num 0)) /\
  0 < 5 /\
  post_stock_out dec_text dec_number ms_clock fresh (body "A" 0 5)
    <> (fresh, Reply 400 (PError "Item not found in stock")).
Proof.
  split_and!; [reflexivity| |lia|].
  - intros x Hx. vm_compute in Hx. by apply elem_of_nil in Hx.
  - vm_compute. discriminate.
Qed.

(** 8 of size 10 in stock, 20 asked. *)
Lemma stock_out_insufficient_witness :
  post_stock_out dec_text dec_number ms_clock
    (run dec_text dec_number ms_clock fresh [PostStockIn (body "A" 10 8)])
    (body "A" 10 20)
  = (run dec_text dec_number ms_clock fresh [PostStockIn (body "A" 10 8)],
     Reply 400 (PError "Not enough stock available")).
Proof.
  apply (stock_out_insufficient dec_text dec_number ms_clock
           _ (JString "A") (JNumber (Num 10)) 8 20).
  - reflexivity.
  - reflexivity.
  - reflexivity.
  - lia.
  - lia.
  - vm_compute. apply NoDup_singleton.
  - vm_compute. apply list_elem_of_here.
Defined.

(** Size 0 reaches a collection through an upload; asking 10 of it when 5
    are there is answered "Invalid input data", not "Not enough stock
    available". *)
Lemma stock_out_size_zero_not_insufficient :
  stock_item 0 5
    ∈ stock dec_text
        (post_upload dec_text ms_clock fresh
           (csv_upload "A" [row "0" "5"])).1 (JString "A") /\
  5 < 10 /\
  (post_stock_out dec_text dec_number ms_clock
     (post_upload dec_text ms_clock fresh
        (csv_upload "A" [row "0" "5"])).1
     (body "A" 0 10)).2
    <> Reply 400 (PError "Not enough stock available").
Proof.
  split_and!; [|lia|].
  - vm_compute. apply list_elem_of_here.
  - vm_compute. discriminate.
Qed.

(** Two deliveries of size 10, to an empty section and to one holding 5. *)
Lemma stock_in_twice_witness :
  quantity_of (JNumber (Num 10))
    (stock dec_text
       (run dec_text dec_number ms_clock fresh
          [PostStockIn (body "A" 10 1); PostStockIn (body "A" 10 2)])
       (JString "A"))
    = Some (JNumber (Num 3)) /\
  quantity_of (JNumber (Num 10))
    (stock dec_text
       (run dec_text dec_number ms_clock fresh
          [PostStockIn (body "A" 10 5); PostStockIn (body "A" 10 1);
           PostStockIn (body "A" 10 2)])
       (JString "A"))
    = Some (JNumber (Num 8)).
Proof.
  split.
  - destruct (stock_in_twice dec_text dec_number ms_clock fresh
                (JString "A") (JNumber (Num 10)) 1 2 eq_refl eq_refl eq_refl
                ltac:(lia) ltac:(lia)) as [Habsent _].
    apply Habsent; [vm_compute; reflexivity|vm_compute; discriminate].
  - destruct (stock_in_twice dec_text dec_number ms_clock
                (run dec_text dec_number ms_clock fresh [PostStockIn (body "A" 10 5)])
                (JString "A") (JNumber (Num 10)) 1 2 eq_refl eq_refl eq_refl
                ltac:(lia) ltac:(lia)) as [_ Hpresent].
    apply (Hpresent 5);
      [vm_compute; reflexivity|vm_compute; discriminate..].
Defined.

(** With 5 of size 10 in stock, deliveries of 1 and 2 leave 8, not 1 + 2. *)
Lemma stock_in_twice_present_not_sum :
  0 < 1 /\ 0 < 2 /\
  quantity_of (JNumber (Num 10))
    (stock dec_text
       (run dec_text dec_number ms_clock fresh
          [PostStockIn (body "A" 10 5); PostStockIn (body "A" 10 1);
           PostStockIn (body "A" 10 2)])
       (JString "A"))
    <> Some (JNumber (Num (1 + 2))).
Proof. split_and!; [lia..|]. vm_compute. discriminate. Qed.

(** Section A after two deliveries and an upload that repeats a size. *)
Lemma one_item_per_size_witness :
  unique_sizes [stock_item 10 7; stock_item 12 4].
Proof.
  apply (one_item_per_size dec_text dec_number ms_clock fresh
           (run dec_text dec_number ms_clock fresh
              [PostStockIn (body "A" 10 5); PostStockIn (body "A" 10 3);
               PostUpload (csv_upload "A" [row "12" "9"; row "10" "7"; row "12" "4"])])
           collections_ok_fresh (reaches_run _ _ _ _ _) "A").
  vm_compute. reflexivity.
Defined.

(** Two deliveries whose size is the array [[10]]: the second does not
    find the item of the first, whose size is another array, and section A
    holds two items of one size. *)
Lemma stock_in_array_size_twice :
  stock_files
    (run dec_text dec_number ms_clock fresh
       [PostStockIn (mkBody (JString "A") (JArray [JNumber (Num 10)])
                            (JNumber (Num 5)));
        PostStockIn (mkBody (JString "A") (JArray [JNumber (Num 10)])
                            (JNumber (Num 5)))])
    !! "A"
  = Some (Parsed [mkItem (JArray [JNumber (Num 10)]) (JNumber (Num 5));
                  mkItem (JArray [JNumber (Num 10)]) (JNumber (Num 5))]) /\
  ~ NoDup (item_size <$> [mkItem (JArray [JNumber (Num 10)]) (JNumber (Num 5));
                          mkItem (JArray [JNumber (Num 10)]) (JNumber (Num 5))]).
Proof.
  split; [vm_compute; reflexivity|].
  intros H. apply NoDup_cons in H as [H _]. apply H. apply list_elem_of_here.
Qed.

(** The row (10, 5), applied twice and uploaded twice. *)
Lemma bulk_set_idempotent_witness :
  quantity_of (JNumber (Num 10))
    (stock dec_text
       (post_upload dec_text ms_clock
          (post_upload dec_text ms_clock fresh (csv_upload "A" [row "10" "5"])).1
          (csv_upload "A" [row "10" "5"])).1
       (JString "A"))
    = quantity_of (JNumber (Num 10))
        (stock dec_text
           (post_upload dec_text ms_clock fresh (csv_upload "A" [row "10" "5"])).1
           (JString "A")) /\
  quantity_of (JNumber (Num 10))
    (stock dec_text
       (post_upload dec_text ms_clock fresh (csv_upload "A" [row "10" "5"])).1
       (JString "A"))
    = Some (JNumber (Num 5)).
Proof.
  destruct (bulk_set_idempotent dec_text ms_clock fresh
              (JString "A") "stock.csv" (row "10" "5") []) as [_ H].
  destruct (H eq_refl eq_refl) as [H1 H2].
  split; [exact H1|exact (H2 eq_refl)].
Defined.

(** The log of a fresh service after a delivery, then after a withdrawal,
    and after an upload of three rows of which one is skipped. *)
Lemma log_append_only_witness :
  log_file
    (post_stock_in dec_text dec_number ms_clock fresh (body "A" 10 5)).1
    = Some (Parsed [mkLogged (mkTx (JString "A") (JNumber (Num 10))
                                   (JNumber (Num 5)) IN) "T+1762041600000"]) /\
  log_file
    (post_stock_out dec_text dec_number ms_clock
       (run dec_text dec_number ms_clock fresh [PostStockIn (body "A" 10 5)])
       (body "A" 10 3)).1
    = Some (Parsed [mkLogged (mkTx (JString "A") (JNumber (Num 10))
                                   (JNumber (Num 5)) IN) "T+1762041600000";
                    mkLogged (mkTx (JString "A") (JNumber (Num 10))
                                   (JNumber (Num 3)) OUT) "T+1762041600001"]) /\
  log_file
    (post_upload dec_text ms_clock fresh
       (csv_upload "A" [row "10" "5"; row "abc" "3"; row "12" "7"])).1
    = Some (Parsed [mkLogged (mkTx (JString "A") (JNumber (Num 10))
                                   (JNumber (Num 5)) UPLOAD) "T+1762041600001";
                    mkLogged (mkTx (JString "A") (JNumber (Num 12))
                                   (JNumber (Num 7)) UPLOAD) "T+1762041600002"]).
Proof.
  split_and!.
  - destruct (log_append_only dec_text dec_number ms_clock fresh []
                eq_refl eq_refl) as (Hin & _ & _).
    apply (Hin (body "A" 10 5) _ (PSuccess [stock_item 10 5])).
    vm_compute. reflexivity.
  - destruct (log_append_only dec_text dec_number ms_clock
                (run dec_text dec_number ms_clock fresh [PostStockIn (body "A" 10 5)])
                [mkLogged (mkTx (JString "A") (JNumber (Num 10))
                                (JNumber (Num 5)) IN) "T+1762041600000"]
                eq_refl eq_refl) as (_ & Hout & _).
    apply (Hout (body "A" 10 3) _ (PSuccess [stock_item 10 2])).
    vm_compute. reflexivity.
  - destruct (log_append_only dec_text dec_number ms_clock fresh []
                eq_refl eq_refl) as (_ & _ & Hup).
    destruct (Hup (csv_upload "A" [row "10" "5"; row "abc" "3"; row "12" "7"])
                (post_upload dec_text ms_clock fresh
                   (csv_upload "A" [row "10" "5"; row "abc" "3"; row "12" "7"])).1
                (PSuccess [stock_item 10 5; stock_item 12 7]))
      as (file & Hf & Hlog).
    + vm_compute. reflexivity.
    + injection Hf as <-. exact Hlog.
Defined.

(** With the log document removed after the start, a delivery is accepted
    and nothing is logged: no log document exists after it. *)
Lemma stock_in_without_log :
  (post_stock_in dec_text dec_number ms_clock
     (mkWorld (stock_files fresh) None ∅ 0) (body "A" 10 5)).2
    = Reply 200 (PSuccess [stock_item 10 5]) /\
  log_file
    (post_stock_in dec_text dec_number ms_clock
       (mkWorld (stock_files fresh) None ∅ 0) (body "A" 10 5)).1
    = None.
Proof. split; vm_compute; reflexivity. Qed.

(** ** The further properties on concrete runs *)

Lemma nonpositive_quantity_rejected_witness :
  post_stock_in dec_text dec_number ms_clock fresh (body "A" 10 (-3))
    = (fresh, Reply 400 (PError "Invalid input data")) /\
  post_stock_out dec_text dec_number ms_clock fresh (body "A" 10 (-3))
    = (fresh, Reply 400 (PError "Invalid input data")).
Proof.
  apply (nonpositive_quantity_rejected dec_text dec_number ms_clock fresh
           (JString "A") (JNumber (Num 10)) (-3)).
  lia.
Defined.

Lemma stock_error_atomic_witness :
  post_stock_out dec_text dec_number ms_clock fresh (body "A" 10 5)
    = (fresh, Reply 400 (PError "Item not found in stock")) /\
  Reply 400 (PError "Item not found in stock") <> NoReply /\
  (forall status p,
     Reply 400 (PError "Item not found in stock") = Reply status p ->
     status <> 200%nat -> fresh = fresh).
Proof.
  assert (post_stock_out dec_text dec_number ms_clock fresh (body "A" 10 5)
          = (fresh, Reply 400 (PError "Item not found in stock"))) as H
    by (vm_compute; reflexivity).
  split; [exact H|].
  apply (stock_error_atomic dec_text dec_number ms_clock fresh fresh
           (body "A" 10 5)).
  right. exact H.
Defined.

Lemma upload_error_keeps_data_witness :
  (post_upload dec_text ms_clock fresh
     (csv_upload "Z" [row "10" "5"])).2
    = Reply 400 (PError "Invalid section") /\
  stock_files (post_upload dec_text ms_clock fresh
                 (csv_upload "Z" [row "10" "5"])).1 = stock_files fresh /\
  log_file (post_upload dec_text ms_clock fresh
              (csv_upload "Z" [row "10" "5"])).1 = log_file fresh.
Proof.
  assert ((post_upload dec_text ms_clock fresh
             (csv_upload "Z" [row "10" "5"])).2
          = Reply 400 (PError "Invalid section")) as H
    by (vm_compute; reflexivity).
  split; [exact H|].
  destruct (upload_error_keeps_data dec_text ms_clock fresh _
              (csv_upload "Z" [row "10" "5"]) _ (surjective_pairing _))
    as [_ Hk].
  destruct (Hk 400%nat (PError "Invalid section") H ltac:(discriminate))
    as (H1 & H2 & _).
  by split.
Defined.

Lemma unreadable_log_stays_witness :
  log_file
    (handle dec_text dec_number ms_clock
       (mkWorld (stock_files fresh) None ∅ 0) (PostStockIn (body "A" 10 5))).1
    = None /\
  (handle dec_text dec_number ms_clock
     (mkWorld (stock_files fresh) None ∅ 0) GetLogs).2
    = Reply 500 (PError "Failed to read transaction logs").
Proof.
  apply (unreadable_log_stays dec_text dec_number ms_clock
           (mkWorld (stock_files fresh) None ∅ 0) (PostStockIn (body "A" 10 5))).
  left. reflexivity.
Defined.

Lemma startup_documents_witness :
  stock_files (startup
                 (mkWorld {["A" := Parsed [stock_item 10 5]]} None ∅ 0))
    !! "A" = Some (Parsed [stock_item 10 5]) /\
  stock_files (startup
                 (mkWorld {["A" := Parsed [stock_item 10 5]]} None ∅ 0))
    !! "B" = Some (Parsed []) /\
  log_file (startup
              (mkWorld {["A" := Parsed [stock_item 10 5]]} None ∅ 0))
    = Some (Parsed []) /\
  stock_files (startup
                 (mkWorld {["A" := Parsed [stock_item 10 5]]} None ∅ 0))
    !! "D" = None.
Proof.
  destruct (startup_documents
              (mkWorld {["A" := Parsed [stock_item 10 5]]} None ∅ 0))
    as (Hkeep & _ & Hnew & Hlog & Hno).
  split_and!.
  - apply Hkeep. reflexivity.
  - apply Hnew; [|reflexivity]. apply list_elem_of_further, list_elem_of_here.
  - apply Hlog. reflexivity.
  - apply Hno; [|reflexivity]. intros H.
    repeat (apply elem_of_cons in H as [H|H]; [discriminate H|]).
    by apply elem_of_nil in H.
Defined.

Lemma reply_is_stored_witness :
  get_stock dec_text
    (run dec_text dec_number ms_clock fresh [PostStockIn (body "A" 10 5)])
    (JString "A")
  = (run dec_text dec_number ms_clock fresh [PostStockIn (body "A" 10 5)],
     Reply 200 (PStock [stock_item 10 5])) /\
  get_stock dec_text
    (run dec_text dec_number ms_clock fresh
       [PostUpload (csv_upload "B" [row "7" "2"])])
    (JString "B")
  = (run dec_text dec_number ms_clock fresh
       [PostUpload (csv_upload "B" [row "7" "2"])],
     Reply 200 (PStock [stock_item 7 2])).
Proof.
  split.
  - destruct (reply_is_stored dec_text dec_number ms_clock fresh
                (run dec_text dec_number ms_clock fresh
                   [PostStockIn (body "A" 10 5)])
                [stock_item 10 5]) as [Hbody _].
    apply (Hbody (body "A" 10 5)). left. vm_compute. reflexivity.
  - destruct (reply_is_stored dec_text dec_number ms_clock fresh
                (run dec_text dec_number ms_clock fresh
                   [PostUpload (csv_upload "B" [row "7" "2"])])
                [stock_item 7 2]) as [_ Hreq].
    apply (Hreq (csv_upload "B" [row "7" "2"])). vm_compute. reflexivity.
Defined.

Lemma other_sections_untouched_witness :
  stock_files
    (post_stock_in dec_text dec_number ms_clock fresh (body "A" 10 5)).1
    !! "B" = stock_files fresh !! "B" /\
  stock_files
    (post_upload dec_text ms_clock fresh
       (csv_upload "A" [row "10" "5"])).1
    !! "B" = stock_files fresh !! "B".
Proof.
  destruct (other_sections_untouched dec_text dec_number ms_clock fresh "B")
    as [Hbody Hreq].
  split.
  - apply (Hbody (body "A" 10 5)). discriminate.
  - apply (Hreq (csv_upload "A" [row "10" "5"])). discriminate.
Defined.

Lemma items_never_removed_witness :
  [JNumber (Num 10)]
    `prefix_of`
  (item_size
     <$> stock dec_text
           (run dec_text dec_number ms_clock
              (run dec_text dec_number ms_clock fresh
                 [PostStockIn (body "A" 10 5)])
              [PostStockOut (body "A" 10 5);
               PostUpload (csv_upload "A" [row "12" "1"])])
           (JString "A")).
Proof.
  apply (items_never_removed dec_text dec_number ms_clock
           (run dec_text dec_number ms_clock fresh [PostStockIn (body "A" 10 5)])
           _ (JString "A")).
  - apply (json_sizes_reaches dec_text dec_number ms_clock fresh);
      [apply json_sizes_fresh|apply reaches_run].
  - apply reaches_run.
Defined.

Lemma stock_in_string_concatenates_witness :
  quantity_of (JNumber (Num 10))
    (stock dec_text
       (post_stock_in dec_text dec_number ms_clock
          (run dec_text dec_number ms_clock fresh [PostStockIn (body "A" 10 3)])
          (mkBody (JString "A") (JNumber (Num 10)) (JString "5"))).1
       (JString "A"))
  = Some (JString "35").
Proof.
  apply (stock_in_string_concatenates dec_text dec_number ms_clock
           (run dec_text dec_number ms_clock fresh [PostStockIn (body "A" 10 3)])
           (JString "A") (JNumber (Num 10)) "5" 3).
  - reflexivity.
  - reflexivity.
  - reflexivity.
  - discriminate.
  - reflexivity.
  - vm_compute. reflexivity.
Defined.

Lemma stock_out_accepted_witness :
  exists sd,
    (post_stock_out dec_text dec_number ms_clock
       (run dec_text dec_number ms_clock fresh [PostStockIn (body "A" 10 8)])
       (body "A" 10 8)).2 = Reply 200 (PSuccess sd) /\
    quantity_of (JNumber (Num 10)) sd = Some (JNumber (Num (8 - 8))) /\
    quantity_of (JNumber (Num 10))
      (stock dec_text
         (post_stock_out dec_text dec_number ms_clock
            (run dec_text dec_number ms_clock fresh [PostStockIn (body "A" 10 8)])
            (body "A" 10 8)).1
         (JString "A")) = Some (JNumber (Num (8 - 8))).
Proof.
  apply (stock_out_accepted dec_text dec_number ms_clock
           (run dec_text dec_number ms_clock fresh [PostStockIn (body "A" 10 8)])
           (JString "A") (JNumber (Num 10)) 8 8).
  - reflexivity.
  - reflexivity.
  - reflexivity.
  - lia.
  - vm_compute. discriminate.
  - vm_compute. reflexivity.
Defined.

Lemma stock_in_out_roundtrip_witness :
  quantity_of (JNumber (Num 10))
    (stock dec_text
       (run dec_text dec_number ms_clock fresh
          [PostStockIn (body "A" 10 8); PostStockIn (body "A" 10 3);
           PostStockOut (body "A" 10 3)])
       (JString "A"))
    = Some (JNumber (Num 8)) /\
  quantity_of (JNumber (Num 10))
    (stock dec_text
       (run dec_text dec_number ms_clock fresh
          [PostStockIn (body "A" 10 3); PostStockOut (body "A" 10 3)])
       (JString "A"))
    = Some (JNumber (Num 0)).
Proof.
  split.
  - destruct (stock_in_out_roundtrip dec_text dec_number ms_clock
                (run dec_text dec_number ms_clock fresh [PostStockIn (body "A" 10 8)])
                (JString "A") (JNumber (Num 10)) 3 eq_refl eq_refl eq_refl
                ltac:(lia))
      as [Hpresent _].
    apply (Hpresent 8); [lia|vm_compute; discriminate|]. vm_compute. reflexivity.
  - destruct (stock_in_out_roundtrip dec_text dec_number ms_clock fresh
                (JString "A") (JNumber (Num 10)) 3 eq_refl eq_refl eq_refl
                ltac:(lia))
      as [_ Habsent].
    apply Habsent; [vm_compute; reflexivity|vm_compute; discriminate].
Defined.

Lemma other_sizes_untouched_witness :
  quantity_of (JNumber (Num 12))
    (stock dec_text
       (run dec_text dec_number ms_clock fresh
          [PostStockIn (body "A" 12 4); PostStockIn (body "A" 10 5)])
       (JString "A"))
  = json_value
      <$> quantity_of (JNumber (Num 12))
            (stock dec_text
               (run dec_text dec_number ms_clock fresh
                  [PostStockIn (body "A" 12 4)])
               (JString "A")).
Proof.
  apply (other_sizes_untouched dec_text dec_number ms_clock
           (run dec_text dec_number ms_clock fresh [PostStockIn (body "A" 12 4)])
           (run dec_text dec_number ms_clock fresh
              [PostStockIn (body "A" 12 4); PostStockIn (body "A" 10 5)])
           (body "A" 10 5) (PSuccess [stock_item 12 4; stock_item 10 5])
           (JNumber (Num 12))).
  - left. vm_compute. reflexivity.
  - discriminate.
  - discriminate.
  - reflexivity.
Defined.

Lemma upload_last_row_wins_witness :
  quantity_of (JNumber (Num 10))
    (stock dec_text
       (post_upload dec_text ms_clock fresh
          (csv_upload "A" [row "10" "5"; row "12" "1"; row "10" "7"; row "10" "x"])).1
       (JString "A"))
  = Some (JNumber (Num 7)).
Proof.
  apply (upload_last_row_wins dec_text ms_clock fresh
           (JString "A") (JNumber (Num 10))
           (mkFile "stock.csv"
              [row "10" "5"; row "12" "1"; row "10" "7"; row "10" "x"])).
  - reflexivity.
  - discriminate.
  - reflexivity.
Defined.

Lemma upload_all_skipped_witness :
  (post_upload dec_text ms_clock fresh
     (csv_upload "A" [row "abc" "3"; row "12" "x"])).2
    = Reply 200 (PSuccess []) /\
  (exists name,
     JString "A" = JString name /\
     stock_files
       (post_upload dec_text ms_clock fresh
          (csv_upload "A" [row "abc" "3"; row "12" "x"])).1
       = <[name := Parsed []]> (stock_files fresh)) /\
  log_file
    (post_upload dec_text ms_clock fresh
       (csv_upload "A" [row "abc" "3"; row "12" "x"])).1
    = log_file fresh.
Proof.
  apply (upload_all_skipped dec_text ms_clock fresh (JString "A")
           (mkFile "stock.csv" [row "abc" "3"; row "12" "x"])).
  - reflexivity.
  - vm_compute. reflexivity.
Defined.

Lemma upload_success_restores_uploads_witness :
  uploads
    (post_upload dec_text ms_clock fresh
       (csv_upload "A" [row "10" "5"])).1
  = uploads fresh.
Proof.
  apply (upload_success_restores_uploads dec_text ms_clock fresh
           (JString "A") (mkFile "stock.csv" [row "10" "5"])).
  - reflexivity.
  - vm_compute. reflexivity.
Defined.

Lemma log_only_grows_witness :
  exists l',
    log_file
      (run dec_text dec_number ms_clock
         (run dec_text dec_number ms_clock fresh [PostStockIn (body "A" 10 5)])
         [PostStockOut (body "A" 10 9); GetLogs;
          PostUpload (csv_upload "B" [row "7" "2"])])
    = Some (Parsed
              ([mkLogged (mkTx (JString "A") (JNumber (Num 10))
                               (JNumber (Num 5)) IN) "T+1762041600000"] ++ l')).
Proof.
  apply (log_only_grows dec_text dec_number ms_clock
           (run dec_text dec_number ms_clock fresh [PostStockIn (body "A" 10 5)])).
  - vm_compute. reflexivity.
  - reflexivity.
  - apply reaches_run.
Defined.

(** The cell 42 is read as 42. *)
Lemma parseInt_decimal_witness : parseInt (Some "42") = Num 42.
Proof.
  destruct (parseInt_decimal 42 10 5) as (_ & _ & H).
  apply H. split; vm_compute; discriminate.
Defined.

Lemma filename_injective_witness :
  filename 1762041600000 (mkFile "stock.csv" [])
    <> filename 1762041600001 (mkFile "stock.csv" []).
Proof. apply filename_injective. discriminate. Defined.

Lemma stock_in_new_size_witness :
  (post_stock_in dec_text dec_number ms_clock
     (run dec_text dec_number ms_clock fresh [PostStockIn (body "A" 10 5)])
     (body "A" 12 4)).2
    = Reply 200 (PSuccess ([stock_item 10 5] ++ [stock_item 12 4])) /\
  stock dec_text
    (post_stock_in dec_text dec_number ms_clock
       (run dec_text dec_number ms_clock fresh [PostStockIn (body "A" 10 5)])
       (body "A" 12 4)).1
    (JString "A")
    = (json_item <$> [stock_item 10 5]) ++ [stock_item 12 4].
Proof.
  apply (stock_in_new_size dec_text dec_number ms_clock
           (run dec_text dec_number ms_clock fresh [PostStockIn (body "A" 10 5)])
           (JString "A") (JNumber (Num 12)) 4).
  - reflexivity.
  - reflexivity.
  - lia.
  - intros x Hx. vm_compute in Hx.
    apply list_elem_of_singleton in Hx as ->. discriminate.
Defined.

Lemma stock_routes_keep_nonnegative_witness :
  all_nonnegative
    (post_stock_in dec_text dec_number ms_clock fresh (body "A" 10 5)).1 /\
  all_nonnegative
    (post_stock_out dec_text dec_number ms_clock fresh (body "A" 10 5)).1.
Proof.
  apply (stock_routes_keep_nonnegative dec_text dec_number ms_clock fresh
           (JString "A") (JNumber (Num 10)) 5).
  apply all_nonnegative_fresh.
Defined.

Lemma upload_splits_witness :
  stock dec_text
    (post_upload dec_text ms_clock
       (post_upload dec_text ms_clock fresh
          (mkUpload (JString "A")
             (Some (mkFile "one.csv" [row "10" "5"; row "12" "1"])))).1
       (mkUpload (JString "A") (Some (mkFile "two.csv" [row "10" "7"])))).1
    (JString "A")
  = stock dec_text
      (post_upload dec_text ms_clock fresh
         (mkUpload (JString "A")
            (Some (mkFile "all.csv" [row "10" "5"; row "12" "1"; row "10" "7"])))).1
      (JString "A").
Proof.
  apply (upload_splits dec_text ms_clock fresh (JString "A")
           "one.csv" "two.csv" "all.csv"
           [row "10" "5"; row "12" "1"] [row "10" "7"]).
  - reflexivity.
  - vm_compute. constructor.
  - repeat constructor.
Defined.
